(** * xdsl-ccpp: the suite CAP generator and the Fortran-style emitter

    A shallow embedding of
      - [transforms/util/ccpp_descriptors.py], [transforms/util/typing.py],
      - [transforms/suite_meta.py], [transforms/suite_cap.py],
      - [frontend/ccpp_xml.py] (the metadata reader),
      - [backend/print_ftn.py],
    followed by the properties of the generated phase subroutines and of
    the emitter's naming contexts.

    Python values are modelled as follows: [str] is [string] (ASCII bytes),
    [int] is [Z] (counters that only count up from zero are [nat]), a
    [dict] is an insertion-ordered association list ([Py.dict]) except for
    the emitter's [variables], whose order is never observed and which is a
    [gmap]; an exception is a [Py.Raise]; object identity of SSA values is
    a natural number drawn from an allocation counter. *)

From Stdlib Require Import ZArith String Ascii List Lia.
From stdpp Require Import base tactics option list strings gmap pretty.

Open Scope string_scope.
Open Scope nat_scope.
Open Scope list_scope.
Open Scope stdpp_scope.
Set Warnings "-register-all".

(** ** Python prelude *)
Module Py.

Inductive exn : Set :=
| AssertionError | KeyError | IndexError | ValueError | TypeError
| AttributeError.

Inductive result (A : Type) : Type :=
| Ok (a : A)
| Raise (e : exn).
Arguments Ok {A} a.
Arguments Raise {A} e.

Definition bind {A B} (m : result A) (k : A → result B) : result B :=
  match m with
  | Ok a => k a
  | Raise e => Raise e
  end.

Definition assert (b : bool) : result unit :=
  if b then Ok tt else Raise AssertionError.

(** *** Insertion-ordered dictionaries keyed by strings *)
Definition dict (V : Type) : Type := list (string * V).

Fixpoint get {V} (d : dict V) (k : string) : option V :=
  match d with
  | [] => None
  | (k', v) :: d' => if decide (k' = k) then Some v else get d' k
  end.

Definition mem {V} (d : dict V) (k : string) : bool :=
  match get d k with Some _ => true | None => false end.

(** [d[k] = v]: an existing key keeps its position, a new key goes last. *)
Fixpoint set {V} (d : dict V) (k : string) (v : V) : dict V :=
  match d with
  | [] => [(k, v)]
  | (k', v') :: d' =>
      if decide (k' = k) then (k, v) :: d' else (k', v') :: set d' k v
  end.

Definition keys {V} (d : dict V) : list string := fst <$> d.
Definition values {V} (d : dict V) : list V := snd <$> d.

(** [d[k]] as an expression. *)
Definition item {V} (d : dict V) (k : string) : result V :=
  match get d k with
  | Some v => Ok v
  | None => Raise KeyError
  end.

(** [d.update(other)] *)
Definition update {V} (d other : dict V) : dict V :=
  fold_left (λ acc kv, set acc kv.1 kv.2) other d.

(** *** Strings

    A text is the list of its characters, each a code below 128: the
    functions below are those of [str] on ASCII text.  (On other text
    [str.strip] also removes the white space outside ASCII.) *)
Definition isspace (c : ascii) : bool :=
  let n := nat_of_ascii c in
  ((9 <=? n)%nat && (n <=? 13)%nat) || ((28 <=? n)%nat && (n <=? 32)%nat).

Fixpoint lstrip (s : string) : string :=
  match s with
  | "" => ""
  | String c r => if isspace c then lstrip r else s
  end.

Fixpoint rstrip (s : string) : string :=
  match s with
  | "" => ""
  | String c r =>
      match rstrip r with
      | "" => if isspace c then "" else String c ""
      | r' => String c r'
      end
  end.

Definition strip (s : string) : string := rstrip (lstrip s).

(** [c in s] for a one-character [c]. *)
Fixpoint contains (c : ascii) (s : string) : bool :=
  match s with
  | "" => false
  | String c' r => if decide (c' = c) then true else contains c r
  end.

(** [s.translate(str.maketrans('', '', cs))]: delete every character of [cs]. *)
Fixpoint delete_chars (cs : string) (s : string) : string :=
  match s with
  | "" => ""
  | String c r =>
      if contains c cs then delete_chars cs r
      else String c (delete_chars cs r)
  end.

(** [s.split(sep)] for a one-character separator. *)
Fixpoint split (sep : ascii) (s : string) : list string :=
  match s with
  | "" => [""]
  | String c r =>
      if decide (c = sep) then "" :: split sep r
      else match split sep r with
           | h :: t => String c h :: t
           | [] => [String c ""]
           end
  end.

(** [p in s] for strings. *)
Fixpoint is_substring (p s : string) : bool :=
  String.prefix p s ||
  match s with
  | "" => false
  | String _ r => is_substring p r
  end.

(** [sep.join(l)] *)
Fixpoint join (sep : string) (l : list string) : string :=
  match l with
  | [] => ""
  | [x] => x
  | x :: r => x +:+ sep +:+ join sep r
  end.

(** [l[i]] with Python's negative indices. *)
Definition index {A} (l : list A) (i : Z) : result A :=
  let n := Z.of_nat (length l) in
  let j := if (i <? 0)%Z then (i + n)%Z else i in
  if (j <? 0)%Z then Raise IndexError
  else match l !! Z.to_nat j with
       | Some x => Ok x
       | None => Raise IndexError
       end.

(** [s[i]] *)
Definition char_at (s : string) (i : Z) : result ascii :=
  index (list_ascii_of_string s) i.

(** [int(s)] on ASCII text: surrounding blanks, an optional sign, decimal
    digits with single underscores between digits; a text of more digits
    than the interpreter's limit (4300 unless configured otherwise) is
    refused. *)
Definition digit_value (c : ascii) : option Z :=
  let n := nat_of_ascii c in
  if ((48 <=? n)%nat && (n <=? 57)%nat) then Some (Z.of_nat (n - 48)) else None.

Fixpoint digits (s : string) (acc : Z) (after_digit : bool) : option Z :=
  match s with
  | "" => if after_digit then Some acc else None
  | String c r =>
      match digit_value c with
      | Some d => digits r (acc * 10 + d)%Z true
      | None =>
          if decide (c = "_"%char) then
            if after_digit then digits r acc false else None
          else None
      end
  end.

(** The number of digit characters of a text; the sign and the
    underscores do not count towards the limit. *)
Fixpoint count_digits (s : string) : Z :=
  match s with
  | "" => 0
  | String c r =>
      match digit_value c with
      | Some _ => 1 + count_digits r
      | None => count_digits r
      end
  end%Z.

(** [sys.get_int_max_str_digits()] *)
Definition int_max_str_digits : Z := 4300.

Definition int (s : string) : result Z :=
  let body sgn t :=
    match digits t 0%Z false with
    | Some z =>
        if (int_max_str_digits <? count_digits t)%Z then Raise ValueError
        else Ok (sgn * z)%Z
    | None => Raise ValueError
    end in
  match strip s with
  | String "-" t => body (-1)%Z t
  | String "+" t => body 1%Z t
  | t => body 1%Z t
  end.

(** [str(x)] of an [int] (within the limit of the conversion, as for
    [int]) and of [None]-able text in an f-string. *)
Definition str_int (z : Z) : string := pretty z.
Definition str_opt (o : option string) : string :=
  match o with Some s => s | None => "None" end.

End Py.

Abbreviation Ok := Py.Ok.
Abbreviation Raise := Py.Raise.

#[global] Instance result_ret : MRet Py.result := @Py.Ok.
#[global] Instance result_bind : MBind Py.result := λ A B k m, Py.bind m k.
#[global] Instance result_fmap : FMap Py.result :=
  λ A B f m, Py.bind m (λ a, Ok (f a)).

(** ** The host operation tree (the part of xDSL the sources use)

    Types and data attributes are both [Attribute]s, as in the host
    library.  An SSA value is identified by [ssa_id] (its object identity);
    an operand carries the value together with its owner, so that
    [val.owner] is a projection. *)
Module ir.

Inductive Attribute : Type :=
| Float32Type
| Float64Type
| IntegerType (width : Z)
| IndexType
| MemRefType (element_type : Attribute) (shape : list Z)
| FunctionType (inputs outputs : list Attribute)
| IntAttr (data : Z)
| IntegerAttr (value : Z) (type : Attribute)
| StringAttr (data : string)
| UnitAttr.

Definition i1 : Attribute := IntegerType 1.
Definition i8 : Attribute := IntegerType 8.
Definition i32 : Attribute := IntegerType 32.
Definition i64 : Attribute := IntegerType 64.
Definition f64 : Attribute := Float64Type.

Record SSAValue : Type := mkSSA {
  ssa_id : nat;
  ssa_type : Attribute;
  name_hint : option string
}.

Inductive Operation : Type :=
| AllocaOp (memref : SSAValue)
| ConstantOp (value : Attribute) (result : SSAValue)
| LoadOp (memref : Operand) (indices : list Operand) (res : SSAValue)
| CmpiOp (predicate : Z) (lhs rhs : Operand) (result : SSAValue)
| StoreOp (value memref : Operand) (indices : list Operand)
| CopyOp (source destination : Operand)
| CallOp (callee : string) (arguments : list Operand) (res : list SSAValue)
| IfOp (cond : Operand) (true_region false_region : list (list Operation))
| YieldOp (arguments : list Operand)
| ReturnOp (arguments : list Operand)
| FuncOp (sym_name : string) (function_type : Attribute)
         (body : list (list Operation))
| ModuleOp (sym_name : option string) (body : list Operation)
| OtherOp (cls : string) (operands : list Operand) (results : list SSAValue)
with Operand : Type :=
| OpResult (v : SSAValue) (owner : Operation)
| BlockArgument (v : SSAValue).

(** A block is its list of operations, a region its list of blocks. *)
Definition Block : Type := list Operation.
Definition Region : Type := list Block.

Definition value_of (o : Operand) : SSAValue :=
  match o with
  | OpResult v _ => v
  | BlockArgument v => v
  end.

Definition results (op : Operation) : list SSAValue :=
  match op with
  | AllocaOp v => [v]
  | ConstantOp _ v => [v]
  | LoadOp _ _ v => [v]
  | CmpiOp _ _ _ v => [v]
  | CallOp _ _ rs => rs
  | OtherOp _ _ rs => rs
  | _ => []
  end.

(** [SSAValue.get(op)]: the single result of an operation. *)
Definition SSAValue_get (op : Operation) : Py.result Operand :=
  match results op with
  | [v] => Ok (OpResult v op)
  | _ => Raise Py.ValueError
  end.

(** [op.results[i]] *)
Definition result_at (op : Operation) (i : nat) : Py.result Operand :=
  match results op !! i with
  | Some v => Ok (OpResult v op)
  | None => Raise Py.IndexError
  end.

(** [Region.ops] / [Region.block]: only for single-block regions. *)
Definition region_block (r : Region) : Py.result Block :=
  match r with
  | [b] => Ok b
  | _ => Raise Py.ValueError
  end.

(** [FuncOp.is_declaration] *)
Definition is_declaration (body : Region) : bool :=
  match body with [] => true | _ => false end.

(** [FuncOp.external(name, inputs, outputs)] *)
Definition FuncOp_external (name : string) (ins outs : list Attribute)
  : Operation :=
  FuncOp name (FunctionType ins outs) [].

(** Renaming of value identities, used to compare two runs of a generator
    that drew their identities from different allocator states. *)
Definition rename_value (f : nat → nat) (v : SSAValue) : SSAValue :=
  mkSSA (f (ssa_id v)) (ssa_type v) (name_hint v).

Fixpoint rename (f : nat → nat) (op : Operation) : Operation :=
  let ro := rename_operand f in
  let rb (b : list Operation) := rename f <$> b in
  match op with
  | AllocaOp v => AllocaOp (rename_value f v)
  | ConstantOp a v => ConstantOp a (rename_value f v)
  | LoadOp m i v => LoadOp (ro m) (ro <$> i) (rename_value f v)
  | CmpiOp p l r v => CmpiOp p (ro l) (ro r) (rename_value f v)
  | StoreOp v m i => StoreOp (ro v) (ro m) (ro <$> i)
  | CopyOp s d => CopyOp (ro s) (ro d)
  | CallOp c a rs => CallOp c (ro <$> a) (rename_value f <$> rs)
  | IfOp c t e => IfOp (ro c) (rb <$> t) (rb <$> e)
  | YieldOp a => YieldOp (ro <$> a)
  | ReturnOp a => ReturnOp (ro <$> a)
  | FuncOp n t b => FuncOp n t (rb <$> b)
  | ModuleOp n b => ModuleOp n (rb b)
  | OtherOp c a rs => OtherOp c (ro <$> a) (rename_value f <$> rs)
  end
with rename_operand (f : nat → nat) (o : Operand) : Operand :=
  match o with
  | OpResult v owner => OpResult (rename_value f v) (rename f owner)
  | BlockArgument v => BlockArgument (rename_value f v)
  end.

(** Nesting depth of conditionals: an [scf.if] counts one level more than
    the deepest conditional inside its branches. *)
Fixpoint if_depth (op : Operation) : nat :=
  let blk (b : list Operation) : nat :=
    foldr (λ o d, Nat.max (if_depth o) d) 0 b in
  let reg (r : list (list Operation)) : nat :=
    foldr (λ b d, Nat.max (blk b) d) 0 r in
  match op with
  | IfOp _ t e => S (Nat.max (reg t) (reg e))
  | FuncOp _ _ b => reg b
  | ModuleOp _ b => blk b
  | _ => 0
  end.

Definition block_if_depth (b : Block) : nat :=
  foldr (λ o d, Nat.max (if_depth o) d) 0 b.

Definition region_if_depth (r : Region) : nat :=
  foldr (λ b d, Nat.max (block_if_depth b) d) 0 r.

End ir.

(** ** [transforms/util/ccpp_descriptors.py]: the metadata and suite models *)
Module ccpp_descriptors.

(** [CCPPType(value)]: a [StrEnum], so a member is its lower-case text. *)
Definition CCPPType (value : string) : Py.result string :=
  if bool_decide (value ∈ ["scheme"; "module"; "ddt"]) then Ok value
  else Raise Py.ValueError.

(** [CCPPItem]: the [attrs] dictionary and its accessors. *)
Definition setAttr (attrs : Py.dict string) (key value : string)
    (allowed_keys : option (list string)) : Py.result (Py.dict string) :=
  match allowed_keys with
  | Some ks => Py.assert (bool_decide (key ∈ ks))
  | None => Ok tt
  end;;
  Ok (Py.set attrs key value).

Definition getAttr (attrs : Py.dict string) (key : string)
  : Py.result string :=
  Py.assert (Py.mem attrs key);;
  Py.item attrs key.

Definition hasAttr (attrs : Py.dict string) (key : string) : bool :=
  Py.mem attrs key.

Record CCPPArgument : Type := mkArgument {
  arg_name : string;
  arg_attrs : Py.dict string
}.

Record CCPPArgumentTable : Type := mkArgumentTable {
  table_attrs : Py.dict string;
  function_arguments : Py.dict CCPPArgument
}.

Record CCPPTableProperties : Type := mkTableProperties {
  prop_attrs : Py.dict string;
  arg_tables : Py.dict CCPPArgumentTable
}.

(** [CCPPTableProperties.setAttr] *)
Definition setAttr_properties (p : CCPPTableProperties) (key value : string)
  : Py.result CCPPTableProperties :=
  value ← (if decide (key = "type") then CCPPType value else Ok value);
  attrs ← setAttr (prop_attrs p) key value
             (Some ["name"; "type"; "dependencies"; "relative_path"]);
  Ok (mkTableProperties attrs (arg_tables p)).

(** [CCPPArgumentTable.setAttr] *)
Definition setAttr_table (t : CCPPArgumentTable) (key value : string)
  : Py.result CCPPArgumentTable :=
  attrs ← setAttr (table_attrs t) key value (Some ["name"; "type"]);
  Ok (mkArgumentTable attrs (function_arguments t)).

(** [CCPPArgument.setAttr] (no key restriction) *)
Definition setAttr_argument (a : CCPPArgument) (key value : string)
  : Py.result CCPPArgument :=
  attrs ← setAttr (arg_attrs a) key value None;
  Ok (mkArgument (arg_name a) attrs).

Definition setFunctionArgument (t : CCPPArgumentTable) (fn_arg : CCPPArgument)
  : CCPPArgumentTable :=
  mkArgumentTable (table_attrs t)
    (Py.set (function_arguments t) (arg_name fn_arg) fn_arg).

Definition getFunctionArguments (t : CCPPArgumentTable)
  : list CCPPArgument :=
  Py.values (function_arguments t).

Definition getArgTable (p : CCPPTableProperties) (v : string)
  : Py.result CCPPArgumentTable :=
  Py.item (arg_tables p) v.

(** The suite descriptor: [XMLSuite] -> [XMLGroup] -> [XMLScheme]; the
    [attributes] dictionaries hold exactly the names given to the
    constructors. *)
Record XMLScheme : Type := mkScheme { scheme_name : string }.
Record XMLGroup : Type := mkGroup {
  group_name : string;
  group_children : list XMLScheme
}.
Record XMLSuite : Type := mkSuite {
  suite_name : string;
  suite_version : string;
  suite_children : list XMLGroup
}.

(** The [ccpp] dialect operations the descriptors are recovered from
    ([dialects/ccpp.py]); the optional properties are those of
    [ArgumentOp]. *)
Record ArgumentOp : Type := mkArgumentOp {
  op_arg_name : string;
  op_arg_type : string;
  op_standard_name : option string;
  op_long_name : option string;
  op_kind : option string;
  op_intent : option string;
  op_units : option string;
  op_optional : bool
}.

Record ArgumentTableOp : Type := mkArgumentTableOp {
  op_table_name : string;
  op_table_type : string;
  op_table_body : list ArgumentOp
}.

Record TablePropertiesOp : Type := mkTablePropertiesOp {
  op_prop_name : string;
  op_prop_type : string;
  op_prop_body : list ArgumentTableOp
}.

(** [BuildMetaDataDescriptions]: the visitor's fields.  [None] is the
    value the traversals assign to [arg_table] and [arg_token]; a builder
    on which neither was assigned yet (its [__init__] assigns local names)
    is not told apart from it. *)
Record BuildMetaDataDescriptions : Type := mkBMDD {
  meta_data : Py.dict CCPPTableProperties;
  arg_table : option (string * CCPPArgumentTable);
  arg_token : option CCPPArgument
}.

(** [arg_op.properties], as far as [traverse_argument_op] reads it. *)
Definition op_property (arg_op : ArgumentOp) (kp : string) : option string :=
  if decide (kp = "standard_name") then op_standard_name arg_op
  else if decide (kp = "long_name") then op_long_name arg_op
  else if decide (kp = "kind") then op_kind arg_op
  else if decide (kp = "intent") then op_intent arg_op
  else if decide (kp = "units") then op_units arg_op
  else if decide (kp = "type") then Some (op_arg_type arg_op)
  else None.

Definition traverse_argument_op (self : BuildMetaDataDescriptions)
    (arg_op : ArgumentOp) : Py.result BuildMetaDataDescriptions :=
  Py.assert (bool_decide (arg_token self = None));;
  let arg := mkArgument (op_arg_name arg_op) [] in
  let known_props :=
    ["standard_name"; "long_name"; "kind"; "intent"; "units"; "type"] in
  arg ← foldl (λ acc kp,
                 a ← acc;
                 match op_property arg_op kp with
                 | Some data => setAttr_argument a kp data
                 | None => Ok a
                 end) (Ok arg) known_props;
  (* [arg["optional"]=True]: the class has no item assignment *)
  (if op_optional arg_op then Raise Py.TypeError else Ok tt);;
  Ok (mkBMDD (meta_data self) (arg_table self) (Some arg)).

(** The loop of [traverse_argument_table_op], the traversal of a body
    operation being the dispatch to [traverse_argument_op]. *)
Fixpoint traverse_arguments (self : BuildMetaDataDescriptions)
    (ops : list ArgumentOp) (args : Py.dict CCPPArgument)
  : Py.result (BuildMetaDataDescriptions * Py.dict CCPPArgument) :=
  match ops with
  | [] => Ok (self, args)
  | op :: rest =>
      self ← traverse_argument_op self op;
      match arg_token self with
      | None => Raise Py.AssertionError
      | Some tok =>
          traverse_arguments
            (mkBMDD (meta_data self) (arg_table self) None) rest
            (Py.set args (arg_name tok) tok)
      end
  end.

Definition traverse_argument_table_op (self : BuildMetaDataDescriptions)
    (arg_table_op : ArgumentTableOp) : Py.result BuildMetaDataDescriptions :=
  Py.assert (bool_decide (arg_table self = None));;
  let self := mkBMDD (meta_data self) (arg_table self) None in
  '(self, args) ← traverse_arguments self (op_table_body arg_table_op) [];
  let new_arg_table := mkArgumentTable [] args in
  new_arg_table ← setAttr_table new_arg_table "name"
                    (op_table_name arg_table_op);
  new_arg_table ← setAttr_table new_arg_table "type"
                    (op_table_type arg_table_op);
  name ← getAttr (table_attrs new_arg_table) "name";
  Ok (mkBMDD (meta_data self) (Some (name, new_arg_table)) (arg_token self)).

(** The loop of [traverse_table_properties_op]. *)
Fixpoint traverse_tables (self : BuildMetaDataDescriptions)
    (ops : list ArgumentTableOp) (arg_tables : Py.dict CCPPArgumentTable)
  : Py.result (BuildMetaDataDescriptions * Py.dict CCPPArgumentTable) :=
  match ops with
  | [] => Ok (self, arg_tables)
  | op :: rest =>
      self ← traverse_argument_table_op self op;
      match arg_table self with
      | None => Raise Py.AssertionError
      | Some (k, v) =>
          traverse_tables
            (mkBMDD (meta_data self) None (arg_token self)) rest
            (Py.set arg_tables k v)
      end
  end.

Definition traverse_table_properties_op (self : BuildMetaDataDescriptions)
    (properties_op : TablePropertiesOp)
  : Py.result BuildMetaDataDescriptions :=
  let self := mkBMDD (meta_data self) None (arg_token self) in
  '(self, arg_tables) ← traverse_tables self (op_prop_body properties_op) [];
  let ccpp_prop := mkTableProperties [] arg_tables in
  ccpp_prop ← setAttr_properties ccpp_prop "name" (op_prop_name properties_op);
  ccpp_prop ← setAttr_properties ccpp_prop "type" (op_prop_type properties_op);
  name ← getAttr (prop_attrs ccpp_prop) "name";
  Ok (mkBMDD (Py.set (meta_data self) name ccpp_prop)
             (arg_table self) (arg_token self)).

End ccpp_descriptors.

(** ** [transforms/util/typing.py] *)
Module typing.
Import ir.

Definition TEXT_TYPE_TO_MLIR_TYPE : Py.dict Attribute :=
  [("character", i8); ("integer", i32); ("real", f64)].

Definition getBaseType (text_type : string) : Py.result Attribute :=
  Py.assert (Py.mem TEXT_TYPE_TO_MLIR_TYPE text_type);;
  Py.item TEXT_TYPE_TO_MLIR_TYPE text_type.

Definition convert (text_type : string) (kind : option string)
  : Py.result Attribute :=
  base_type ← getBaseType text_type;
  shape ← match kind with
           | Some kind =>
               if Py.is_substring "len=" kind then
                 n ← Py.index (Py.split "=" kind) 1 ≫= Py.int;
                 Ok [n]
               else Ok []
           | None => Ok []
           end;
  Ok (MemRefType base_type shape).

End typing.

(** ** [transforms/suite_meta.py]: signatures from argument tables *)
Module suite_meta.
Import ir ccpp_descriptors.

(** The loop of [generate_function_signature]; [in_args] and [out_args]
    are the two lists being appended to. *)
Fixpoint signature_args (args : list CCPPArgument)
    (in_args out_args : list Attribute)
  : Py.result (list Attribute * list Attribute) :=
  match args with
  | [] => Ok (in_args, out_args)
  | fn_arg :: rest =>
      ty ← getAttr (arg_attrs fn_arg) "type";
      kind ← (if hasAttr (arg_attrs fn_arg) "kind"
               then Some <$> getAttr (arg_attrs fn_arg) "kind"
               else Ok None);
      arg_type ← typing.convert ty kind;
      if hasAttr (arg_attrs fn_arg) "intent" then
        intent ← getAttr (arg_attrs fn_arg) "intent";
        if decide (intent = "in") then
          signature_args rest (in_args ++ [arg_type]) out_args
        else if decide (intent = "out") then
          signature_args rest in_args (out_args ++ [arg_type])
        else if decide (intent = "inout") then
          signature_args rest (in_args ++ [arg_type]) (out_args ++ [arg_type])
        else Raise Py.AssertionError
      else
        (* Assume inout *)
        signature_args rest (in_args ++ [arg_type]) (out_args ++ [arg_type])
  end.

Definition generate_function_signature (arg_table : CCPPArgumentTable)
  : Py.result Operation :=
  '(in_args, out_args) ← signature_args (getFunctionArguments arg_table) [] [];
  name ← getAttr (table_attrs arg_table) "name";
  Ok (FuncOp_external name in_args out_args).

End suite_meta.

(** ** [transforms/suite_cap.py]: the phase subroutine generator *)
Module suite_cap.
Import ir ccpp_descriptors.

(** Creating an operation creates its result values; their identities
    come from an allocation counter threaded through the generator. *)
Definition Gen (A : Type) : Type := nat → Py.result (A * nat).

#[global] Instance gen_ret : MRet Gen := λ A a n, Ok (a, n).
#[global] Instance gen_bind : MBind Gen := λ A B k m n,
  match m n with
  | Ok (a, n') => k a n'
  | Raise e => Raise e
  end.

Definition lift {A} (r : Py.result A) : Gen A := λ n,
  match r with
  | Ok a => Ok (a, n)
  | Raise e => Raise e
  end.

Definition new_value (ty : Attribute) : Gen SSAValue := λ n,
  Ok (mkSSA n ty None, S n).

(** *** The host constructors the generator calls *)

(** [memref.AllocaOp.get(return_type, shape=shape)] *)
Definition AllocaOp_get (return_type : Attribute) (shape : list Z)
  : Gen Operation :=
  v ← new_value (MemRefType return_type shape);
  mret (AllocaOp v).

(** [arith.ConstantOp.from_int_and_width(value, width)] *)
Definition ConstantOp_from_int_and_width (value width : Z) : Gen Operation :=
  v ← new_value (IntegerType width);
  mret (ConstantOp (IntegerAttr value (IntegerType width)) v).

(** [memref.StoreOp.get(value, ref, indices)] *)
Definition StoreOp_get (value ref : Operation) (indices : list Operation)
  : Py.result Operation :=
  value ← SSAValue_get value;
  ref ← SSAValue_get ref;
  indices ← mapM SSAValue_get indices;
  Ok (StoreOp value ref indices).

(** [memref.LoadOp.get(ref, indices)]: the result has the element type. *)
Definition LoadOp_get (ref : Operation) (indices : list Operation)
  : Gen Operation :=
  ref ← lift (SSAValue_get ref);
  indices ← lift (mapM SSAValue_get indices);
  match ssa_type (value_of ref) with
  | MemRefType element_type _ =>
      v ← new_value element_type;
      mret (LoadOp ref indices v)
  | _ => lift (Raise Py.ValueError)
  end.

(** [arith.CmpiOp(operand1, operand2, arg)] with an integer [arg] *)
Definition CmpiOp_new (operand1 operand2 : Operation) (arg : Z)
  : Gen Operation :=
  operand1 ← lift (SSAValue_get operand1);
  operand2 ← lift (SSAValue_get operand2);
  v ← new_value i1;
  mret (CmpiOp arg operand1 operand2 v).

(** [func.CallOp(callee, arguments, return_types)] *)
Definition CallOp_new (callee : string) (arguments : list Operation)
    (return_types : list Attribute) : Gen Operation :=
  arguments ← lift (mapM SSAValue_get arguments);
  res ← mapM new_value return_types;
  mret (CallOp callee arguments res).

(** [memref.CopyOp(source, destination)] *)
Definition CopyOp_new (source : Operand) (destination : Operation)
  : Py.result Operation :=
  destination ← SSAValue_get destination;
  Ok (CopyOp source destination).

(** [scf.IfOp(cond, [], true_region)]: the operations become the single
    block of the true region, the false region has no block. *)
Definition IfOp_new (cond : Operation) (true_region : list Operation)
  : Py.result Operation :=
  cond ← SSAValue_get cond;
  Ok (IfOp cond [true_region] []).

(** [func.ReturnOp( *ops )] *)
Definition ReturnOp_new (return_vals : list Operation)
  : Py.result Operation :=
  return_vals ← mapM SSAValue_get return_vals;
  Ok (ReturnOp return_vals).

(** *** [GenerateSuiteSubroutine] *)
Record GenerateSuiteSubroutine : Type := mkGenerate {
  suite_descriptions : Py.dict XMLSuite;
  meta_data : Py.dict CCPPTableProperties;
  meta_fn_sigs : Py.dict Operation
}.

Definition getSchemeNames (suite_description : XMLSuite) : list string :=
  concat ((λ group, scheme_name <$> group_children group)
            <$> suite_children suite_description).

Definition getArgumentTable (self : GenerateSuiteSubroutine)
    (scheme_name subroutine_name : string) : Py.result CCPPArgumentTable :=
  Py.assert (Py.mem (meta_data self) scheme_name);;
  props ← Py.item (meta_data self) scheme_name;
  getArgTable props subroutine_name.

(** The inner loop of the first half of [generateVariableCreation]. *)
Fixpoint register_arguments (fn_args : list CCPPArgument)
    (args_required : Py.dict CCPPArgument)
  : Py.result (Py.dict CCPPArgument) :=
  match fn_args with
  | [] => Ok args_required
  | fn_arg :: rest =>
      if Py.mem args_required (arg_name fn_arg) then
        ty ← getAttr (arg_attrs fn_arg) "type";
        first ← Py.item args_required (arg_name fn_arg);
        ty0 ← getAttr (arg_attrs first) "type";
        Py.assert (bool_decide (ty = ty0));;
        register_arguments rest args_required
      else
        register_arguments rest
          (Py.set args_required (arg_name fn_arg) fn_arg)
  end.

(** Its outer loop over the scheme names. *)
Fixpoint required_arguments (scheme_names : list string)
    (arg_tables : Py.dict CCPPArgumentTable)
    (args_required : Py.dict CCPPArgument)
  : Py.result (Py.dict CCPPArgument) :=
  match scheme_names with
  | [] => Ok args_required
  | scheme_name :: rest =>
      arg_table ← Py.item arg_tables scheme_name;
      args_required ←
        register_arguments (getFunctionArguments arg_table) args_required;
      required_arguments rest arg_tables args_required
  end.

(** The second half: one [alloca] per required argument. *)
Fixpoint allocate (args : list CCPPArgument) (alloc_ops : Py.dict Operation)
  : Gen (Py.dict Operation) :=
  match args with
  | [] => mret alloc_ops
  | arg :: rest =>
      arg_type ← lift (getAttr (arg_attrs arg) "type");
      data_shape ← lift (
        if decide (arg_type = "character") then
          kind ← getAttr (arg_attrs arg) "kind";
          n ← Py.index (Py.split "=" kind) 1 ≫= Py.int;
          Ok [n]
        else Ok []);
      base ← lift (typing.getBaseType arg_type);
      op ← AllocaOp_get base data_shape;
      allocate rest (Py.set alloc_ops (arg_name arg) op)
  end.

Definition generateVariableCreation (scheme_names : list string)
    (arg_tables : Py.dict CCPPArgumentTable) : Gen (Py.dict Operation) :=
  args_required ← lift (required_arguments scheme_names arg_tables []);
  allocate (Py.values args_required) [].

Definition generateVariableInitialisations (data_ops : Py.dict Operation)
  : Gen (list Operation) :=
  err_const ← ConstantOp_from_int_and_width 0 32;
  errflg ← lift (Py.item data_ops "errflg");
  store_op ← lift (StoreOp_get err_const errflg []);
  mret [err_const; store_op].

(** The argument loop of [generateSchemeSubroutineCallOps]. *)
Fixpoint call_arguments (args : list CCPPArgument)
    (data_ops : Py.dict Operation)
    (in_ssa : list Operation) (out_types : list Attribute)
    (out_tracking : list Operation)
  : Py.result (list Operation * list Attribute * list Operation) :=
  match args with
  | [] => Ok (in_ssa, out_types, out_tracking)
  | arg :: rest =>
      intent ← getAttr (arg_attrs arg) "intent";
      if bool_decide (intent = "in") || bool_decide (intent = "inout") then
        op ← Py.item data_ops (arg_name arg);
        call_arguments rest data_ops (in_ssa ++ [op]) out_types out_tracking
      else if bool_decide (intent = "out") then
        op ← Py.item data_ops (arg_name arg);
        r ← result_at op 0;
        call_arguments rest data_ops in_ssa
          (out_types ++ [ssa_type (value_of r)]) (out_tracking ++ [op])
      else
        call_arguments rest data_ops in_ssa out_types out_tracking
  end.

(** [for idx, out_var in enumerate(out_tracking)]: the copy-back nodes. *)
Fixpoint copy_back (call_op : Operation) (idx : nat)
    (out_tracking : list Operation) : Py.result (list Operation) :=
  match out_tracking with
  | [] => Ok []
  | out_var :: rest =>
      src ← result_at call_op idx;
      op ← CopyOp_new src out_var;
      ops ← copy_back call_op (S idx) rest;
      Ok (op :: ops)
  end.

Definition generateSchemeSubroutineCallOps (subroutine_name : string)
    (arg_table : CCPPArgumentTable) (data_ops : Py.dict Operation)
  : Gen (list Operation) :=
  '(in_ssa, out_types, out_tracking) ←
     lift (call_arguments (getFunctionArguments arg_table) data_ops [] [] []);
  lift (Py.assert (bool_decide (length out_types = length out_tracking)));;
  call_op ← CallOp_new subroutine_name in_ssa out_types;
  store_ops ← lift (copy_back call_op 0 out_tracking);
  err_const_comp ← ConstantOp_from_int_and_width 0 32;
  errflg ← lift (Py.item data_ops "errflg");
  load_op ← LoadOp_get errflg [];
  cmp ← CmpiOp_new load_op err_const_comp 0;
  conditional_op ← lift (IfOp_new cmp (call_op :: store_ops ++ [YieldOp []]));
  mret [err_const_comp; cmp; load_op; conditional_op].

(** The loop filling [arg_tables] in [generateSubroutineCall]. *)
Fixpoint resolve_tables (self : GenerateSuiteSubroutine)
    (scheme_names : list string) (tgt_subroutine_postfix : string)
    (arg_tables : Py.dict CCPPArgumentTable)
  : Py.result (Py.dict CCPPArgumentTable) :=
  match scheme_names with
  | [] => Ok arg_tables
  | scheme_name :: rest =>
      t ← getArgumentTable self scheme_name
             (scheme_name +:+ tgt_subroutine_postfix);
      resolve_tables self rest tgt_subroutine_postfix
        (Py.set arg_tables scheme_name t)
  end.

(** The loop building [call_ops] and [fn_sigs]. *)
Fixpoint scheme_calls (self : GenerateSuiteSubroutine)
    (scheme_names : list string) (tgt_subroutine_postfix : string)
    (arg_tables : Py.dict CCPPArgumentTable)
    (create_data_ops : Py.dict Operation)
    (call_ops : list Operation) (fn_sigs : Py.dict Operation)
  : Gen (list Operation * Py.dict Operation) :=
  match scheme_names with
  | [] => mret (call_ops, fn_sigs)
  | scheme_name :: rest =>
      let callee := scheme_name +:+ tgt_subroutine_postfix in
      lift (Py.assert (Py.mem (meta_fn_sigs self) callee));;
      arg_table ← lift (Py.item arg_tables scheme_name);
      ops ← generateSchemeSubroutineCallOps callee arg_table create_data_ops;
      fn_sigs ← lift (
        if Py.mem fn_sigs callee then Ok fn_sigs
        else sig ← Py.item (meta_fn_sigs self) callee;
             Ok (Py.set fn_sigs callee sig));
      scheme_calls self rest tgt_subroutine_postfix arg_tables
        create_data_ops (call_ops ++ ops) fn_sigs
  end.

Definition generateSubroutineCall (self : GenerateSuiteSubroutine)
    (suite_description : XMLSuite) (tgt_subroutine_postfix : string)
    (generated_subroutine_posfix : option string)
  : Gen (Operation * list Operation) :=
  let generated_subroutine_posfix :=
    default tgt_subroutine_postfix generated_subroutine_posfix in
  let scheme_names := getSchemeNames suite_description in
  arg_tables ←
    lift (resolve_tables self scheme_names tgt_subroutine_postfix []);
  let input_arg_types : list Attribute := [] in
  create_data_ops ← generateVariableCreation scheme_names arg_tables;
  initialisation_ops ← generateVariableInitialisations create_data_ops;
  '(call_ops, fn_sigs) ←
     scheme_calls self scheme_names tgt_subroutine_postfix arg_tables
       create_data_ops [] [];
  ret ← lift (ReturnOp_new (Py.values create_data_ops));
  let body_ops :=
    Py.values create_data_ops ++ initialisation_ops ++ call_ops ++ [ret] in
  return_types ←
    lift (mapM (λ o, r ← result_at o 0; Ok (ssa_type (value_of r)))
               (Py.values create_data_ops));
  let new_fn_type := FunctionType input_arg_types return_types in
  let new_func :=
    FuncOp (suite_name suite_description +:+ "_suite"
              +:+ generated_subroutine_posfix)
           new_fn_type [body_ops] in
  mret (new_func, Py.values fn_sigs).

End suite_cap.

(** ** [frontend/ccpp_xml.py]: the metadata file reader

    [CCPPItem], [CCPPArgument] and [CCPPArgumentTable] are the classes of
    [ccpp_descriptors] again; the reader's [CCPPTableProperties] has only
    its [attrs] (its [arg_tables] stays empty here). *)
Module ccpp_xml.
Import ccpp_descriptors.

Inductive MetaParseState : Set := PROPERTIES | ARG_TABLE | ARG | NONE.

#[global] Instance MetaParseState_eq_dec : EqDecision MetaParseState.
Proof. solve_decision. Defined.

Record MetaData : Type := mkMetaData {
  is_scheme : bool;    (* [SchemeMetaData] or [HostMetaData] *)
  table_properties : CCPPTableProperties;
  md_arg_tables : list CCPPArgumentTable
}.

(** The local variables of [parse_metadata_file]. *)
Record locals : Type := mkLocals {
  current_table_properties : option CCPPTableProperties;
  current_arg_table : option CCPPArgumentTable;
  parse_state : MetaParseState;
  table_arg_tables : list CCPPArgumentTable;
  current_arg : option CCPPArgument
}.

Definition initial : locals := mkLocals None None NONE [] None.

(** [if current_arg is not None:
       current_arg_table.setFunctionArgument(current_arg)] *)
Definition store_current_arg (l : locals)
  : Py.result (option CCPPArgumentTable) :=
  match current_arg l with
  | Some a =>
      match current_arg_table l with
      | Some t => Ok (Some (setFunctionArgument t a))
      | None => Raise Py.AttributeError
      end
  | None => Ok (current_arg_table l)
  end.

(** [if current_arg_table is not None:
       table_arg_tables.append(current_arg_table)] *)
Definition append_current_table (t : option CCPPArgumentTable)
    (tables : list CCPPArgumentTable) : list CCPPArgumentTable :=
  match t with
  | Some t => tables ++ [t]
  | None => tables
  end.

(** One iteration of [for line in file]. *)
Definition parse_line (l : locals) (line : string) : Py.result locals :=
  let sline := Py.strip line in
  if Py.contains "["%char sline && Py.contains "]"%char sline then
    let token := Py.delete_chars "[]" sline in
    l ← (if bool_decide (token = "ccpp-table-properties")
             || bool_decide (token = "ccpp-arg-table") then
           t ← store_current_arg l;
           Ok (mkLocals (current_table_properties l) None (parse_state l)
                 (append_current_table t (table_arg_tables l)) None)
         else Ok l);
    if bool_decide (token = "ccpp-table-properties") then
      Py.assert (bool_decide (current_table_properties l = None));;
      Ok (mkLocals (Some (mkTableProperties [] [])) (current_arg_table l)
            PROPERTIES (table_arg_tables l) (current_arg l))
    else if bool_decide (token = "ccpp-arg-table") then
      Ok (mkLocals (current_table_properties l)
            (Some (mkArgumentTable [] [])) ARG_TABLE
            (table_arg_tables l) (current_arg l))
    else
      first ← Py.char_at token 0;
      spaced ← (if bool_decide (first = " "%char) then
                  last ← Py.char_at token (-1);
                  Ok (bool_decide (last = " "%char))
                else Ok false);
      if spaced : bool then
        t ← store_current_arg l;
        Ok (mkLocals (current_table_properties l) t ARG
              (table_arg_tables l)
              (Some (mkArgument (Py.strip token) [])))
      else Raise Py.AssertionError
  else
    Py.assert (bool_decide (parse_state l ≠ NONE));;
    Py.assert (Py.contains "="%char sline);;
    let tokens := Py.split "="%char sline in
    key ← Py.strip <$> Py.index tokens 0;
    value ← Py.strip <$> Py.index tokens 1;
    match parse_state l with
    | PROPERTIES =>
        match current_table_properties l with
        | None => Raise Py.AssertionError
        | Some p =>
            p ← setAttr_properties p key value;
            Ok (mkLocals (Some p) (current_arg_table l) (parse_state l)
                  (table_arg_tables l) (current_arg l))
        end
    | ARG_TABLE =>
        match current_arg_table l with
        | None => Raise Py.AssertionError
        | Some t =>
            t ← setAttr_table t key value;
            Ok (mkLocals (current_table_properties l) (Some t)
                  (parse_state l) (table_arg_tables l) (current_arg l))
        end
    | ARG =>
        match current_arg l with
        | None => Raise Py.AssertionError
        | Some a =>
            a ← setAttr_argument a key value;
            Ok (mkLocals (current_table_properties l) (current_arg_table l)
                  (parse_state l) (table_arg_tables l) (Some a))
        end
    | NONE => Ok l
    end.

Fixpoint parse_lines (l : locals) (file : list string) : Py.result locals :=
  match file with
  | [] => Ok l
  | line :: rest => l ← parse_line l line; parse_lines l rest
  end.

(** [parse_metadata_file], on the lines of the file. *)
Definition parse_metadata_file (file : list string) (isScheme : bool)
  : Py.result MetaData :=
  l ← parse_lines initial file;
  t ← store_current_arg l;
  let tables := append_current_table t (table_arg_tables l) in
  match current_table_properties l with
  | None => Raise Py.AssertionError
  | Some p => Ok (mkMetaData isScheme p tables)
  end.

End ccpp_xml.

(** ** [backend/print_ftn.py]: the emitter

    A context owns [_prefix], [variables] and [_counter]; [output] and the
    two operator tables are objects that every context derived from one
    root refers to, so they are kept in the emitter state that is threaded
    through all contexts.  [stdout] receives the diagnostic
    [print(type(op))]. *)
Module print_ftn.
Import ir.

Definition _INDENT : string := "  ".
Definition newline : string := String "010"%char "".
Definition dquote : string := String "034"%char "".

Record ftnPrintContext : Type := mkContext {
  _prefix : string;
  variables : gmap nat string;
  _counter : nat
}.

Record emitter : Type := mkEmitter {
  output : string;
  stdout : list string;
  _binops : Py.dict string;
  _cmp_ops : Py.dict (Py.dict (option string))
}.

Definition Emit (A : Type) : Type := emitter → Py.result A * emitter.

#[global] Instance emit_ret : MRet Emit := λ A a s, (Ok a, s).
#[global] Instance emit_bind : MBind Emit := λ A B k m s,
  match m s with
  | (Ok a, s') => k a s'
  | (Raise e, s') => (Raise e, s')
  end.

Definition lift {A} (r : Py.result A) : Emit A := λ s, (r, s).

Definition read {A} (f : emitter → A) : Emit A := λ s, (Ok (f s), s).

Definition write (text : string) : Emit unit := λ s,
  (Ok tt, mkEmitter (output s +:+ text) (stdout s) (_binops s) (_cmp_ops s)).

Definition write_stdout (text : string) : Emit unit := λ s,
  (Ok tt, mkEmitter (output s) (stdout s ++ [text]) (_binops s) (_cmp_ops s)).

(** [Ctx(output)]: a root context and the objects it creates. *)
Definition root_context : ftnPrintContext := mkContext "" ∅ 0.
Definition new_emitter : emitter := mkEmitter "" [] [] [].

Definition register_binops : Emit unit := λ s,
  (Ok tt,
   mkEmitter (output s) (stdout s)
     (Py.update (_binops s)
        [("arith.addf", "+"); ("arith.addi", "+"); ("arith.mulf", "*");
         ("arith.muli", "*"); ("arith.divf", "/"); ("arith.divsi", "/");
         ("arith.divui", "/"); ("arith.subf", "-"); ("arith.subi", "-");
         ("arith.remsi", "%"); ("arith.remui", "%"); ("arith.shli", "<<");
         ("arith.andi", "&"); ("arith.ori", "|")])
     (Py.update (_cmp_ops s)
        [("arith.cmpi",
          [("eq", Some ".eq."); ("ne", Some ".ne."); ("slt", Some ".lt.");
           ("sle", Some ".le."); ("sgt", Some ".gt."); ("sge", Some ".ge.");
           ("ult", Some ".lt."); ("ule", Some ".le."); ("ugt", Some ".gt.");
           ("uge", Some ".ge.")]);
         ("arith.cmpf",
          [("false", None); ("oeq", Some "=="); ("ogt", Some ">");
           ("oge", Some ">="); ("olt", Some "<"); ("ole", Some "<=");
           ("one", Some "!="); ("ord", None); ("ueq", Some "==");
           ("ugt", Some ">"); ("uge", Some ">="); ("ult", Some "<");
           ("ule", Some "<="); ("une", Some "!="); ("uno", None);
           ("true", None)])])).

(** [arith.CMPI_COMPARISON_OPERATIONS] *)
Definition CMPI_COMPARISON_OPERATIONS : list string :=
  ["eq"; "ne"; "slt"; "sle"; "sgt"; "sge"; "ult"; "ule"; "ugt"; "uge"].

(** [self.print(text, prefix, end, use_prefix)] *)
Definition print (self : ftnPrintContext) (text : string)
    (prefix : string) (end_ : string) (use_prefix : bool) : Emit unit :=
  write (foldl (λ acc l,
                  acc +:+ (if use_prefix then _prefix self +:+ prefix else "")
                      +:+ l +:+ end_)
               "" (Py.split "010"%char text)).

(** [self.print(text)] with the default arguments. *)
Definition print_line (self : ftnPrintContext) (text : string) : Emit unit :=
  print self text "" newline true.

(** The [while] loop of [_get_variable_name_for] together with the
    assignment before it.  The loop leaves at the first counter whose name
    is not taken; [fuel] bounds the number of taken names it can meet
    ([synthesize_first_free] below shows that the bound used by
    [_get_variable_name_for] is never reached). *)
Fixpoint synthesize (fuel : nat) (prefix : string) (taken_names : gset string)
    (counter : nat) : string * nat :=
  let name := prefix +:+ pretty counter in
  match fuel with
  | S fuel' =>
      if decide (name ∈ taken_names)
      then synthesize fuel' prefix taken_names (S counter)
      else (name, S counter)
  | O => (name, S counter)
  end.

Definition _get_variable_name_for (self : ftnPrintContext) (val : SSAValue)
    (hint : option string) : ftnPrintContext * string :=
  match variables self !! ssa_id val with
  | Some name => (self, name)
  | None =>
      let taken_names : gset string := map_img (variables self) in
      let hint := match hint with
                  | None => name_hint val
                  | Some h => Some h
                  end in
      let fresh :=
        let prefix := default "v" (name_hint val) in
        synthesize (S (size taken_names)) prefix taken_names (_counter self) in
      let '(name, counter) :=
        match hint with
        | Some h => if decide (h ∉ taken_names) then (h, _counter self)
                    else fresh
        | None => fresh
        end in
      (mkContext (_prefix self) (<[ssa_id val := name]> (variables self))
                 counter, name)
  end.

(** [self.find_ret_ssa_idx(ret_op, ssa)] on the arguments of [ret_op] *)
Fixpoint find_ret_ssa_idx (arguments : list Operand) (ssa : SSAValue)
    (idx : nat) : option nat :=
  match arguments with
  | [] => None
  | arg :: rest =>
      if decide (ssa_id (value_of arg) = ssa_id ssa) then Some idx
      else find_ret_ssa_idx rest ssa (S idx)
  end.

(** [type(op)] as printed *)
Definition class_of (op : Operation) : string :=
  match op with
  | AllocaOp _ => "xdsl.dialects.memref.AllocaOp"
  | ConstantOp _ _ => "xdsl.dialects.arith.ConstantOp"
  | LoadOp _ _ _ => "xdsl.dialects.memref.LoadOp"
  | CmpiOp _ _ _ _ => "xdsl.dialects.arith.CmpiOp"
  | StoreOp _ _ _ => "xdsl.dialects.memref.StoreOp"
  | CopyOp _ _ => "xdsl.dialects.memref.CopyOp"
  | CallOp _ _ _ => "xdsl.dialects.func.CallOp"
  | IfOp _ _ _ => "xdsl.dialects.scf.IfOp"
  | YieldOp _ => "xdsl.dialects.scf.YieldOp"
  | ReturnOp _ => "xdsl.dialects.func.ReturnOp"
  | FuncOp _ _ _ => "xdsl.dialects.func.FuncOp"
  | ModuleOp _ _ => "xdsl.dialects.builtin.ModuleOp"
  | OtherOp cls _ _ => cls
  end.

Definition assert_False {A} (cls : string) : Emit A :=
  write_stdout ("<class '" +:+ cls +:+ "'>");;
  lift (Raise Py.AssertionError).

Section host.

(** What the host library supplies: the users of a value in the order
    [val.uses] yields them, the text of an attribute, and the marker of a
    dynamic extent. *)
Variable uses : SSAValue → list Operation.
Variable attr_str : Attribute → string.
Variable DYNAMIC_INDEX : Z.

Fixpoint mlir_type_to_ftn_type (type_attr : Attribute)
  : Py.result (option string) :=
  match type_attr with
  | Float32Type => Ok (Some "real(kind=4)")
  | Float64Type => Ok (Some "real(kind=8)")
  | IntegerType width =>
      if decide (width = 1%Z) then Ok (Some "logical")
      else if decide (width = 8%Z) then Ok (Some "character")
      else Py.assert (bool_decide (width = 32%Z));; Ok (Some "integer")
  | MemRefType elem_t shape =>
      if existsb (λ dim, bool_decide (dim = DYNAMIC_INDEX)) shape
      then Raise Py.ValueError
      else
        let shape := Py.join ", " (Py.str_int <$> shape) in
        type ← mlir_type_to_ftn_type elem_t;
        if decide (type = Some "character")
        then Ok (Some ("character(len=" +:+ shape +:+ ")"))
        else Ok (Some (Py.str_opt type +:+ "(" +:+ shape +:+ ")"))
  | _ => Ok None
  end.

(** [attribute_value_to_str]; the host's float and dense attributes are
    not part of [Attribute]. *)
Definition attribute_value_to_str (attr : Attribute) : string :=
  match attr with
  | IntAttr data => Py.str_int data
  | IntegerAttr val (IntegerType 1) =>
      if decide (val = 0%Z) then "false" else "true"
  | IntegerAttr val _ => Py.str_int val
  | StringAttr data => dquote +:+ data +:+ dquote
  | _ => "<!unknown value " +:+ attr_str attr +:+ ">"
  end.

Definition _print_or_promote_to_inline_expr (self : ftnPrintContext)
    (var : SSAValue) (value_expr : string) : Emit unit :=
  print self value_expr "" "" false.

Fixpoint print_expr (op : Operation) (self : ftnPrintContext)
  : Emit ftnPrintContext :=
  match op with
  | ConstantOp v r =>
      _print_or_promote_to_inline_expr self r (attribute_value_to_str v);;
      mret self
  | LoadOp arr idxs res =>
      let '(self, name) := _get_variable_name_for self (value_of arr) None in
      print self name "" "" false;;
      mret self
  | CmpiOp v l r _ =>
      str_pred ← lift (Py.index CMPI_COMPARISON_OPERATIONS v);
      self ← print_owner l self;
      table ← (λ s, (Py.item (_cmp_ops s) "arith.cmpi", s));
      symbol ← lift (Py.item table str_pred);
      print self (" " +:+ Py.str_opt symbol +:+ " ") "" "" false;;
      print_owner r self
  | _ => assert_False (class_of op)
  end
with print_owner (val : Operand) (self : ftnPrintContext)
  : Emit ftnPrintContext :=
  match val with
  | OpResult _ owner => print_expr owner self
  | BlockArgument _ => assert_False "xdsl.ir.core.Block"
  end.

(** [map(self._get_variable_name_for, idxs)] *)
Fixpoint names_for (self : ftnPrintContext) (vals : list Operand)
  : ftnPrintContext * list string :=
  match vals with
  | [] => (self, [])
  | v :: rest =>
      let '(self, name) := _get_variable_name_for self (value_of v) None in
      let '(self, names) := names_for self rest in
      (self, name :: names)
  end.

(** [get_call_result_var_ssa], on the users of the result *)
Fixpoint get_call_result_var_ssa (self : ftnPrintContext)
    (res_uses : list Operation) : ftnPrintContext * option string :=
  match res_uses with
  | [] => (self, None)
  | CopyOp _ destination :: _ =>
      let '(self, name) :=
        _get_variable_name_for self (value_of destination) None in
      (self, Some name)
  | _ :: rest => get_call_result_var_ssa self rest
  end.

(** The two loops of [_print_call]; [idx] is the position in the printed
    argument list. *)
Fixpoint print_call_args (self : ftnPrintContext) (idx : nat)
    (args : list Operand) : Emit ftnPrintContext :=
  match args with
  | [] => mret self
  | arg :: rest =>
      (if decide (0 < idx) then print self ", " "" "" false else mret tt);;
      self ← print_owner arg self;
      print_call_args self (S idx) rest
  end.

Fixpoint print_call_results (self : ftnPrintContext) (idx : nat)
    (results : list SSAValue) : Emit ftnPrintContext :=
  match results with
  | [] => mret self
  | res :: rest =>
      (if decide (0 < idx) then print self ", " "" "" false else mret tt);;
      let '(self, name) := get_call_result_var_ssa self (uses res) in
      match name with
      | Some name => print self name "" "" false
      | None => lift (Raise Py.AttributeError)
      end;;
      print_call_results self (S idx) rest
  end.

Definition _print_call (self : ftnPrintContext) (tgt : string)
    (args : list Operand) (results : list SSAValue) : Emit ftnPrintContext :=
  print self ("call " +:+ tgt +:+ "(") "" "" true;;
  self ← print_call_args self 0 args;
  self ← print_call_results self (length args) results;
  print self ")" "" newline false;;
  mret self.

(** [with self.descend(block_start, block_end) as inner: body(inner)]:
    the inner context is built from copies of the outer fields and is
    dropped when the block ends. *)
Definition inner_context (self : ftnPrintContext) : ftnPrintContext :=
  mkContext (_prefix self +:+ _INDENT) (variables self) (_counter self).

Definition descend {A} (self : ftnPrintContext)
    (block_start block_end : option string)
    (body : ftnPrintContext → Emit A) : Emit A :=
  match block_start with
  | Some s => print_line self (s +:+ " ")
  | None => mret tt
  end;;
  r ← body (inner_context self);
  match block_end with
  | Some s => print_line self (s +:+ " ")
  | None => mret tt
  end;;
  mret r.

(** The declaration lines of [_print_fn]. *)
Fixpoint print_intents (inner : ftnPrintContext) (intent : string)
    (idx : nat) (types : list Attribute) : Emit unit :=
  match types with
  | [] => mret tt
  | ty :: rest =>
      t ← lift (mlir_type_to_ftn_type ty);
      print_line inner (Py.str_opt t +:+ ", intent(" +:+ intent +:+ ") :: arg_"
                          +:+ pretty idx);;
      print_intents inner intent (S idx) rest
  end.

Fixpoint print_op (op : Operation) (self : ftnPrintContext)
  : Emit ftnPrintContext :=
  let print_block :=
    fix print_block (body : list Operation) (self : ftnPrintContext)
      : Emit ftnPrintContext :=
      match body with
      | [] => mret self
      | op :: rest => self ← print_op op self; print_block rest self
      end in
  match op with
  | AllocaOp arr =>
      match uses arr with
      | [] => lift (Raise Py.IndexError)
      | ReturnOp arguments :: _ =>
          match find_ret_ssa_idx arguments arr 0 with
          | None => lift (Raise Py.AssertionError)
          | Some arg_idx =>
              mret (mkContext (_prefix self)
                      (<[ssa_id arr := "arg_" +:+ pretty arg_idx]>
                         (variables self))
                      (_counter self))
          end
      | _ :: _ => mret self
      end
  | FuncOp name ftyp bdy =>
      if is_declaration bdy then mret self
      else
        (* [_print_fn] *)
        match ftyp with
        | FunctionType inputs outputs =>
            let start_signature :=
              newline +:+ "subroutine " +:+ name +:+ "("
                +:+ Py.join ", "
                      (imap (λ idx _, "arg_" +:+ pretty idx)
                            (inputs ++ outputs))
                +:+ ")" in
            let end_signature := "end subroutine " +:+ name in
            descend self (Some start_signature) (Some end_signature)
              (λ inner,
                 print_intents inner "in" 0 inputs;;
                 print_intents inner "out" (length inputs) outputs;;
                 print_line inner "";;
                 match bdy with
                 | [b] => print_block b inner
                 | _ => lift (Raise Py.ValueError)
                 end);;
            mret self
        | _ => lift (Raise Py.AttributeError)
        end
  | CallOp tgt args results => _print_call self tgt args results
  | IfOp conditional true_bdy false_bdy =>
      (* [_print_if] *)
      print self "if (" "" "" true;;
      self ← print_owner conditional self;
      print self ") then" "" newline false;;
      descend self None None
        (λ inner,
           match true_bdy with
           | [b] => print_block b inner
           | _ => lift (Raise Py.ValueError)
           end);;
      (if decide (0 < length false_bdy) then
         print_line self "else";;
         descend self None None
           (λ inner,
              match false_bdy with
              | [b] => print_block b inner
              | _ => lift (Raise Py.ValueError)
              end);;
         mret tt
       else mret tt);;
      print_line self "end if";;
      mret self
  | StoreOp val arr idxs =>
      let '(self, arr_name) :=
        _get_variable_name_for self (value_of arr) None in
      let '(self, idx_names) := names_for self idxs in
      let idx_args := Py.join ", " idx_names in
      (if decide (0 < String.length idx_args)
       then print self (arr_name +:+ "[" +:+ idx_args +:+ "] = ") "" "" true
       else print self (arr_name +:+ " = ") "" "" true);;
      self ← print_owner val self;
      print_line self "";;
      mret self
  | _ => mret self
  end.

(** [print_block]: every operation of the block, in order. *)
Fixpoint print_block (body : list Operation) (self : ftnPrintContext)
  : Emit ftnPrintContext :=
  match body with
  | [] => mret self
  | op :: rest => self ← print_op op self; print_block rest self
  end.

(** [print_to_ftn], on the operations of the top-level module. *)
Fixpoint print_modules (ctx : ftnPrintContext) (divider : bool)
    (ops : list Operation) : Emit ftnPrintContext :=
  match ops with
  | [] => mret ctx
  | ModuleOp sym_name body :: rest =>
      (if divider then print_line ctx "// -----" else mret tt);;
      match sym_name with
      | Some name => print_line ctx ("// FILE: " +:+ name)
      | None => lift (Raise Py.AttributeError)
      end;;
      ctx ← print_block body ctx;
      print_modules ctx true rest
  | _ :: rest => print_modules ctx divider rest
  end.

Definition print_to_ftn (prog : list Operation) : Py.result unit * emitter :=
  (register_binops;;
   print_modules root_context false prog;;
   mret tt) new_emitter.

End host.

End print_ftn.

(** ** Running an emitted body

    The emitter renders a store, a call and a conditional as statements and
    reads their operands through the operations that own them
    ([print_expr]); running a body follows that reading.  A slot holds an
    integer; what a called scheme does is left open: it may change every
    slot and returns the values of its results. *)
Module execution.
Import ir.

Record machine : Type := mkMachine {
  memory : gmap nat Z;
  returned : gmap nat Z;
  trace : list string
}.

Definition read_slot (m : machine) (v : SSAValue) : Z :=
  default 0%Z (memory m !! ssa_id v).

(** [arith.cmpi] on the signed predicates [eq ne slt sle sgt sge]. *)
Definition cmpi (predicate : Z) (a b : Z) : option bool :=
  if decide (predicate = 0%Z) then Some (bool_decide (a = b))
  else if decide (predicate = 1%Z) then Some (bool_decide (a ≠ b))
  else if decide (predicate = 2%Z) then Some (bool_decide (a < b)%Z)
  else if decide (predicate = 3%Z) then Some (bool_decide (a ≤ b)%Z)
  else if decide (predicate = 4%Z) then Some (bool_decide (b < a)%Z)
  else if decide (predicate = 5%Z) then Some (bool_decide (b ≤ a)%Z)
  else None.

Fixpoint eval (op : Operation) (m : machine) : option Z :=
  match op with
  | ConstantOp (IntegerAttr z _) _ => Some z
  | LoadOp mem [] _ => Some (read_slot m (value_of mem))
  | CmpiOp predicate l r _ =>
      a ← eval_operand l m;
      b ← eval_operand r m;
      c ← cmpi predicate a b;
      Some (if c : bool then 1 else 0)%Z
  | _ => None
  end
with eval_operand (val : Operand) (m : machine) : option Z :=
  match val with
  | OpResult _ owner => eval owner m
  | BlockArgument _ => None
  end.

Section run.

(** [scheme callee memory arguments]: the slots after the call and the
    values it returns ([arguments] are the identities of the slots passed). *)
Variable scheme : string → gmap nat Z → list nat → gmap nat Z * list Z.

Definition bind_results (res : list SSAValue) (outs : list Z)
    (returned : gmap nat Z) : gmap nat Z :=
  foldr (λ rv acc, <[ssa_id rv.1 := rv.2]> acc) returned (zip res outs).

Fixpoint exec (op : Operation) (m : machine) : option machine :=
  let exec_block :=
    fix exec_block (body : list Operation) (m : machine) : option machine :=
      match body with
      | [] => Some m
      | op :: rest => m ← exec op m; exec_block rest m
      end in
  match op with
  | StoreOp val mem [] =>
      z ← eval_operand val m;
      Some (mkMachine (<[ssa_id (value_of mem) := z]> (memory m))
              (returned m) (trace m))
  | CallOp callee args res =>
      let '(memory', outs) :=
        scheme callee (memory m) ((λ a, ssa_id (value_of a)) <$> args) in
      Some (mkMachine memory' (bind_results res outs (returned m))
              (trace m ++ [callee]))
  | CopyOp source destination =>
      z ← returned m !! ssa_id (value_of source);
      Some (mkMachine (<[ssa_id (value_of destination) := z]> (memory m))
              (returned m) (trace m))
  | IfOp cond [true_block] [] =>
      c ← eval_operand cond m;
      if decide (c = 0%Z) then Some m else exec_block true_block m
  | AllocaOp _ | ConstantOp _ _ | LoadOp _ _ _ | CmpiOp _ _ _ _
  | YieldOp _ | ReturnOp _ => Some m
  | _ => None
  end.

Fixpoint exec_block (body : list Operation) (m : machine) : option machine :=
  match body with
  | [] => Some m
  | op :: rest => m ← exec op m; exec_block rest m
  end.

End run.

End execution.

(** * Vocabulary of the statements *)

(** ** Naming contexts *)
Module naming.
Import ir print_ftn.

(** The [k]-th synthesized candidate for a prefix. *)
Definition candidate (prefix : string) (k : nat) : string :=
  prefix +:+ pretty k.

(** No two values of the context share a name. *)
Definition names_distinct (self : ftnPrintContext) : Prop :=
  ∀ i j n, variables self !! i = Some n → variables self !! j = Some n → i = j.

(** The hint a request works with: the one passed, else the node's own. *)
Definition wanted_hint (val : SSAValue) (hint : option string)
  : option string :=
  match hint with
  | None => name_hint val
  | Some h => Some h
  end.

(** One scope chain: requests for names, and descents into nested regions. *)
Inductive naming_step : Type :=
| NameFor (val : SSAValue) (hint : option string)
| Descend.

(** The context a chain ends in and the names it handed out on the way,
    each with the identity of the value it was handed out for. *)
Fixpoint run_chain (self : ftnPrintContext) (steps : list naming_step)
  : ftnPrintContext * list (nat * string) :=
  match steps with
  | [] => (self, [])
  | NameFor val hint :: rest =>
      let '(self, name) := _get_variable_name_for self val hint in
      let '(final, produced) := run_chain self rest in
      (final, (ssa_id val, name) :: produced)
  | Descend :: rest => run_chain (inner_context self) rest
  end.

(** The name chosen for a value that has none yet, and the counter after. *)
Definition chosen (self : ftnPrintContext) (val : SSAValue)
    (hint : option string) : string * nat :=
  let taken : gset string := map_img (variables self) in
  let fresh := synthesize (S (size taken)) (default "v" (name_hint val))
                 taken (_counter self) in
  match wanted_hint val hint with
  | Some h => if decide (h ∉ taken) then (h, _counter self) else fresh
  | None => fresh
  end.

End naming.

(** ** Emitted text *)
Module emitting.
Import ir print_ftn.

(** The operations [print_expr] renders. *)
Definition is_expression (op : Operation) : bool :=
  match op with
  | ConstantOp _ _ | LoadOp _ _ _ | CmpiOp _ _ _ _ => true
  | _ => false
  end.

Definition owner_is_expression (val : Operand) : bool :=
  match val with
  | OpResult _ owner => is_expression owner
  | BlockArgument _ => false
  end.

(** The emitter state after [text] went to the output, or [line] to the
    diagnostic stream. *)
Definition emitted (em : emitter) (text : string) : emitter :=
  mkEmitter (output em +:+ text) (stdout em) (_binops em) (_cmp_ops em).

Definition reported (em : emitter) (line : string) : emitter :=
  mkEmitter (output em) (stdout em ++ [line]) (_binops em) (_cmp_ops em).

(** What the host supplies in the examples: no value has a user, an
    attribute has no text, [-1] marks a dynamic extent. *)
Definition no_uses : SSAValue → list Operation := λ _, [].
Definition no_text : Attribute → string := λ _, "".

(** A constant zero, an unnamed buffer, a store of the one into the other,
    and a conditional (on a constant) around that store. *)
Definition ex_zero_value : SSAValue := mkSSA 10 i32 None.
Definition ex_zero : Operation := ConstantOp (IntegerAttr 0 i32) ex_zero_value.
Definition ex_buffer : SSAValue := mkSSA 11 (MemRefType i32 []) None.
Definition ex_store : Operation :=
  StoreOp (OpResult ex_zero_value ex_zero) (BlockArgument ex_buffer) [].
Definition ex_true_value : SSAValue := mkSSA 12 i1 None.
Definition ex_conditional : Operation :=
  IfOp (OpResult ex_true_value (ConstantOp (IntegerAttr 1 i1) ex_true_value))
       [[ex_store]] [].

(** The body of a function that allocates a buffer with the name hint
    [arg_0], stores zero into it, then allocates the buffer it returns;
    and the users the host reports for the two buffers. *)
Definition ex_hinted : SSAValue := mkSSA 1 (MemRefType i32 []) (Some "arg_0").
Definition ex_returned : SSAValue := mkSSA 2 (MemRefType i32 []) None.
Definition ex_hinted_store : Operation :=
  StoreOp (OpResult ex_zero_value ex_zero)
          (OpResult ex_hinted (AllocaOp ex_hinted)) [].
Definition ex_return : Operation :=
  ReturnOp [OpResult ex_returned (AllocaOp ex_returned)].
Definition ex_body : list Operation :=
  [AllocaOp ex_hinted; ex_zero; ex_hinted_store; AllocaOp ex_returned;
   ex_return].
Definition ex_uses (v : SSAValue) : list Operation :=
  if decide (ssa_id v = 1) then [ex_hinted_store]
  else if decide (ssa_id v = 2) then [ex_return]
  else [].

End emitting.

(** ** Generated bodies *)
Module generated.
Import ir ccpp_descriptors suite_cap.

Definition is_alloca (op : Operation) : Prop := ∃ v, op = AllocaOp v.

(** The operand that refers to the slot allocated as [v]. *)
Definition slot (v : SSAValue) : Operand := OpResult v (AllocaOp v).

Definition zero_i32 (v : SSAValue) : Operation :=
  ConstantOp (IntegerAttr 0 (IntegerType 32)) v.

(** A copy-back node of [call]: one of its results copied into a slot. *)
Definition is_copy_back (slots : list Operation) (call copy : Operation)
  : Prop :=
  ∃ r dst, r ∈ results call ∧ AllocaOp dst ∈ slots ∧
           copy = CopyOp (OpResult r call) (slot dst).

(** The four operations emitted for one scheme: the zero constant, the
    comparison [load == zero] (predicate 0), the load of the [errflg] slot,
    and the conditional on that comparison whose only region holds the call,
    its copy-back nodes and the terminator. *)
Definition guarded_call (slots : list Operation) (errflg : SSAValue)
    (callee : string) (ops : list Operation) : Prop :=
  ∃ zero_v load_v cmp_v args res copies,
    let zero := zero_i32 zero_v in
    let load := LoadOp (slot errflg) [] load_v in
    let cmp := CmpiOp 0 (OpResult load_v load) (OpResult zero_v zero) cmp_v in
    let call := CallOp callee (slot <$> args) res in
    Forall (λ a, AllocaOp a ∈ slots) args ∧
    Forall (is_copy_back slots call) copies ∧
    ops = [zero; cmp; load;
           IfOp (OpResult cmp_v cmp) [call :: copies ++ [YieldOp []]] []].

(** Agreement of an argument with the one registered first under its
    name: it is that one, or both carry the same declared type. *)
Definition agrees (a first : CCPPArgument) : Prop :=
  first = a ∨
  ∃ ty, getAttr (arg_attrs a) "type" = Ok ty ∧
        getAttr (arg_attrs first) "type" = Ok ty.

(** The layout of a generated subroutine [fn] (run from allocator state
    [n]): slots, initialization of the [errflg] slot, one guarded block per
    scheme, return. *)
Definition body_layout (suite : XMLSuite) (post : string)
    (gpost : option string) (n : nat) (fn : Operation) : Prop :=
  ∃ tables data_ops n1 slots errflg zero_v blocks,
    generateVariableCreation (getSchemeNames suite) tables n
    = Ok (data_ops, n1) ∧
    Py.values data_ops = AllocaOp <$> slots ∧
    Py.get data_ops "errflg" = Some (AllocaOp errflg) ∧
    fn = FuncOp (suite_name suite +:+ "_suite" +:+ default post gpost)
           (FunctionType [] (ssa_type <$> slots))
           [(AllocaOp <$> slots)
            ++ [zero_i32 zero_v;
                StoreOp (OpResult zero_v (zero_i32 zero_v)) (slot errflg) []]
            ++ concat blocks
            ++ [ReturnOp (slot <$> slots)]] ∧
    Forall2 (λ s b, guarded_call (AllocaOp <$> slots) errflg (s +:+ post) b)
            (getSchemeNames suite) blocks.

(** *** The block of a scheme, operation by operation *)

(** The arguments whose slots a call takes as operands, and those whose
    slots receive its results: the intent is [in] or [inout], and [out]. *)
Definition is_operand (a : CCPPArgument) : bool :=
  bool_decide (Py.get (arg_attrs a) "intent" ∈ [Some "in"; Some "inout"]).
Definition is_result (a : CCPPArgument) : bool :=
  bool_decide (Py.get (arg_attrs a) "intent" = Some "out").

(** The slots allocated for the arguments [args], in their order. *)
Definition slots_of (data_ops : Py.dict Operation)
    (args : list CCPPArgument) (vs : list SSAValue) : Prop :=
  Forall2 (λ a v, Py.get data_ops (arg_name a) = Some (AllocaOp v)) args vs.

(** The copy-back nodes of [call]: its [i]-th result copied into the
    [i]-th of the slots [outs]. *)
Definition copy_backs (call : Operation) (res outs : list SSAValue)
  : list Operation :=
  zip_with (λ r dst, CopyOp (OpResult r call) (slot dst)) res outs.

(** The four operations emitted for the scheme with argument table [t]:
    the zero constant, the comparison [load == zero] (predicate 0), the
    load of the [errflg] slot, and the conditional on that comparison.  The
    only region of the conditional holds the call, whose operands are the
    slots [ins] of the operand arguments of [t] and whose results [res]
    are new values, one of the slot's type for each slot [outs] of the
    result arguments of [t]; then one copy-back node for each result, in
    order; then the terminator. *)
Definition call_block (data_ops : Py.dict Operation) (errflg : SSAValue)
    (callee : string) (t : CCPPArgumentTable)
    (ins outs res : list SSAValue) (ops : list Operation) : Prop :=
  ∃ zero_v load_v cmp_v,
    let zero := zero_i32 zero_v in
    let load := LoadOp (slot errflg) [] load_v in
    let cmp := CmpiOp 0 (OpResult load_v load) (OpResult zero_v zero) cmp_v in
    let call := CallOp callee (slot <$> ins) res in
    slots_of data_ops (List.filter is_operand (getFunctionArguments t)) ins ∧
    slots_of data_ops (List.filter is_result (getFunctionArguments t)) outs ∧
    ssa_type <$> res = ssa_type <$> outs ∧
    NoDup (ssa_id <$> res) ∧
    ops = [zero; cmp; load;
           IfOp (OpResult cmp_v cmp)
                [call :: copy_backs call res outs ++ [YieldOp []]] []].

(** [fn] is the subroutine generated from allocator state [n] with the
    slots [data_ops], the error flag slot [errflg] and the blocks
    [blocks]: its only block holds the allocations, the constant zero and
    its store into the [errflg] slot, the blocks, and the return of every
    slot. *)
Definition phase_parts (self : GenerateSuiteSubroutine) (suite : XMLSuite)
    (post : string) (gpost : option string) (n : nat) (fn : Operation)
    (data_ops : Py.dict Operation) (errflg : SSAValue)
    (blocks : list (list Operation)) : Prop :=
  ∃ tables n1 slots zero_v,
    resolve_tables self (getSchemeNames suite) post [] = Ok tables ∧
    generateVariableCreation (getSchemeNames suite) tables n
    = Ok (data_ops, n1) ∧
    Py.values data_ops = AllocaOp <$> slots ∧
    Py.get data_ops "errflg" = Some (AllocaOp errflg) ∧
    fn = FuncOp (suite_name suite +:+ "_suite" +:+ default post gpost)
           (FunctionType [] (ssa_type <$> slots))
           [(AllocaOp <$> slots)
            ++ [zero_i32 zero_v;
                StoreOp (OpResult zero_v (zero_i32 zero_v)) (slot errflg) []]
            ++ concat blocks
            ++ [ReturnOp (slot <$> slots)]].

(** The layout of a generated subroutine: one block of [call_block] for
    each scheme, in the order of the suite, for the argument table the
    scheme has for the phase. *)
Definition phase_layout (self : GenerateSuiteSubroutine) (suite : XMLSuite)
    (post : string) (gpost : option string) (n : nat) (fn : Operation)
  : Prop :=
  ∃ data_ops errflg blocks,
    phase_parts self suite post gpost n fn data_ops errflg blocks ∧
    Forall2 (λ s b, ∃ t ins outs res,
               getArgumentTable self s (s +:+ post) = Ok t ∧
               call_block data_ops errflg (s +:+ post) t ins outs res b)
            (getSchemeNames suite) blocks.

(** *** The run of a block *)




(** *** Two runs *)

(** [φ] maps the identities a run draws from allocator state [n] onwards to
    those another run draws from state [m] onwards. *)
Definition shifts (φ : nat → nat) (n m : nat) : Prop := ∀ k, φ (n + k) = m + k.

Definition rename_dict (φ : nat → nat) (d : Py.dict Operation)
  : Py.dict Operation :=
  (λ kv, (kv.1, rename φ kv.2)) <$> d.

(** The second run does what the first does, on related values: it raises
    the same exception, or returns a related value after allocating as many
    identities. *)
Definition same_run {A} (R : A → A → Prop) (n m : nat)
    (r1 r2 : Py.result (A * nat)) : Prop :=
  match r1 with
  | Ok (a1, n1) => ∃ a2 d, r2 = Ok (a2, m + d) ∧ n1 = n + d ∧ R a1 a2
  | Raise e => r2 = Raise e
  end.

Definition same_result {A} (R : A → A → Prop) (r1 r2 : Py.result A) : Prop :=
  match r1 with
  | Ok a1 => ∃ a2, r2 = Ok a2 ∧ R a1 a2
  | Raise e => r2 = Raise e
  end.

Definition renamed (φ : nat → nat) : Operation → Operation → Prop :=
  λ a b, b = rename φ a.
Definition renamed_list (φ : nat → nat)
  : list Operation → list Operation → Prop :=
  λ a b, b = rename φ <$> a.
Definition renamed_dict (φ : nat → nat)
  : Py.dict Operation → Py.dict Operation → Prop :=
  λ a b, b = rename_dict φ a.
Definition renamed_calls (φ : nat → nat)
  : list Operation * Py.dict Operation →
    list Operation * Py.dict Operation → Prop :=
  λ a b, b = (rename φ <$> a.1, a.2).
Definition renamed_output (φ : nat → nat)
  : Operation * list Operation → Operation * list Operation → Prop :=
  λ a b, b = (rename φ a.1, a.2).

(** *** What the claim about intents expects of a call (from the spec's
    words): operands are the [in] and [inout] arguments, results the [out]
    and [inout] ones, an argument without intent counting as [inout]. *)
Definition spec_intent (a : CCPPArgument) : string :=
  default "inout" (Py.get (arg_attrs a) "intent").

Definition spec_call_operands (t : CCPPArgumentTable) : list string :=
  arg_name <$>
    List.filter (λ a, bool_decide (spec_intent a ∈ ["in"; "inout"]))
                (getFunctionArguments t).

Definition spec_call_results (t : CCPPArgumentTable) : list string :=
  arg_name <$>
    List.filter (λ a, bool_decide (spec_intent a ∈ ["out"; "inout"]))
                (getFunctionArguments t).

(** The call of a scheme's block, and its signature as emitted: the
    identities of the operand slots and the types of the results. *)
Definition call_of_block (ops : list Operation) : option Operation :=
  match ops with
  | [_; _; _; IfOp _ [call :: _] _] => Some call
  | _ => None
  end.

Definition call_signature (call : Operation) : list nat * list Attribute :=
  match call with
  | CallOp _ args res =>
      ((λ a, ssa_id (value_of a)) <$> args, ssa_type <$> res)
  | _ => ([], [])
  end.

(** *** Example inputs *)
Definition argument (name ty intent : string) : CCPPArgument :=
  mkArgument name [("type", ty); ("intent", intent)].

Definition table (name : string) (args : list CCPPArgument)
  : CCPPArgumentTable :=
  mkArgumentTable [("name", name); ("type", "scheme")]
    ((λ a, (arg_name a, a)) <$> args).

Definition properties (name : string) (tables : list CCPPArgumentTable)
  : string * CCPPTableProperties :=
  (name,
   mkTableProperties [("name", name); ("type", "scheme")]
     ((λ t, (default "" (Py.get (table_attrs t) "name"), t)) <$> tables)).

Definition memref (ty : Attribute) : Attribute := MemRefType ty [].

(** The suite of the end-to-end scenario: one group with schemes [A] and
    [B]; [A_init(x in, errflg out)], [B_init(x in, errflg out, y out)]. *)
Definition A_init : CCPPArgumentTable :=
  table "A_init" [argument "x" "real" "in"; argument "errflg" "integer" "out"].
Definition B_init : CCPPArgumentTable :=
  table "B_init" [argument "x" "real" "in"; argument "errflg" "integer" "out";
                  argument "y" "real" "out"].
Definition suite_S : XMLSuite :=
  mkSuite "S" "1.0" [mkGroup "g" [mkScheme "A"; mkScheme "B"]].
Definition pass_S : GenerateSuiteSubroutine :=
  mkGenerate [("S", suite_S)]
    [properties "A" [A_init]; properties "B" [B_init]]
    [("A_init", FuncOp_external "A_init" [memref f64] [memref i32]);
     ("B_init", FuncOp_external "B_init" [memref f64]
                  [memref i32; memref f64])].

(** Two schemes that declare [msg] as a character buffer of different
    lengths, and two that declare [x] with different types. *)
Definition buffer (name kind : string) : CCPPArgument :=
  mkArgument name [("type", "character"); ("kind", kind); ("intent", "out")].
Definition P_init : CCPPArgumentTable :=
  table "P_init" [buffer "msg" "len=10"; argument "errflg" "integer" "out"].
Definition Q_init : CCPPArgumentTable :=
  table "Q_init" [buffer "msg" "len=20"; argument "errflg" "integer" "out"].
Definition R_init : CCPPArgumentTable :=
  table "R_init" [argument "x" "real" "in"; argument "errflg" "integer" "out"].
Definition T_init : CCPPArgumentTable :=
  table "T_init" [argument "x" "integer" "in";
                  argument "errflg" "integer" "out"].
Definition suite_of (a b : string) : XMLSuite :=
  mkSuite "K" "1.0" [mkGroup "g" [mkScheme a; mkScheme b]].
Definition pass_K : GenerateSuiteSubroutine :=
  mkGenerate []
    [properties "P" [P_init]; properties "Q" [Q_init];
     properties "R" [R_init]; properties "T" [T_init]]
    [("P_init", FuncOp_external "P_init" [] [MemRefType i8 [10%Z]; memref i32]);
     ("Q_init", FuncOp_external "Q_init" [] [MemRefType i8 [20%Z]; memref i32]);
     ("R_init", FuncOp_external "R_init" [memref f64] [memref i32]);
     ("T_init", FuncOp_external "T_init" [memref i32] [memref i32])].

(** A scheme whose [x] is [inout], and one whose [x] has no intent. *)
Definition U_init : CCPPArgumentTable :=
  table "U_init" [argument "x" "real" "inout";
                  argument "errflg" "integer" "out"].
Definition V_init : CCPPArgumentTable :=
  table "V_init" [mkArgument "x" [("type", "real")];
                  argument "errflg" "integer" "out"].
Definition slots_x_errflg : Py.dict Operation :=
  [("x", AllocaOp (mkSSA 0 (memref f64) None));
   ("errflg", AllocaOp (mkSSA 1 (memref i32) None))].

End generated.

(** ** Metadata units *)
Module metadata.
Import ccpp_descriptors ccpp_xml.

(** What the builder makes of one argument and of one table operation. *)
Definition argument_of (arg_op : ArgumentOp) : CCPPArgument :=
  mkArgument (op_arg_name arg_op)
    (foldl (λ attrs kp, match op_property arg_op kp with
                        | Some data => Py.set attrs kp data
                        | None => attrs
                        end) []
       ["standard_name"; "long_name"; "kind"; "intent"; "units"; "type"]).

Definition table_of (t : ArgumentTableOp) : CCPPArgumentTable :=
  mkArgumentTable [("name", op_table_name t); ("type", op_table_type t)]
    (foldl (λ d a, Py.set d (op_arg_name a) (argument_of a)) []
           (op_table_body t)).

Definition no_optional (t : ArgumentTableOp) : Prop :=
  Forall (λ a, op_optional a = false) (op_table_body t).

(** The same locals with [extra] tables collected beforehand. *)
Definition with_earlier (extra : list CCPPArgumentTable) (l : locals)
  : locals :=
  mkLocals (current_table_properties l) (current_arg_table l) (parse_state l)
    (extra ++ table_arg_tables l) (current_arg l).

(** A metadata file and a table-properties operation that declare the
    argument table [hello_init] twice. *)
Definition twice_file : list string :=
  ["[ccpp-table-properties]";
   "  name = hello";
   "  type = scheme";
   "[ccpp-arg-table]";
   "  name = hello_init";
   "  type = scheme";
   "[ errflg ]";
   "  type = integer";
   "  intent = out";
   "[ccpp-arg-table]";
   "  name = hello_init";
   "  type = scheme";
   "[ errmsg ]";
   "  type = character";
   "  intent = out"].

Definition errflg_op : ArgumentOp :=
  mkArgumentOp "errflg" "integer" None None None (Some "out") None false.
Definition errmsg_op : ArgumentOp :=
  mkArgumentOp "errmsg" "character" None None None (Some "out") None false.
Definition twice_op : TablePropertiesOp :=
  mkTablePropertiesOp "hello" "scheme"
    [mkArgumentTableOp "hello_init" "scheme" [errflg_op];
     mkArgumentTableOp "hello_init" "scheme" [errmsg_op]].

End metadata.

(** ** Slots of a generated subroutine *)
Module allocation.
Import ir ccpp_descriptors suite_cap.

(** The first declaration of every argument name, in order of appearance,
    on top of the declarations [req] already registered. *)
Definition first_declared (req : Py.dict CCPPArgument)
    (args : list CCPPArgument) : Py.dict CCPPArgument :=
  foldl (λ d a, if Py.mem d (arg_name a) then d else Py.set d (arg_name a) a)
        req args.

(** The slots of a subroutine: the values of the allocation nodes of its
    body. *)
Definition alloca_value (op : Operation) : option SSAValue :=
  match op with AllocaOp v => Some v | _ => None end.

Definition allocated (fn : Operation) : list SSAValue :=
  match fn with
  | FuncOp _ _ [body] => omap alloca_value body
  | _ => []
  end.

(** The elements of a list in order of first appearance. *)
Definition first_seen (l : list string) : list string :=
  foldl (λ seen x, if bool_decide (x ∈ seen) then seen else seen ++ [x]) [] l.

(** The slot type that goes with a declaration: the element type of its
    declared type, with one extent read from the kind for a [character]
    and no extent otherwise. *)
Definition declared_slot (a : CCPPArgument) (ty : Attribute) : Prop :=
  ∃ text base,
    getAttr (arg_attrs a) "type" = Ok text ∧
    typing.getBaseType text = Ok base ∧
    if decide (text = "character") then
      ∃ kind n,
        getAttr (arg_attrs a) "kind" = Ok kind ∧
        Py.index (Py.split "=" kind) 1 ≫= Py.int = Ok n ∧
        ty = MemRefType base [n]
    else ty = MemRefType base [].

(** A suite that lists the scheme [A] twice. *)
Definition suite_AA : XMLSuite :=
  mkSuite "S" "1.0" [mkGroup "g" [mkScheme "A"]; mkGroup "h" [mkScheme "A"]].

End allocation.

(** ** Printing a generated subroutine *)
Module printing.
Import ir ccpp_descriptors suite_cap print_ftn.



End printing.

(** ** Returned slots *)
Module returning.
Import ir.

(** The operands of the return that ends the body of a subroutine. *)
Definition returned (fn : Operation) : list Operand :=
  match fn with
  | FuncOp _ _ [body] =>
      match last body with
      | Some (ReturnOp arguments) => arguments
      | _ => []
      end
  | _ => []
  end.

End returning.

(** ** What the emitter leaves in place *)
Module framing.
Import ir print_ftn.

(** The emitter state [em'] continues [em]: the output and the diagnostic
    stream of [em] with something after them, and the same operator
    tables. *)
Definition extends (em em' : emitter) : Prop :=
  (∃ text, output em' = output em +:+ text) ∧
  (∃ lines, stdout em' = stdout em ++ lines) ∧
  _binops em' = _binops em ∧
  _cmp_ops em' = _cmp_ops em.

(** A computation that continues the state it starts from and whose
    results satisfy [Q]. *)
Definition sound {A} (Q : A → Prop) (m : Emit A) : Prop :=
  ∀ em, extends em (m em).2 ∧ ∀ a, (m em).1 = Ok a → Q a.

Definition same_prefix (self self' : ftnPrintContext) : Prop :=
  _prefix self' = _prefix self.

End framing.

(** ** Operators, modules and slot types *)
Module operators.
Import ir print_ftn.

(** The Fortran operator of an integer comparison predicate. *)
Definition fortran_operator (predicate : Z) : string :=
  default "" ([".eq."; ".ne."; ".lt."; ".le."; ".gt."; ".ge.";
               ".lt."; ".le."; ".gt."; ".ge."] !! Z.to_nat predicate).

(** The emitter holds the table of integer comparisons that
    [register_binops] installs. *)
Definition registered (em : emitter) : Prop :=
  Py.get (_cmp_ops em) "arith.cmpi"
  = Py.get (_cmp_ops (register_binops new_emitter).2) "arith.cmpi".

Definition is_module (op : Operation) : bool :=
  match op with ModuleOp _ _ => true | _ => false end.

(** The operations for which [print_op] has no case, and the external
    declarations: they leave no text. *)
Definition is_silent (op : Operation) : bool :=
  match op with
  | FuncOp _ _ body => is_declaration body
  | AllocaOp _ | CallOp _ _ _ | IfOp _ _ _ | StoreOp _ _ _ => false
  | _ => true
  end.

(** The Fortran type printed for a slot of declared type [text] and
    extents [shape]. *)
Definition fortran_slot_type (text : string) (shape : list Z) : string :=
  (if decide (text = "character") then "character(len="
   else if decide (text = "integer") then "integer("
   else "real(kind=8)(")
  +:+ Py.join ", " (Py.str_int <$> shape) +:+ ")".

(** The load of a buffer, the constant 7, and the signed comparison
    [load < 7] (predicate 2). *)
Definition ex_load_value : SSAValue := mkSSA 13 i32 None.
Definition ex_load : Operation :=
  LoadOp (BlockArgument emitting.ex_buffer) [] ex_load_value.
Definition ex_seven_value : SSAValue := mkSSA 14 i32 None.
Definition ex_seven : Operation :=
  ConstantOp (IntegerAttr 7 i32) ex_seven_value.
Definition ex_less : Operation :=
  CmpiOp 2 (OpResult ex_load_value ex_load)
           (OpResult ex_seven_value ex_seven) (mkSSA 15 i1 None).

End operators.

(** ** Lines of a metadata file *)
Module reading.
Import ccpp_descriptors ccpp_xml.

(** The locals in the middle of an argument block. *)
Definition in_argument (a : CCPPArgument) : locals :=
  mkLocals (Some (mkTableProperties [] [])) (Some (mkArgumentTable [] []))
    ARG [] (Some a).

(** A line of ASCII characters only; on such a line [Py.strip] is
    [str.strip]. *)
Fixpoint is_ascii (line : string) : bool :=
  match line with
  | "" => true
  | String c r => (nat_of_ascii c <? 128)%nat && is_ascii r
  end.

(** A line the reader takes for a header: its text holds both brackets. *)
Definition is_header (line : string) : bool :=
  Py.contains "["%char (Py.strip line) && Py.contains "]"%char (Py.strip line).

(** The token of a header line: its text without the brackets. *)
Definition header_token (line : string) : string :=
  Py.delete_chars "[]" (Py.strip line).

Definition is_properties_header (line : string) : bool :=
  is_header line && bool_decide (header_token line = "ccpp-table-properties").

Definition is_arg_table_header (line : string) : bool :=
  is_header line && bool_decide (header_token line = "ccpp-arg-table").

(** The tables the reader holds: those collected and the one being read. *)
Definition tables_held (l : locals) : nat :=
  length (table_arg_tables l)
  + match current_arg_table l with Some _ => 1 | None => 0 end.

End reading.

(** ** Decimal numerals *)
Module numerals.

(** Every character of the text satisfies [P]. *)
Fixpoint all_chars (P : ascii → bool) (s : string) : bool :=
  match s with
  | "" => true
  | String c r => P c && all_chars P r
  end.

Definition is_digit (c : ascii) : bool :=
  match Py.digit_value c with Some _ => true | None => false end.

(** The number of decimal digits of an integer. *)
Definition decimal_digits (n : Z) : Z :=
  Z.of_nat (String.length (Py.str_int (Z.abs n))).

End numerals.

(** ** Signatures of argument tables *)
Module signatures.
Import ir ccpp_descriptors.

(** The type a declaration contributes to a signature. *)
Definition declared_type (a : CCPPArgument) : Py.result Attribute :=
  ty ← getAttr (arg_attrs a) "type";
  typing.convert ty (Py.get (arg_attrs a) "kind").

(** An argument is passed in unless its intent is [out], and passed out
    unless its intent is [in]. *)
Definition passed_in (a : CCPPArgument) : bool :=
  bool_decide (Py.get (arg_attrs a) "intent" ≠ Some "out").
Definition passed_out (a : CCPPArgument) : bool :=
  bool_decide (Py.get (arg_attrs a) "intent" ≠ Some "in").

Definition known_intent (a : CCPPArgument) : Prop :=
  Py.get (arg_attrs a) "intent" ∈ [None; Some "in"; Some "out"; Some "inout"].

(** The types of the declarations selected by [keep]. *)
Definition types_of (keep : CCPPArgument → bool)
    (args : list CCPPArgument) (tys : list Attribute) : list Attribute :=
  snd <$> List.filter (λ p, keep p.1) (zip args tys).

End signatures.

(** ** [transforms/suite_cap.py]: gathering signatures and the rewrite *)
Module suite_cap_rewrite.
Import ir ccpp_descriptors suite_cap.

(** [GatherMetaFunctionSignatures.traverse_func_op], on [meta_functions];
    the visitor calls it for [func.func] operations only. *)
Definition traverse_func_op (meta_functions : Py.dict Operation)
    (func_op : Operation) : Py.dict Operation :=
  match func_op with
  | FuncOp name _ body =>
      if is_declaration body then Py.set meta_functions name func_op
      else meta_functions
  | _ => meta_functions
  end.

(** One step of the inner loop of [clone_func_defs]; only a function
    operation has a symbol name and a function type. *)
Definition clone_func_def (func_def : Operation) : Py.result Operation :=
  match func_def with
  | FuncOp name (FunctionType inputs outputs) _ =>
      Ok (FuncOp_external name inputs outputs)
  | _ => Raise Py.AttributeError
  end.

Definition clone_func_defs (func_defs : list (list Operation))
  : Py.result (list Operation) :=
  mapM clone_func_def (concat func_defs).

(** [GenerateSuiteSubroutine.match_and_rewrite] for a suite operation of
    name [suite_name]; [top_level_module] is the block of the pattern's
    top-level module, at whose start the new module is inserted. *)
Definition match_and_rewrite (self : GenerateSuiteSubroutine)
    (top_level_module : list Operation) (suite_name : string)
  : Gen (list Operation) :=
  suite_description ← lift (Py.item (suite_descriptions self) suite_name);
  '(init_fn, init_fn_sigs) ←
     generateSubroutineCall self suite_description "_init"
       (Some "_initialize");
  '(finalise_fn, finalise_fn_sigs) ←
     generateSubroutineCall self suite_description "_finalize" None;
  fn_sigs ← lift (clone_func_defs [init_fn_sigs; finalise_fn_sigs]);
  let scheme_mod :=
    ModuleOp (Some (suite_name +:+ "_cap"))
             ([init_fn; finalise_fn] ++ fn_sigs) in
  mret (scheme_mod :: top_level_module).

End suite_cap_rewrite.

(** ** The rewrite of a suite *)
Module rewriting.
Import ir ccpp_descriptors suite_cap suite_cap_rewrite generated.

(** The external declaration of the name [name]. *)
Definition declares (name : string) (op : Operation) : bool :=
  match op with
  | FuncOp name' _ body => bool_decide (name' = name) && is_declaration body
  | _ => false
  end.

(** A scheme [H] with an initialization and a finalization, and its
    suite. *)
Definition H_init : CCPPArgumentTable :=
  table "H_init" [argument "errflg" "integer" "out"].
Definition H_finalize : CCPPArgumentTable :=
  table "H_finalize" [argument "errflg" "integer" "out"].
Definition suite_H : XMLSuite :=
  mkSuite "H" "1.0" [mkGroup "g" [mkScheme "H"]].
Definition pass_H : GenerateSuiteSubroutine :=
  mkGenerate [("H", suite_H)]
    [properties "H" [H_init; H_finalize]]
    [("H_init", FuncOp_external "H_init" [] [memref i32]);
     ("H_finalize", FuncOp_external "H_finalize" [] [memref i32])].

End rewriting.

(** ** [frontend/ccpp_xml.py] and [dialects/ccpp.py]: the suite operations

    The suite classes of the frontend hold what the XML reader found: the
    attributes of an element and, for a scheme, its text (taken to be
    present).  The bodies of the dialect operations are typed by what the
    builders put there; what the host's builders make of a body without
    operations is not modelled. *)
Module suite_ir.

Record XMLScheme : Type := mkXMLScheme {
  scheme_text : string;
  scheme_attributes : Py.dict string
}.

Record XMLGroup : Type := mkXMLGroup {
  group_attributes : Py.dict string;
  group_schemes : list XMLScheme
}.

Record XMLSuite : Type := mkXMLSuite {
  suite_attributes : Py.dict string;
  suite_groups : list XMLGroup
}.

Record SchemeOp : Type := mkSchemeOp { op_scheme_name : string }.

Record GroupOp : Type := mkGroupOp {
  op_group_name : string;
  op_group_body : list SchemeOp
}.

Record SuiteOp : Type := mkSuiteOp {
  op_suite_name : string;
  op_version : option string;
  op_suite_body : list GroupOp
}.

(** [ccppXML.build_suite_ir] *)
Definition build_suite_ir (suite : XMLSuite) : Py.result SuiteOp :=
  groups ← mapM (λ grp,
                   let schemes :=
                     (λ scheme, mkSchemeOp (scheme_text scheme))
                       <$> group_schemes grp in
                   name ← Py.item (group_attributes grp) "name";
                   Ok (mkGroupOp name schemes))
                (suite_groups suite);
  name ← Py.item (suite_attributes suite) "name";
  Ok (mkSuiteOp name
        (if Py.mem (suite_attributes suite) "version"
         then Py.get (suite_attributes suite) "version" else None)
        groups).

(** [BuildSchemeDescription] of [ccpp_descriptors.py]: the visitor's
    fields. *)
Record BuildSchemeDescription : Type := mkBSD {
  schemes : Py.dict ccpp_descriptors.XMLSuite;
  current_group : option ccpp_descriptors.XMLGroup;
  current_scheme : option ccpp_descriptors.XMLScheme
}.

Definition traverse_scheme_op (self : BuildSchemeDescription)
    (scheme_op : SchemeOp) : BuildSchemeDescription :=
  mkBSD (schemes self) (current_group self)
    (Some (ccpp_descriptors.mkScheme (op_scheme_name scheme_op))).

(** The loop of [traverse_group_op]. *)
Fixpoint traverse_schemes (self : BuildSchemeDescription)
    (ops : list SchemeOp) : Py.result BuildSchemeDescription :=
  match ops with
  | [] => Ok self
  | op :: rest =>
      let self := traverse_scheme_op self op in
      match current_scheme self with
      | None => Raise Py.AssertionError
      | Some scheme =>
          match current_group self with
          | None => Raise Py.AttributeError
          | Some group =>
              traverse_schemes
                (mkBSD (schemes self)
                   (Some (ccpp_descriptors.mkGroup
                            (ccpp_descriptors.group_name group)
                            (ccpp_descriptors.group_children group
                             ++ [scheme])))
                   None)
                rest
          end
      end
  end.

Definition traverse_group_op (self : BuildSchemeDescription)
    (group_op : GroupOp) : Py.result BuildSchemeDescription :=
  traverse_schemes
    (mkBSD (schemes self)
       (Some (ccpp_descriptors.mkGroup (op_group_name group_op) []))
       (current_scheme self))
    (op_group_body group_op).

(** The loop of [traverse_suite_op]. *)
Fixpoint traverse_groups (self : BuildSchemeDescription)
    (current_suite : ccpp_descriptors.XMLSuite) (ops : list GroupOp)
  : Py.result (BuildSchemeDescription * ccpp_descriptors.XMLSuite) :=
  match ops with
  | [] => Ok (self, current_suite)
  | op :: rest =>
      self ← traverse_group_op self op;
      match current_group self with
      | None => Raise Py.AssertionError
      | Some group =>
          traverse_groups
            (mkBSD (schemes self) None (current_scheme self))
            (ccpp_descriptors.mkSuite
               (ccpp_descriptors.suite_name current_suite)
               (ccpp_descriptors.suite_version current_suite)
               (ccpp_descriptors.suite_children current_suite ++ [group]))
            rest
      end
  end.

Definition traverse_suite_op (self : BuildSchemeDescription)
    (suite_op : SuiteOp) : Py.result BuildSchemeDescription :=
  version ← match op_version suite_op with
             | Some v => Ok v
             | None => Raise Py.AttributeError
             end;
  let current_suite :=
    ccpp_descriptors.mkSuite (op_suite_name suite_op) version [] in
  '(self, current_suite) ←
     traverse_groups self current_suite (op_suite_body suite_op);
  Ok (mkBSD (Py.set (schemes self) (op_suite_name suite_op) current_suite)
            (current_group self) (current_scheme self)).

End suite_ir.

(** ** Frontend suites *)
Module suites.
Import suite_ir.

(** The scheme names of a frontend suite, group after group. *)
Definition scheme_texts (suite : XMLSuite) : list string :=
  concat ((λ grp, scheme_text <$> group_schemes grp) <$> suite_groups suite).

(** A suite with the groups [g] (schemes [A], [B]) and [h] (scheme [C]). *)
Definition suite_x : XMLSuite :=
  mkXMLSuite [("name", "S"); ("version", "1.0")]
    [mkXMLGroup [("name", "g")]
       [mkXMLScheme "A" []; mkXMLScheme "B" []];
     mkXMLGroup [("name", "h")] [mkXMLScheme "C" []]].

End suites.

(** ** [dialects/ccpp.py] and [frontend/ccpp_xml.py]: the metadata
    operations

    The constructors of the operations and [build_meta_ir] can raise
    [NameError] and [UnboundLocalError] besides the exceptions of
    [Py.exn]. *)
Module meta_ir.
Import ccpp_descriptors ccpp_xml.

Inductive exn : Set :=
| Builtin (e : Py.exn)
| NameError
| UnboundLocalError.

Inductive outcome (A : Type) : Type :=
| Built (a : A)
| Failed (e : exn).
Arguments Built {A} a.
Arguments Failed {A} e.

#[global] Instance outcome_ret : MRet outcome := @Built.
#[global] Instance outcome_bind : MBind outcome := λ A B k m,
  match m with
  | Built a => k a
  | Failed e => Failed e
  end.

Definition of_result {A} (r : Py.result A) : outcome A :=
  match r with
  | Ok a => Built a
  | Raise e => Failed (Builtin e)
  end.

(** [l.remove(x)]: the first occurrence goes; [ValueError] without one. *)
Fixpoint list_remove (x : string) (l : list string)
  : Py.result (list string) :=
  match l with
  | [] => Raise Py.ValueError
  | y :: r => if decide (y = x) then Ok r
              else r' ← list_remove x r; Ok (y :: r')
  end.

(** The loop over [known_props] of [ArgumentOp.__init__]: the keys left
    in [prop_keys]. *)
Fixpoint take_known (known_props : list string) (attributes : Py.dict string)
    (prop_keys : list string) : Py.result (list string) :=
  match known_props with
  | [] => Ok prop_keys
  | prop :: rest =>
      if Py.mem attributes prop then
        prop_keys ← list_remove prop prop_keys;
        take_known rest attributes prop_keys
      else take_known rest attributes prop_keys
  end.

(** [ArgumentOp(arg_name, arg_type, attributes)] *)
Definition ArgumentOp_new (arg_name arg_type : string)
    (attributes : Py.dict string) : outcome ArgumentOp :=
  let prop_keys := Py.keys attributes in
  prop_keys ← of_result (list_remove "type" prop_keys);
  prop_keys ← (if bool_decide ("dimensions" ∈ prop_keys)
                then of_result (list_remove "dimensions" prop_keys)
                else Built prop_keys);
  prop_keys ← of_result
    (take_known ["standard_name"; "long_name"; "kind"; "intent"; "units"]
       attributes prop_keys);
  (* [if attributes[optional]:] reads a name that is not defined *)
  (if Py.mem attributes "optional" then Failed NameError else Built tt);;
  of_result (Py.assert (bool_decide (length prop_keys = 0)));;
  Built (mkArgumentOp arg_name arg_type
           (Py.get attributes "standard_name")
           (Py.get attributes "long_name")
           (Py.get attributes "kind")
           (Py.get attributes "intent")
           (Py.get attributes "units")
           false).

(** [TableTypeKind(table_type)] *)
Definition TableTypeKind (table_type : string) : Py.result string :=
  if bool_decide (table_type ∈ ["scheme"; "module"; "ddt"])
  then Ok table_type else Raise Py.ValueError.

(** [ArgumentTableOp(table_name, table_type, body)]; what the host's
    builder makes of a body without operations is not modelled. *)
Definition ArgumentTableOp_new (table_name table_type : string)
    (body : list ArgumentOp) : Py.result ArgumentTableOp :=
  table_type ← TableTypeKind table_type;
  Ok (mkArgumentTableOp table_name table_type body).

(** [TablePropertiesOp(table_name, table_type, body)] *)
Definition TablePropertiesOp_new (table_name table_type : string)
    (body : list ArgumentTableOp) : Py.result TablePropertiesOp :=
  table_type ← TableTypeKind table_type;
  Ok (mkTablePropertiesOp table_name table_type body).

(** The inner loop of [build_meta_ir]. *)
Fixpoint build_arguments (fn_args : list CCPPArgument)
  : outcome (list ArgumentOp) :=
  match fn_args with
  | [] => Built []
  | fn_arg :: rest =>
      ty ← of_result (getAttr (arg_attrs fn_arg) "type");
      op ← ArgumentOp_new (arg_name fn_arg) ty (arg_attrs fn_arg);
      ops ← build_arguments rest;
      Built (op :: ops)
  end.

(** Its outer loop. *)
Fixpoint build_tables (tables : list CCPPArgumentTable)
  : outcome (list ArgumentTableOp) :=
  match tables with
  | [] => Built []
  | table :: rest =>
      args ← build_arguments (getFunctionArguments table);
      name ← of_result (getAttr (table_attrs table) "name");
      ty ← of_result (getAttr (table_attrs table) "type");
      op ← of_result (ArgumentTableOp_new name ty args);
      ops ← build_tables rest;
      Built (op :: ops)
  end.

(** [ccppXML.build_meta_ir]: after the loop, [table] is the last table of
    the unit, or is not bound. *)
Definition build_meta_ir (meta : MetaData) : outcome TablePropertiesOp :=
  tables ← build_tables (md_arg_tables meta);
  match last (md_arg_tables meta) with
  | None => Failed UnboundLocalError
  | Some table =>
      name ← of_result (getAttr (table_attrs table) "name");
      ty ← of_result (getAttr (table_attrs table) "type");
      of_result (TablePropertiesOp_new name ty tables)
  end.

End meta_ir.

(** ** Attributes carried into the ir *)
Module meta_round_trip.
Import ccpp_descriptors ccpp_xml meta_ir.

(** The keys an argument may carry into the ir. *)
Definition carried : list string :=
  ["standard_name"; "long_name"; "kind"; "intent"; "units"].

Definition accepted_keys (attributes : Py.dict string) : bool :=
  forallb (λ k, bool_decide (k ∈ "type" :: "dimensions" :: carried))
          (Py.keys attributes).

(** The keys of [l] outside [xs]. *)
Definition without (xs : list string) (l : list string) : list string :=
  List.filter (λ k, negb (bool_decide (k ∈ xs))) l.

(** Attributes as the reader can leave them for an argument. *)
Definition errmsg_attributes : Py.dict string :=
  [("standard_name", "ccpp_error_message"); ("units", "none");
   ("dimensions", "()"); ("type", "character"); ("kind", "len");
   ("intent", "out")].

End meta_round_trip.

(** ** [frontend/ccpp_xml.py]: the command line options

    [args.__dict__] maps the name of an option to the text given on the
    command line or to [None]; the record holds what
    [build_options_db_from_args] leaves under its three keys. *)
Module options.

Record options_db : Type := mkOptions {
  scheme_files : list string;
  host_files : list string;
  suites : list string
}.

(** [options_db[key].split(",")] if the key is there with a text, else
    the empty list. *)
Definition split_option (args : Py.dict (option string)) (key : string)
  : list string :=
  if Py.mem args key then
    match Py.get args key with
    | Some (Some text) => Py.split "," text
    | _ => []
    end
  else [].

Definition build_options_db_from_args (args : Py.dict (option string))
  : options_db :=
  mkOptions (split_option args "scheme_files")
            (split_option args "host_files")
            (split_option args "suites").

End options.

(** * Properties *)

(** ** Python prelude facts *)
Section prelude_facts.

Lemma result_bind_ok {A B} (m : Py.result A) (k : A → Py.result B) b :
  m ≫= k = Ok b → ∃ a, m = Ok a ∧ k a = Ok b.
Proof. destruct m; [eauto|done]. Qed.

Lemma result_bind_raise {A B} (m : Py.result A) (k : A → Py.result B) e :
  m ≫= k = Raise e → m = Raise e ∨ ∃ a, m = Ok a ∧ k a = Raise e.
Proof. destruct m; [eauto|]. intros [= ->]. by left. Qed.

Lemma assert_ok b : Py.assert b = Ok tt → b = true.
Proof. by destruct b. Qed.

Lemma get_set_eq {V} (d : Py.dict V) k v : Py.get (Py.set d k v) k = Some v.
Proof.
  induction d as [|[k' v'] d IH]; simpl; repeat case_decide; simpl;
    repeat case_decide; try done.
Qed.

Lemma get_set_ne {V} (d : Py.dict V) k k' v :
  k ≠ k' → Py.get (Py.set d k v) k' = Py.get d k'.
Proof.
  intros Hne. induction d as [|[k0 v0] d IH]; simpl; repeat case_decide; simpl;
    repeat case_decide; simplify_eq; try done.
Qed.

Lemma mem_get {V} (d : Py.dict V) k :
  Py.mem d k = true ↔ is_Some (Py.get d k).
Proof.
  unfold Py.mem. destruct (Py.get d k); split; intros H; eauto; try done.
Qed.

Lemma item_ok {V} (d : Py.dict V) k v :
  Py.item d k = Ok v ↔ Py.get d k = Some v.
Proof. unfold Py.item. destruct (Py.get d k); naive_solver. Qed.

Lemma values_set_Forall {V} (P : V → Prop) (d : Py.dict V) k v :
  Forall P (Py.values d) → P v → Forall P (Py.values (Py.set d k v)).
Proof.
  intros Hd Hv. induction d as [|[k' v'] d IH]; simpl.
  - by repeat constructor.
  - apply Forall_cons in Hd as [??]. case_decide; constructor; eauto.
Qed.

Lemma get_values {V} (d : Py.dict V) k v :
  Py.get d k = Some v → v ∈ Py.values d.
Proof.
  induction d as [|[k' v'] d IH]; simpl; [done|].
  case_decide; [intros [= ->]; by left|right; eauto].
Qed.

Lemma mapM_result_cons {A B} (f : A → Py.result B) x l :
  mapM f (x :: l) = y ← f x; k ← mapM f l; Ok (y :: k).
Proof. done. Qed.

End prelude_facts.

(** ** The naming context *)
Section naming_facts.
Import ir print_ftn naming.

#[local] Instance candidate_inj prefix : Inj (=) (=) (candidate prefix).
Proof.
  intros j k H. unfold candidate in H. by apply (inj _), (inj pretty) in H.
Qed.

(** Pigeonhole: a run of [n] consecutive candidates inside [taken] is no
    longer than [taken] is large. *)
Lemma taken_candidates_bounded prefix (taken : gset string) c n :
  (∀ j, j < n → candidate prefix (c + j) ∈ taken) → n ≤ size taken.
Proof.
  intros Hall.
  set (l := candidate prefix <$> seq c n).
  assert (NoDup l) as Hnd by apply (NoDup_fmap_2 _), NoDup_seq.
  assert (length l = n) as Hlen
    by (unfold l; by rewrite length_fmap, length_seq).
  rewrite <-Hlen, <-(size_list_to_set (C:=gset string)) by done.
  apply subseteq_size. intros x Hx.
  apply elem_of_list_to_set, list_elem_of_fmap in Hx as (k & -> & Hk).
  apply elem_of_seq in Hk. replace k with (c + (k - c)) by lia.
  apply Hall. lia.
Qed.

Lemma synthesize_scan fuel prefix (taken : gset string) c :
  (∀ j, j < fuel → candidate prefix (c + j) ∈ taken) ∨
  ∃ k, (synthesize fuel prefix taken c
        = (candidate prefix (c + k), S (c + k)))
       ∧ (candidate prefix (c + k) ∉ taken)
       ∧ ∀ j, j < k → candidate prefix (c + j) ∈ taken.
Proof.
  revert c. induction fuel as [|fuel IH]; intros c; [left; lia|].
  simpl. fold (candidate prefix c).
  destruct (decide (candidate prefix c ∈ taken)) as [Hin|Hout].
  - destruct (IH (S c)) as [Hall|(k & Heq & Hk & Hlt)].
    + left. intros [|j] ?; [by rewrite Nat.add_0_r|].
      replace (c + S j) with (S c + j) by lia. apply Hall. lia.
    + right. exists (S k). replace (c + S k) with (S c + k) by lia.
      split_and!; [done..|]. intros [|j] ?; [by rewrite Nat.add_0_r|].
      replace (c + S j) with (S c + j) by lia. apply Hlt. lia.
  - right. exists 0. rewrite Nat.add_0_r. split_and!; [done..|lia].
Qed.

(** The loop ends, at the first counter whose candidate is free. *)
Lemma synthesize_first_free prefix (taken : gset string) c :
  ∃ k, (synthesize (S (size taken)) prefix taken c
        = (candidate prefix (c + k), S (c + k)))
       ∧ (candidate prefix (c + k) ∉ taken)
       ∧ ∀ j, j < k → candidate prefix (c + j) ∈ taken.
Proof.
  destruct (synthesize_scan (S (size taken)) prefix taken c) as [Hall|?];
    [|done].
  apply taken_candidates_bounded in Hall. lia.
Qed.

Lemma name_for_bound self val hint n :
  variables self !! ssa_id val = Some n →
  _get_variable_name_for self val hint = (self, n).
Proof. intros H. unfold _get_variable_name_for. by rewrite H. Qed.

Lemma name_for_unbound self val hint :
  variables self !! ssa_id val = None →
  _get_variable_name_for self val hint
  = (mkContext (_prefix self)
       (<[ssa_id val := (chosen self val hint).1]> (variables self))
       (chosen self val hint).2,
     (chosen self val hint).1).
Proof.
  intros H. unfold _get_variable_name_for, chosen, wanted_hint. rewrite H.
  destruct hint as [h|]; [|destruct (name_hint val) as [h|]];
    repeat case_decide; by try destruct (synthesize _ _ _ _).
Qed.

Lemma chosen_not_taken self val hint :
  (chosen self val hint).1 ∉ (map_img (variables self) : gset string).
Proof.
  unfold chosen.
  destruct (synthesize_first_free (default "v" (name_hint val))
              (map_img (variables self)) (_counter self))
    as (k & -> & Hk & _).
  destruct (wanted_hint val hint); [case_decide|]; done.
Qed.

Lemma chosen_hint self val hint h :
  wanted_hint val hint = Some h →
  (chosen self val hint).1 = h ↔ h ∉ (map_img (variables self) : gset string).
Proof.
  intros Hh. pose proof (chosen_not_taken self val hint) as Hfresh.
  unfold chosen in *. rewrite Hh in *.
  case_decide; [done|]. split; [by intros <-|done].
Qed.

Lemma chosen_synthesized self val hint :
  (∀ h, wanted_hint val hint = Some h →
        h ∈ (map_img (variables self) : gset string)) →
  ∃ k, _counter self ≤ k
       ∧ chosen self val hint
         = (candidate (default "v" (name_hint val)) k, S k)
       ∧ ∀ j, _counter self ≤ j < k →
              candidate (default "v" (name_hint val)) j
              ∈ (map_img (variables self) : gset string).
Proof.
  intros Htaken. unfold chosen.
  destruct (synthesize_first_free (default "v" (name_hint val))
              (map_img (variables self)) (_counter self))
    as (k & Hk & _ & Hlt).
  exists (_counter self + k). split; [lia|]. split.
  - destruct (wanted_hint val hint) as [h|]; [|done].
    case_decide as Hh; [|done]. destruct Hh. by apply Htaken.
  - intros j [??]. replace j with (_counter self + (j - _counter self)) by lia.
    apply Hlt. lia.
Qed.

Lemma name_for_keeps self val hint w n :
  variables self !! w = Some n →
  variables (_get_variable_name_for self val hint).1 !! w = Some n.
Proof.
  intros Hw. destruct (variables self !! ssa_id val) as [m|] eqn:Hv.
  - by rewrite (name_for_bound _ _ _ m).
  - rewrite name_for_unbound by done. simpl.
    rewrite lookup_insert_ne; [done|congruence].
Qed.

Lemma name_for_binds self val hint :
  variables (_get_variable_name_for self val hint).1 !! ssa_id val
  = Some (_get_variable_name_for self val hint).2.
Proof.
  destruct (variables self !! ssa_id val) as [m|] eqn:Hv.
  - by rewrite (name_for_bound _ _ _ m).
  - rewrite name_for_unbound by done. simpl. by rewrite lookup_insert_eq.
Qed.

Lemma name_for_distinct self val hint :
  names_distinct self →
  names_distinct (_get_variable_name_for self val hint).1.
Proof.
  intros Hd. destruct (variables self !! ssa_id val) as [m|] eqn:Hv.
  - by rewrite (name_for_bound _ _ _ m).
  - rewrite name_for_unbound by done. simpl.
    pose proof (chosen_not_taken self val hint) as Hfresh.
    rewrite not_elem_of_map_img in Hfresh.
    intros i j n. simpl. rewrite !lookup_insert.
    repeat case_decide; intros; simplify_eq; try done;
      try (by eapply Hd); by edestruct Hfresh.
Qed.

Lemma run_chain_sound steps : ∀ self,
  names_distinct self →
  names_distinct (run_chain self steps).1 ∧
  (∀ w n, variables self !! w = Some n →
          variables (run_chain self steps).1 !! w = Some n) ∧
  (∀ i n, (i, n) ∈ (run_chain self steps).2 →
          variables (run_chain self steps).1 !! i = Some n).
Proof.
  induction steps as [|[val hint|] steps IH]; intros self Hd; simpl.
  - split_and!; [done..|]. intros ?? []%elem_of_nil.
  - pose proof (name_for_distinct self val hint Hd) as Hd'.
    pose proof (name_for_keeps self val hint) as Hkeep.
    pose proof (name_for_binds self val hint) as Hbind.
    destruct (_get_variable_name_for self val hint) as [self' name].
    simpl in *. destruct (IH self' Hd') as (H1 & H2 & H3).
    destruct (run_chain self' steps) as [final produced]. simpl in *.
    split_and!; [done|by eauto|].
    intros i n [[= -> ->]|Hin]%elem_of_cons; eauto.
  - apply (IH (inner_context self)). exact Hd.
Qed.

Example hint_taken_gives_numbered_name :
  run_chain root_context
    [NameFor (mkSSA 1 i32 (Some "x")) None;
     NameFor (mkSSA 2 i32 (Some "x")) None;
     Descend;
     NameFor (mkSSA 3 i32 None) None;
     NameFor (mkSSA 4 i32 (Some "x")) None;
     NameFor (mkSSA 2 i32 None) None]
  = (mkContext "  "
       (<[4:="x2"]> (<[3:="v1"]> (<[2:="x0"]> (<[1:="x"]> ∅)))) 3,
     [(1, "x"); (2, "x0"); (3, "v1"); (4, "x2"); (2, "x0")]).
Proof. vm_compute. reflexivity. Qed.

End naming_facts.

(** ** The emitter *)
Section emitter_facts.
Import ir print_ftn naming emitting.

Variable uses : SSAValue → list Operation.
Variable attr_str : Attribute → string.
Variable DYNAMIC_INDEX : Z.

Lemma emit_bind_eq {A B} (m : Emit A) (k : A → Emit B) em :
  (m ≫= k) em = match m em with
                | (Ok a, em') => k a em'
                | (Raise e, em') => (Raise e, em')
                end.
Proof. done. Qed.

Lemma emit_bind_ok {A B} (m : Emit A) (k : A → Emit B) em b em' :
  (m ≫= k) em = (Ok b, em') →
  ∃ a em1, m em = (Ok a, em1) ∧ k a em1 = (Ok b, em').
Proof.
  rewrite emit_bind_eq. destruct (m em) as [[a|e] em1]; [eauto|done].
Qed.

Lemma emit_bind_raise {A B} (m : Emit A) (k : A → Emit B) em e :
  (m em).1 = Raise e → ((m ≫= k) em).1 = Raise e.
Proof.
  rewrite emit_bind_eq. destruct (m em) as [[a|e'] em1]; simpl; [done|].
  by intros [= ->].
Qed.

(** [print] never fails. *)
Lemma print_ok self text prefix end_ use_prefix em :
  (print self text prefix end_ use_prefix em).1 = Ok tt.
Proof. done. Qed.

Lemma after_print {B} self text prefix end_ use_prefix (k : unit → Emit B) em :
  (print self text prefix end_ use_prefix ≫= k) em
  = k tt (print self text prefix end_ use_prefix em).2.
Proof. done. Qed.

Lemma print_op_if cond t f self :
  print_op uses attr_str DYNAMIC_INDEX (IfOp cond t f) self =
    (print self "if (" "" "" true;;
     self ← print_owner attr_str cond self;
     print self ") then" "" newline false;;
     descend self None None
       (λ inner, match t with
                 | [b] => print_block uses attr_str DYNAMIC_INDEX b inner
                 | _ => lift (Raise Py.ValueError)
                 end);;
     (if decide (0 < length f) then
        print_line self "else";;
        descend self None None
          (λ inner, match f with
                    | [b] => print_block uses attr_str DYNAMIC_INDEX b inner
                    | _ => lift (Raise Py.ValueError)
                    end);;
        mret tt
      else mret tt);;
     print_line self "end if";;
     mret self).
Proof. reflexivity. Qed.

Lemma print_op_if_context cond t f self em self' em' :
  print_op uses attr_str DYNAMIC_INDEX (IfOp cond t f) self em
  = (Ok self', em') →
  ∃ em1, print_owner attr_str cond self (print self "if (" "" "" true em).2
         = (Ok self', em1).
Proof.
  rewrite print_op_if, after_print. intros H.
  apply emit_bind_ok in H as (self1 & em1 & H1 & H).
  rewrite after_print in H.
  apply emit_bind_ok in H as (? & em3 & H3 & H).
  apply emit_bind_ok in H as ([] & em4 & H4 & H).
  apply emit_bind_ok in H as ([] & em5 & H5 & H).
  injection H as -> ->. by exists em1.
Qed.

Lemma print_op_func_context name ty body self em self' em' :
  print_op uses attr_str DYNAMIC_INDEX (FuncOp name ty body) self em
  = (Ok self', em') →
  self' = self.
Proof.
  simpl. destruct (is_declaration body); [by intros [= ->]|].
  destruct ty; try (by intros [=]).
  intros H. apply emit_bind_ok in H as (? & em0 & H0 & H).
  by injection H as -> ->.
Qed.

Lemma print_expr_other op self em :
  is_expression op = false →
  print_expr attr_str op self em
  = (Raise Py.AssertionError,
     reported em ("<class '" +:+ class_of op +:+ "'>")).
Proof. by destruct op. Qed.

Lemma print_owner_other val self em :
  owner_is_expression val = false →
  (print_owner attr_str val self em).1 = Raise Py.AssertionError.
Proof.
  destruct val as [v owner|v]; simpl; intros H; [|done].
  by rewrite print_expr_other.
Qed.

Lemma print_op_expression op self em :
  is_expression op = true →
  print_op uses attr_str DYNAMIC_INDEX op self em = (Ok self, em).
Proof. by destruct op. Qed.

Lemma print_op_store val arr idxs self :
  print_op uses attr_str DYNAMIC_INDEX (StoreOp val arr idxs) self =
    (let '(self, arr_name) :=
       _get_variable_name_for self (value_of arr) None in
     let '(self, idx_names) := names_for self idxs in
     let idx_args := Py.join ", " idx_names in
     (if decide (0 < String.length idx_args)
      then print self (arr_name +:+ "[" +:+ idx_args +:+ "] = ") "" "" true
      else print self (arr_name +:+ " = ") "" "" true);;
     self ← print_owner attr_str val self;
     print_line self "";;
     mret self).
Proof. reflexivity. Qed.

Lemma print_op_store_other val arr idxs self em :
  owner_is_expression val = false →
  (print_op uses attr_str DYNAMIC_INDEX (StoreOp val arr idxs) self em).1
  = Raise Py.AssertionError.
Proof.
  intros Hval. rewrite print_op_store.
  destruct (_get_variable_name_for self (value_of arr) None) as [self1 name].
  destruct (names_for self1 idxs) as [self2 names].
  cbv zeta. case_decide; rewrite after_print;
    by apply emit_bind_raise, print_owner_other.
Qed.

Lemma print_op_if_other cond t f self em :
  owner_is_expression cond = false →
  (print_op uses attr_str DYNAMIC_INDEX (IfOp cond t f) self em).1
  = Raise Py.AssertionError.
Proof.
  intros Hcond. rewrite print_op_if, after_print.
  by apply emit_bind_raise, print_owner_other.
Qed.

Lemma emit_ret_bind {A B} (a : A) (k : A → Emit B) em :
  (mret a ≫= k) em = k a em.
Proof. done. Qed.

Lemma print_call_args_cons self idx arg rest :
  print_call_args attr_str self idx (arg :: rest) =
    ((if decide (0 < idx) then print self ", " "" "" false else mret tt);;
     self ← print_owner attr_str arg self;
     print_call_args attr_str self (S idx) rest).
Proof. reflexivity. Qed.

Lemma print_call_args_other args : ∀ self idx em,
  Exists (λ a, owner_is_expression a = false) args →
  ∃ e, (print_call_args attr_str self idx args em).1 = Raise e.
Proof.
  induction args as [|arg args IH]; intros self idx em Hex.
  { by apply Exists_nil in Hex. }
  rewrite print_call_args_cons.
  assert (∀ em0, ∃ e,
            ((print_owner attr_str arg self ≫=
                λ self, print_call_args attr_str self (S idx) args) em0).1
            = Raise e) as Hrest.
  { intros em0. rewrite emit_bind_eq.
    destruct (owner_is_expression arg) eqn:Harg.
    - apply Exists_cons in Hex as [?|Hex]; [congruence|].
      destruct (print_owner attr_str arg self em0) as [[self1|e] em1];
        [by apply IH|by exists e].
    - pose proof (print_owner_other arg self em0 Harg) as Hr.
      destruct (print_owner attr_str arg self em0) as [[self1|e] em1];
        [done|by exists e]. }
  case_decide; [rewrite after_print|rewrite emit_ret_bind]; apply Hrest.
Qed.

Lemma print_op_call_other callee args res self em :
  Exists (λ a, owner_is_expression a = false) args →
  ∃ e, (print_op uses attr_str DYNAMIC_INDEX (CallOp callee args res) self em).1
       = Raise e.
Proof.
  intros Hex. simpl. unfold _print_call. rewrite after_print.
  destruct (print_call_args_other args self 0
              (print self ("call " +:+ callee +:+ "(") "" "" true em).2 Hex)
    as [e He].
  exists e. by apply emit_bind_raise.
Qed.

Lemma print_op_call_first_other callee arg args res self em :
  owner_is_expression arg = false →
  (print_op uses attr_str DYNAMIC_INDEX (CallOp callee (arg :: args) res)
     self em).1
  = Raise Py.AssertionError.
Proof.
  intros Harg. simpl. unfold _print_call. rewrite after_print.
  apply emit_bind_raise. rewrite print_call_args_cons.
  case_decide; [lia|]. rewrite emit_ret_bind.
  by apply emit_bind_raise, print_owner_other.
Qed.

Lemma append_empty_r (s : string) : s +:+ "" = s.
Proof.
  induction s as [|a s IH]; [done|].
  change (String a (s +:+ "") = String a s). by rewrite IH.
Qed.

Lemma split_without_separator sep text :
  Py.contains sep text = false → Py.split sep text = [text].
Proof.
  induction text as [|c text IH]; [done|]. simpl.
  case_decide as Hc; [done|]. intros Hrest. by rewrite IH.
Qed.

(** Text without a line break, printed bare, goes to the output as it is. *)
Lemma print_bare self text em :
  Py.contains "010"%char text = false →
  (print self text "" "" false em).2 = emitted em text.
Proof.
  intros H. unfold print, write. rewrite split_without_separator by done.
  simpl. change ("" +:+ "" +:+ text +:+ "") with (text +:+ "").
  by rewrite append_empty_r.
Qed.

(** C10. Operand kinds: [print_expr] renders a constant as its literal and
    a load as the name of the buffer it reads, whatever its indices; for an
    operation of any other kind than constant, load and integer comparison
    (and for a block argument) it reports the class on the diagnostic
    stream and fails its assertion, leaving the output untouched.  The three
    consumers go through it: an assignment whose stored value, a conditional
    whose test, or a call one of whose arguments is produced by another kind
    of operation does not print but raises (the assertion failure itself
    where that operand is the first thing rendered). *)
Theorem print_expr_operand_kinds :
  (∀ v r self em,
     print_expr attr_str (ConstantOp v r) self em
     = (Ok self,
        (print self (attribute_value_to_str attr_str v) "" "" false em).2)) ∧
  (∀ arr idxs res self em,
     print_expr attr_str (LoadOp arr idxs res) self em
     = (Ok (_get_variable_name_for self (value_of arr) None).1,
        (print (_get_variable_name_for self (value_of arr) None).1
               (_get_variable_name_for self (value_of arr) None).2
               "" "" false em).2)) ∧
  (∀ self text em,
     Py.contains "010"%char text = false →
     (print self text "" "" false em).2 = emitted em text) ∧
  (∀ op self em,
     is_expression op = false →
     print_expr attr_str op self em
     = (Raise Py.AssertionError,
        reported em ("<class '" +:+ class_of op +:+ "'>"))) ∧
  (∀ v self em,
     print_owner attr_str (BlockArgument v) self em
     = (Raise Py.AssertionError,
        reported em "<class 'xdsl.ir.core.Block'>")) ∧
  (∀ val arr idxs self em,
     owner_is_expression val = false →
     (print_op uses attr_str DYNAMIC_INDEX (StoreOp val arr idxs) self em).1
     = Raise Py.AssertionError) ∧
  (∀ cond t f self em,
     owner_is_expression cond = false →
     (print_op uses attr_str DYNAMIC_INDEX (IfOp cond t f) self em).1
     = Raise Py.AssertionError) ∧
  (∀ callee arg args res self em,
     owner_is_expression arg = false →
     (print_op uses attr_str DYNAMIC_INDEX
        (CallOp callee (arg :: args) res) self em).1
     = Raise Py.AssertionError) ∧
  (∀ callee args res self em,
     Exists (λ a, owner_is_expression a = false) args →
     ∃ e, (print_op uses attr_str DYNAMIC_INDEX
             (CallOp callee args res) self em).1 = Raise e).
Proof.
  split_and!.
  - done.
  - intros arr idxs res self em. simpl.
    by destruct (_get_variable_name_for self (value_of arr) None).
  - apply print_bare.
  - apply print_expr_other.
  - done.
  - apply print_op_store_other.
  - apply print_op_if_other.
  - apply print_op_call_first_other.
  - apply print_op_call_other.
Qed.

(** C3 (as amended). Materialization: a constant, a load and an integer
    comparison get no statement of their own: [print_op] prints nothing for
    them and leaves the context as it is.  Their text is written inside the
    statement that consumes them: an assignment prints its left-hand side,
    then the stored value through [print_owner], then ends the line; a
    conditional prints [if (], then its test through [print_owner]. *)
Theorem expressions_are_inlined :
  (∀ op self em,
     is_expression op = true →
     print_op uses attr_str DYNAMIC_INDEX op self em = (Ok self, em)) ∧
  (∀ val arr self em self' em',
     print_op uses attr_str DYNAMIC_INDEX (StoreOp val arr []) self em
     = (Ok self', em') →
     ∃ em1,
       print_owner attr_str val
         (_get_variable_name_for self (value_of arr) None).1
         (print (_get_variable_name_for self (value_of arr) None).1
            ((_get_variable_name_for self (value_of arr) None).2 +:+ " = ")
            "" "" true em).2
       = (Ok self', em1)
       ∧ em' = (print_line self' "" em1).2) ∧
  (∀ cond t f self em self' em',
     print_op uses attr_str DYNAMIC_INDEX (IfOp cond t f) self em
     = (Ok self', em') →
     ∃ em1, print_owner attr_str cond self (print self "if (" "" "" true em).2
            = (Ok self', em1)).
Proof.
  split_and!.
  - apply print_op_expression.
  - intros val arr self em self' em'. rewrite print_op_store.
    destruct (_get_variable_name_for self (value_of arr) None) as [self1 name].
    simpl. rewrite after_print. intros H.
    apply emit_bind_ok in H as (self2 & em1 & H1 & H).
    unfold print_line in H. rewrite after_print in H.
    injection H as -> <-. by exists em1.
  - apply print_op_if_context.
Qed.

(** C5 (as amended). Scoping: the inner context starts from the outer
    one's bindings and from the current value of its counter, one indent
    deeper; it works on the emitter state of the outer context (output and
    operator tables), which the outer context takes back as the inner one
    left it.  The bindings and the counter are the inner context's own: the
    context after a conditional is the one its test left, and the context
    after a subroutine is the one before it, whatever was named or counted
    inside; so a hint that only an inner scope took is free in the outer
    scope and a later request there gets it verbatim. *)
Theorem descend_isolates_bindings :
  (∀ self,
     variables (inner_context self) = variables self ∧
     _counter (inner_context self) = _counter self ∧
     _prefix (inner_context self) = _prefix self +:+ _INDENT) ∧
  (∀ (self : ftnPrintContext) (body : ftnPrintContext → Emit unit) em,
     descend self None None body em = body (inner_context self) em) ∧
  (∀ cond t f self em self' em',
     print_op uses attr_str DYNAMIC_INDEX (IfOp cond t f) self em
     = (Ok self', em') →
     ∃ em1, print_owner attr_str cond self (print self "if (" "" "" true em).2
            = (Ok self', em1)) ∧
  (∀ name ty body self em self' em',
     print_op uses attr_str DYNAMIC_INDEX (FuncOp name ty body) self em
     = (Ok self', em') →
     self' = self) ∧
  (∀ self val h,
     variables self !! ssa_id val = None →
     h ∉ (map_img (variables self) : gset string) →
     _get_variable_name_for self val (Some h)
     = (mkContext (_prefix self) (<[ssa_id val := h]> (variables self))
          (_counter self), h)).
Proof.
  split_and!.
  - done.
  - intros self body em. unfold descend.
    rewrite emit_ret_bind, emit_bind_eq.
    by destruct (body (inner_context self) em) as [[[]|e] em1].
  - apply print_op_if_context.
  - apply print_op_func_context.
  - intros self val h Hv Hh. rewrite name_for_unbound by done.
    unfold chosen, wanted_hint. by rewrite decide_True.
Qed.

End emitter_facts.

Section emitter_examples.
Import ir print_ftn naming emitting.

(** C3, counterexample: the constant produces a value, yet [print_op]
    prints nothing for it, and a block holding the constant and the store
    that consumes it prints the single line [v0 = 0], the constant's text
    inside the assignment. *)
Lemma constant_gets_no_statement :
  results ex_zero = [ex_zero_value] ∧
  print_op no_uses no_text (-1) ex_zero root_context new_emitter
  = (Ok root_context, new_emitter) ∧
  (print_block no_uses no_text (-1) [ex_zero; ex_store]
     root_context new_emitter).2
  = emitted new_emitter ("v0 = 0" +:+ newline).
Proof. split_and!; [done|done|]. vm_compute. reflexivity. Qed.

(** C5, counterexample: inside the conditional the store names the buffer
    [v0] and the inner counter goes to 1; after the conditional the outer
    counter is still 0 and the buffer has no name, so that the outer scope
    synthesizes [v0] once more.  A counter shared with the inner context
    would stand at 1. *)
Lemma inner_counter_is_not_shared :
  match print_block no_uses no_text (-1) [ex_store]
          (inner_context root_context) new_emitter,
        print_op no_uses no_text (-1) ex_conditional root_context new_emitter
  with
  | (Ok inner, _), (Ok outer, _) =>
      variables inner !! 11 = Some "v0" ∧ _counter inner = 1 ∧
      variables outer !! 11 = None ∧ _counter outer = 0 ∧
      (_get_variable_name_for outer ex_buffer None).2 = "v0"
  | _, _ => False
  end.
Proof. vm_compute. done. Qed.

End emitter_examples.

(** ** Names and slots *)
Section naming_and_slots.
Import ir print_ftn naming emitting.

Variable uses : SSAValue → list Operation.
Variable attr_str : Attribute → string.
Variable DYNAMIC_INDEX : Z.

(** C7 (as amended). Naming: [_get_variable_name_for] leaves a value that
    has a name with it, and the context as it is; a value without one gets
    a name that no value of the context (the current scope and, through
    the copy made on descent, the enclosing ones) has; that name is the
    hint (the one passed, else the node's own) exactly when the hint is not
    taken, and otherwise the prefix (the node's own hint, else ["v"];
    never a hint that was passed) followed by the first counter value at or
    after the current one whose name is free, the counter ending one past
    it; it changes no binding.  Hence the names handed out along a chain of
    such requests and descents that starts at a root context are pairwise
    distinct for distinct values, and equal for the same value.  (The
    emitter never passes a hint of its own.)  An allocation node is named
    outside this function: when its first user is a return, [print_op]
    binds it to [arg_] and its position in the return, whatever names are
    taken and whether or not it has a name already. *)
Theorem names_assigned_once_and_distinct :
  (∀ self val hint n,
     variables self !! ssa_id val = Some n →
     _get_variable_name_for self val hint = (self, n)) ∧
  (∀ self val hint w n,
     variables self !! w = Some n →
     variables (_get_variable_name_for self val hint).1 !! w = Some n) ∧
  (∀ self val hint,
     variables self !! ssa_id val = None →
     let taken : gset string := map_img (variables self) in
     let name := (_get_variable_name_for self val hint).2 in
     let after := (_get_variable_name_for self val hint).1 in
     variables after = <[ssa_id val := name]> (variables self) ∧
     (name ∉ taken) ∧
     (∀ h, wanted_hint val hint = Some h → (name = h ↔ h ∉ taken)) ∧
     (∀ h, wanted_hint val hint = Some h → h ∉ taken →
           _counter after = _counter self) ∧
     ((∀ h, wanted_hint val hint = Some h → h ∈ taken) →
        ∃ k, _counter self ≤ k ∧
             name = default "v" (name_hint val) +:+ pretty k ∧
             _counter after = S k ∧
             ∀ j, _counter self ≤ j < k →
                  default "v" (name_hint val) +:+ pretty j ∈ taken)) ∧
  (∀ val, wanted_hint val None = name_hint val) ∧
  (∀ steps i1 n1 i2 n2,
     (i1, n1) ∈ (run_chain root_context steps).2 →
     (i2, n2) ∈ (run_chain root_context steps).2 →
     (n1 = n2 ↔ i1 = i2)) ∧
  (∀ arr arguments others arg_idx self em,
     uses arr = ReturnOp arguments :: others →
     find_ret_ssa_idx arguments arr 0 = Some arg_idx →
     print_op uses attr_str DYNAMIC_INDEX (AllocaOp arr) self em
     = (Ok (mkContext (_prefix self)
              (<[ssa_id arr := "arg_" +:+ pretty arg_idx]> (variables self))
              (_counter self)), em)).
Proof.
  split_and!.
  - apply name_for_bound.
  - apply name_for_keeps.
  - intros self val hint Hv. simpl. rewrite name_for_unbound by done. simpl.
    split_and!.
    + done.
    + apply chosen_not_taken.
    + apply chosen_hint.
    + intros h Hh Hfree. unfold chosen. rewrite Hh. by case_decide.
    + intros Htaken.
      destruct (chosen_synthesized self val hint Htaken) as (k & ? & -> & ?).
      by exists k.
  - done.
  - intros steps i1 n1 i2 n2 H1 H2.
    assert (names_distinct root_context) as Hroot.
    { intros i j n. unfold root_context. simpl. by rewrite lookup_empty. }
    destruct (run_chain_sound steps root_context Hroot) as (Hd & _ & Hlog).
    apply Hlog in H1, H2. split; [intros ->; by eapply Hd|].
    intros ->. congruence.
  - intros arr arguments others arg_idx self em Huses Hidx.
    simpl. by rewrite Huses, Hidx.
Qed.

End naming_and_slots.

Section naming_examples.
Import ir print_ftn naming emitting.

(** C7, counterexample: in one function body, the buffer hinted [arg_0]
    is named [arg_0] by the store into it, and the buffer returned is then
    bound to [arg_0] as well: two values of one scope chain carry the same
    name.  And a value without hint of its own for which the taken hint
    [x] is passed is named [v0], not [x0]. *)
Lemma slot_binding_reuses_a_name :
  match print_block ex_uses no_text (-1) ex_body root_context new_emitter with
  | (Ok self, em) =>
      variables self !! ssa_id ex_hinted = Some "arg_0" ∧
      variables self !! ssa_id ex_returned = Some "arg_0" ∧
      output em = "arg_0 = 0" +:+ newline
  | (Raise _, _) => False
  end ∧
  (run_chain root_context
     [NameFor (mkSSA 1 i32 None) (Some "x");
      NameFor (mkSSA 2 i32 None) (Some "x")]).2
  = [(1, "x"); (2, "v0")].
Proof. split; vm_compute; done. Qed.

End naming_examples.

(** ** The phase subroutine generator *)
Section generator_facts.
Import ir ccpp_descriptors suite_cap generated.

Lemma gen_bind_ok {A B} (m : Gen A) (k : A → Gen B) n b n' :
  (m ≫= k) n = Ok (b, n') → ∃ a n1, m n = Ok (a, n1) ∧ k a n1 = Ok (b, n').
Proof.
  unfold mbind, gen_bind. destruct (m n) as [[a n1]|e]; [eauto|done].
Qed.

Lemma gen_bind_raise_l {A B} (m : Gen A) (k : A → Gen B) n e :
  m n = Raise e → (m ≫= k) n = Raise e.
Proof. unfold mbind, gen_bind. by intros ->. Qed.

Lemma gen_bind_step {A B} (m : Gen A) (k : A → Gen B) n a n1 :
  m n = Ok (a, n1) → (m ≫= k) n = k a n1.
Proof. unfold mbind, gen_bind. by intros ->. Qed.

Lemma lift_ok {A} (r : Py.result A) n a n' :
  lift r n = Ok (a, n') → r = Ok a ∧ n' = n.
Proof. unfold lift. destruct r; naive_solver. Qed.

Lemma lift_eq {A} (r : Py.result A) n :
  lift r n = match r with Ok a => Ok (a, n) | Raise e => Raise e end.
Proof. done. Qed.

Ltac gen_unfold H :=
  cbv [mbind gen_bind mret gen_ret new_value lift
       ConstantOp_from_int_and_width AllocaOp_get CmpiOp_new IfOp_new
       CopyOp_new SSAValue_get results result_bind Py.bind] in H.

(** *** Consistency of the required variables *)

Lemma getAttr_raise attrs key e :
  getAttr attrs key = Raise e → e = Py.AssertionError.
Proof.
  unfold getAttr, Py.assert, Py.mem, Py.item.
  destruct (Py.get attrs key); simpl; by intros [= <-].
Qed.

Lemma register_arguments_ok fn_args : ∀ req req',
  register_arguments fn_args req = Ok req' →
  (∀ k v, Py.get req k = Some v → Py.get req' k = Some v) ∧
  (∀ a, a ∈ fn_args →
     ∃ first, Py.get req' (arg_name a) = Some first ∧ agrees a first).
Proof.
  induction fn_args as [|fn_arg rest IH]; intros req req' H; simpl in H.
  { injection H as ->. split; [done|]. intros a []%elem_of_nil. }
  destruct (Py.mem req (arg_name fn_arg)) eqn:Hmem.
  - apply result_bind_ok in H as (ty & Hty & H).
    apply result_bind_ok in H as (first & Hfirst & H).
    apply result_bind_ok in H as (ty0 & Hty0 & H).
    apply result_bind_ok in H as ([] & Heq & H).
    apply assert_ok, bool_decide_eq_true in Heq as <-.
    apply item_ok in Hfirst.
    destruct (IH _ _ H) as [Hkeep Hargs]. split; [done|].
    intros a [->|Hin]%elem_of_cons; [|by apply Hargs].
    exists first. split; [by apply Hkeep|]. right. eauto.
  - destruct (IH _ _ H) as [Hkeep Hargs]. split.
    + intros k v Hk. apply Hkeep. rewrite get_set_ne; [done|].
      intros <-. assert (Py.mem req (arg_name fn_arg) = true); [|congruence].
      apply mem_get. eauto.
    + intros a [->|Hin]%elem_of_cons; [|by apply Hargs].
      exists fn_arg. split; [|by left]. apply Hkeep, get_set_eq.
Qed.

Lemma register_arguments_raise fn_args : ∀ req e,
  register_arguments fn_args req = Raise e → e = Py.AssertionError.
Proof.
  induction fn_args as [|fn_arg rest IH]; intros req e H; simpl in H; [done|].
  destruct (Py.mem req (arg_name fn_arg)) eqn:Hmem; [|by eapply IH].
  apply result_bind_raise in H as [H|(ty & _ & H)];
    [by eapply getAttr_raise|].
  apply result_bind_raise in H as [H|(first & _ & H)].
  { apply mem_get in Hmem as [v Hv]. unfold Py.item in H. by rewrite Hv in H. }
  apply result_bind_raise in H as [H|(ty0 & _ & H)];
    [by eapply getAttr_raise|].
  apply result_bind_raise in H as [H|([] & _ & H)]; [|by eapply IH].
  unfold Py.assert in H. by case_bool_decide; simplify_eq.
Qed.

Lemma required_arguments_ok scheme_names arg_tables : ∀ req req',
  required_arguments scheme_names arg_tables req = Ok req' →
  (∀ k v, Py.get req k = Some v → Py.get req' k = Some v) ∧
  (∀ s t a, s ∈ scheme_names → Py.get arg_tables s = Some t →
      a ∈ getFunctionArguments t →
      ∃ first, Py.get req' (arg_name a) = Some first ∧ agrees a first).
Proof.
  induction scheme_names as [|s0 rest IH]; intros req req' H; simpl in H.
  { injection H as ->. split; [done|]. intros ??? []%elem_of_nil. }
  apply result_bind_ok in H as (t0 & Ht0 & H). apply item_ok in Ht0.
  apply result_bind_ok in H as (req0 & Hreg & H).
  apply register_arguments_ok in Hreg as [Hkeep0 Hargs0].
  destruct (IH _ _ H) as [Hkeep Hargs]. split; [by eauto|].
  intros s t a [->|Hin]%elem_of_cons Ht Ha; [|by eauto].
  assert (t = t0) as -> by congruence.
  destruct (Hargs0 a Ha) as (first & Hfirst & Hagree). eauto.
Qed.

Lemma required_arguments_raise scheme_names arg_tables : ∀ req e,
  (∀ s, s ∈ scheme_names → is_Some (Py.get arg_tables s)) →
  required_arguments scheme_names arg_tables req = Raise e →
  e = Py.AssertionError.
Proof.
  induction scheme_names as [|s0 rest IH]; intros req e Hall H; simpl in H;
    [done|].
  apply result_bind_raise in H as [H|(t0 & _ & H)].
  { destruct (Hall s0) as [t Ht]; [by left|].
    unfold Py.item in H. by rewrite Ht in H. }
  apply result_bind_raise in H as [H|(req0 & _ & H)];
    [by eapply register_arguments_raise|].
  eapply IH; [|done]. intros s Hs. apply Hall. by right.
Qed.

(** A table stored under a name that no later scheme has stays there. *)
Lemma resolve_tables_keeps self rest post : ∀ d d' s t,
  s ∉ rest → Py.get d s = Some t →
  resolve_tables self rest post d = Ok d' → Py.get d' s = Some t.
Proof.
  induction rest as [|s1 rest IH]; intros d d' s t Hnin Hd H; simpl in H.
  { by injection H as <-. }
  apply not_elem_of_cons in Hnin as [Hne Hnin].
  apply result_bind_ok in H as (t1 & Ht1 & H).
  eapply IH; [done| |done]. by rewrite get_set_ne.
Qed.

Lemma resolve_tables_ok self scheme_names post : ∀ d d',
  resolve_tables self scheme_names post d = Ok d' →
  ∀ s, s ∈ scheme_names →
    ∃ t, getArgumentTable self s (s +:+ post) = Ok t ∧ Py.get d' s = Some t.
Proof.
  induction scheme_names as [|s0 rest IH]; intros d d' H s Hs; simpl in H.
  { by apply elem_of_nil in Hs. }
  apply result_bind_ok in H as (t0 & Ht0 & H).
  destruct (decide (s ∈ rest)) as [Hin|Hnin]; [by eapply IH|].
  apply elem_of_cons in Hs as [->|?]; [|done].
  exists t0. split; [done|].
  eapply resolve_tables_keeps; [done| |done]. apply get_set_eq.
Qed.

(** C4 (as amended). Consistency: when two schemes of the suite declare an
    argument of the same name with different declared types, the generator
    raises and returns no subroutine; if every scheme's argument table
    resolves, what it raises is the assertion failure of the type
    comparison.  (Only the declared type is compared.) *)
Theorem type_mismatch_is_fatal
    self suite post gpost n s1 s2 t1 t2 a1 a2 ty1 ty2 :
  s1 ∈ getSchemeNames suite → s2 ∈ getSchemeNames suite →
  getArgumentTable self s1 (s1 +:+ post) = Ok t1 →
  getArgumentTable self s2 (s2 +:+ post) = Ok t2 →
  a1 ∈ getFunctionArguments t1 → a2 ∈ getFunctionArguments t2 →
  arg_name a1 = arg_name a2 →
  getAttr (arg_attrs a1) "type" = Ok ty1 →
  getAttr (arg_attrs a2) "type" = Ok ty2 →
  ty1 ≠ ty2 →
  ∃ e, generateSubroutineCall self suite post gpost n = Raise e ∧
       (∀ tables,
          resolve_tables self (getSchemeNames suite) post [] = Ok tables →
          e = Py.AssertionError).
Proof.
  intros Hs1 Hs2 Ht1 Ht2 Ha1 Ha2 Hname Hty1 Hty2 Hne.
  unfold generateSubroutineCall.
  destruct (resolve_tables self (getSchemeNames suite) post []) as [tables|e]
    eqn:Hres.
  2:{ exists e. split; [|done]. by apply gen_bind_raise_l. }
  erewrite gen_bind_step by (by rewrite lift_eq).
  unfold generateVariableCreation.
  destruct (required_arguments (getSchemeNames suite) tables []) as [req|e]
    eqn:Hreq.
  - exfalso.
    destruct (resolve_tables_ok _ _ _ _ _ Hres s1 Hs1) as (t1' & Ht1' & Hg1).
    destruct (resolve_tables_ok _ _ _ _ _ Hres s2 Hs2) as (t2' & Ht2' & Hg2).
    assert (t1' = t1) as -> by congruence.
    assert (t2' = t2) as -> by congruence.
    apply required_arguments_ok in Hreq as [_ Hargs].
    destruct (Hargs s1 t1 a1 Hs1 Hg1 Ha1) as (f1 & Hf1 & Hag1).
    destruct (Hargs s2 t2 a2 Hs2 Hg2 Ha2) as (f2 & Hf2 & Hag2).
    rewrite Hname in Hf1. assert (f2 = f1) as -> by congruence.
    destruct Hag1 as [->|(ty & ? & ?)], Hag2 as [?|(ty' & ? & ?)];
      simplify_eq; congruence.
  - exists e. split.
    + apply gen_bind_raise_l, gen_bind_raise_l. by rewrite lift_eq.
    + intros ? [= <-]. eapply required_arguments_raise; [|done].
      intros s Hs. destruct (resolve_tables_ok _ _ _ _ _ Hres s Hs) as (?&?&?).
      eauto.
Qed.

(** C4, witness: schemes [R] and [T] declare [x] as [real] and as
    [integer]. *)
Lemma type_mismatch_is_fatal_witness :
  ∃ e, generateSubroutineCall pass_K (suite_of "R" "T") "_init" None 0
       = Raise e ∧
       (∀ tables,
          resolve_tables pass_K (getSchemeNames (suite_of "R" "T")) "_init" []
          = Ok tables →
          e = Py.AssertionError).
Proof.
  apply (type_mismatch_is_fatal pass_K (suite_of "R" "T") "_init" None 0
           "R" "T" R_init T_init
           (argument "x" "real" "in") (argument "x" "integer" "in")
           "real" "integer").
  - vm_compute. apply list_elem_of_here.
  - vm_compute. apply list_elem_of_further, list_elem_of_here.
  - vm_compute. reflexivity.
  - vm_compute. reflexivity.
  - vm_compute. apply list_elem_of_here.
  - vm_compute. apply list_elem_of_here.
  - reflexivity.
  - vm_compute. reflexivity.
  - vm_compute. reflexivity.
  - discriminate.
Defined.

(** C4, counterexample: schemes [P] and [Q] declare [msg] as a character
    buffer of length 10 and of length 20; the generator raises nothing and
    allocates the buffer with the first length. *)
Lemma kind_mismatch_is_accepted :
  Py.get (arg_attrs (buffer "msg" "len=10")) "kind"
  ≠ Py.get (arg_attrs (buffer "msg" "len=20")) "kind" ∧
  match generateSubroutineCall pass_K (suite_of "P" "Q") "_init" None 0 with
  | Ok (FuncOp name (FunctionType _ outputs) _, _, _) =>
      name = "K_suite_init" ∧
      outputs = [MemRefType i8 [10%Z]; MemRefType i32 []]
  | _ => False
  end.
Proof. split; [discriminate|]. vm_compute. done. Qed.

(** *** Shape of the generated body *)

Lemma allocate_allocas args : ∀ d n d' n',
  allocate args d n = Ok (d', n') →
  Forall is_alloca (Py.values d) → Forall is_alloca (Py.values d').
Proof.
  induction args as [|arg rest IH]; intros d n d' n' H Hd; simpl in H.
  { by injection H as -> _. }
  apply gen_bind_ok in H as (ty & n1 & _ & H).
  apply gen_bind_ok in H as (shape & n2 & _ & H).
  apply gen_bind_ok in H as (base & n3 & _ & H).
  apply gen_bind_ok in H as (op & n4 & Hop & H).
  eapply IH; [done|]. apply values_set_Forall; [done|].
  gen_unfold Hop. injection Hop as <- _. by eexists.
Qed.

Lemma generateVariableCreation_allocas names tables n d n' :
  generateVariableCreation names tables n = Ok (d, n') →
  Forall is_alloca (Py.values d).
Proof.
  intros H. apply gen_bind_ok in H as (req & n1 & _ & H).
  eapply allocate_allocas; [done|]. constructor.
Qed.

Lemma mapM_get_allocas (slots ops : list Operation) :
  Forall is_alloca slots → Forall (λ o, o ∈ slots) ops →
  ∃ vs, ops = AllocaOp <$> vs ∧ Forall (λ v, AllocaOp v ∈ slots) vs ∧
        mapM SSAValue_get ops = Ok (slot <$> vs).
Proof.
  intros Hs. induction 1 as [|o ops Ho _ (vs & -> & Hvs & Hm)].
  { by exists []. }
  rewrite Forall_forall in Hs. destruct (Hs o Ho) as [v ->].
  exists (v :: vs). split_and!; [done|by constructor|].
  rewrite mapM_result_cons, Hm. done.
Qed.

Lemma call_arguments_ok args data_ops : ∀ ins tys outs ins' tys' outs',
  call_arguments args data_ops ins tys outs = Ok (ins', tys', outs') →
  Forall (λ o, o ∈ Py.values data_ops) ins →
  Forall (λ o, o ∈ Py.values data_ops) outs →
  Forall (λ o, o ∈ Py.values data_ops) ins' ∧
  Forall (λ o, o ∈ Py.values data_ops) outs'.
Proof.
  induction args as [|arg rest IH]; intros ins tys outs ins' tys' outs' H Hi Ho;
    simpl in H.
  { by injection H as <- <- <-. }
  apply result_bind_ok in H as (intent & _ & H).
  destruct (_ || _).
  - apply result_bind_ok in H as (op & Hop%item_ok%get_values & H).
    eapply IH; [done| |done]. apply Forall_app. by repeat constructor.
  - case_bool_decide; [|by eapply IH].
    apply result_bind_ok in H as (op & Hop%item_ok%get_values & H).
    apply result_bind_ok in H as (r & _ & H).
    eapply IH; [done..|]. apply Forall_app. by repeat constructor.
Qed.

Lemma copy_back_ok slots call : ∀ outs idx copies,
  Forall is_alloca slots → Forall (λ o, o ∈ slots) outs →
  copy_back call idx outs = Ok copies →
  Forall (is_copy_back slots call) copies.
Proof.
  induction outs as [|out outs IH]; intros idx copies Hs Ho H; simpl in H.
  { injection H as <-. constructor. }
  apply Forall_cons in Ho as [Hout Ho].
  apply result_bind_ok in H as (src & Hsrc & H).
  apply result_bind_ok in H as (op & Hop & H).
  apply result_bind_ok in H as (ops & Hops & H). injection H as <-.
  constructor; [|by eapply IH].
  rewrite Forall_forall in Hs. destruct (Hs out Hout) as [dst ->].
  gen_unfold Hop. injection Hop as <-. unfold result_at in Hsrc.
  destruct (results call !! idx) as [r|] eqn:Hr; [|done].
  injection Hsrc as <-. exists r, dst. split_and!; [|done..].
  by eapply list_elem_of_lookup_2.
Qed.

Lemma scheme_block_shape callee arg_table data_ops n ops n' :
  Forall is_alloca (Py.values data_ops) →
  generateSchemeSubroutineCallOps callee arg_table data_ops n = Ok (ops, n') →
  ∃ errflg, Py.get data_ops "errflg" = Some (AllocaOp errflg) ∧
            guarded_call (Py.values data_ops) errflg callee ops.
Proof.
  intros Hs H. unfold generateSchemeSubroutineCallOps in H.
  apply gen_bind_ok in H as ([[ins tys] outs] & n1 & Hargs & H).
  apply lift_ok in Hargs as [Hargs ->].
  apply call_arguments_ok in Hargs as [Hins Houts]; [|constructor..].
  apply gen_bind_ok in H as ([] & n1 & _ & H).
  apply gen_bind_ok in H as (call & n2 & Hcall & H).
  apply gen_bind_ok in H as (copies & n3 & Hcopies & H).
  apply lift_ok in Hcopies as [Hcopies ->].
  apply gen_bind_ok in H as (zero & n3 & Hzero & H).
  apply gen_bind_ok in H as (errflg & n4 & Herr & H).
  apply lift_ok in Herr as [Herr%item_ok ->].
  apply gen_bind_ok in H as (load & n4 & Hload & H).
  apply gen_bind_ok in H as (cmp & n5 & Hcmp & H).
  apply gen_bind_ok in H as (cond & n6 & Hcond & H).
  apply lift_ok in Hcond as [Hcond ->]. injection H as <- _.
  (* the call *)
  destruct (mapM_get_allocas _ _ Hs Hins) as (args & -> & Hargs & Hget).
  unfold CallOp_new in Hcall. rewrite Hget in Hcall.
  erewrite gen_bind_step in Hcall by done.
  apply gen_bind_ok in Hcall as (res & n7 & _ & Hcall).
  gen_unfold Hcall. injection Hcall as <- _.
  (* the guard *)
  pose proof (get_values _ _ _ Herr) as Hin.
  rewrite Forall_forall in Hs. destruct (Hs _ Hin) as [ev ->].
  gen_unfold Hzero. injection Hzero as <- <-.
  unfold LoadOp_get in Hload. gen_unfold Hload. simpl in Hload.
  destruct (ssa_type ev) as [| | | |elem shape| | | | |] eqn:Hty; try done.
  injection Hload as <- <-. gen_unfold Hcmp. injection Hcmp as <- _.
  gen_unfold Hcond. injection Hcond as <-.
  exists ev. split; [done|].
  eexists _, _, _, args, res, copies. split_and!; [done| |done].
  eapply copy_back_ok; [|done..]. by apply Forall_forall.
Qed.

Lemma scheme_calls_shape self names post tables data_ops :
  ∀ call_ops sigs n call_ops' sigs' n',
  Forall is_alloca (Py.values data_ops) →
  scheme_calls self names post tables data_ops call_ops sigs n
    = Ok ((call_ops', sigs'), n') →
  ∃ blocks,
    call_ops' = call_ops ++ concat blocks ∧
    Forall2 (λ s b, ∃ errflg,
               Py.get data_ops "errflg" = Some (AllocaOp errflg) ∧
               guarded_call (Py.values data_ops) errflg (s +:+ post) b)
            names blocks.
Proof.
  induction names as [|s names IH];
    intros call_ops sigs n call_ops' sigs' n' Hs H; simpl in H.
  { gen_unfold H. injection H as <- _ _. exists []. simpl.
    by rewrite app_nil_r. }
  apply gen_bind_ok in H as ([] & n1 & _ & H).
  apply gen_bind_ok in H as (tbl & n2 & _ & H).
  apply gen_bind_ok in H as (ops & n3 & Hops & H).
  apply gen_bind_ok in H as (sigs1 & n4 & _ & H).
  apply IH in H as (blocks & -> & Hblocks); [|done].
  apply scheme_block_shape in Hops; [|done].
  exists (ops :: blocks). split; [by rewrite <-app_assoc|].
  by constructor.
Qed.

Lemma allocas_values (ops : list Operation) :
  Forall is_alloca ops → ∃ vs, ops = AllocaOp <$> vs.
Proof.
  induction 1 as [|o ops [v ->] _ [vs ->]]; [by exists []|by exists (v :: vs)].
Qed.

Lemma return_types_of_slots (vs : list SSAValue) :
  mapM (λ o, r ← result_at o 0; Ok (ssa_type (value_of r)))
       (AllocaOp <$> vs) = Ok (ssa_type <$> vs).
Proof.
  induction vs as [|v vs IH]; [done|].
  rewrite fmap_cons, mapM_result_cons, IH. done.
Qed.

Lemma mapM_get_slots (vs : list SSAValue) :
  mapM SSAValue_get (AllocaOp <$> vs) = Ok (slot <$> vs).
Proof.
  induction vs as [|v vs IH]; [done|].
  rewrite fmap_cons, mapM_result_cons, IH. done.
Qed.

(** The body of a generated subroutine: the slots, the initialization of
    the [errflg] slot, one block per scheme, the return of all slots. *)
Lemma generated_body self suite post gpost n fn decls n' :
  generateSubroutineCall self suite post gpost n = Ok ((fn, decls), n') →
  ∃ tables data_ops n1 slots errflg zero_v blocks,
    generateVariableCreation (getSchemeNames suite) tables n
    = Ok (data_ops, n1) ∧
    Py.values data_ops = AllocaOp <$> slots ∧
    Py.get data_ops "errflg" = Some (AllocaOp errflg) ∧
    fn = FuncOp (suite_name suite +:+ "_suite" +:+ default post gpost)
           (FunctionType [] (ssa_type <$> slots))
           [(AllocaOp <$> slots)
            ++ [zero_i32 zero_v;
                StoreOp (OpResult zero_v (zero_i32 zero_v)) (slot errflg) []]
            ++ concat blocks
            ++ [ReturnOp (slot <$> slots)]] ∧
    Forall2 (λ s b, guarded_call (AllocaOp <$> slots) errflg (s +:+ post) b)
            (getSchemeNames suite) blocks.
Proof.
  intros H. unfold generateSubroutineCall in H.
  apply gen_bind_ok in H as (tables & n1 & Htables & H).
  apply lift_ok in Htables as [_ ->].
  apply gen_bind_ok in H as (data_ops & n2 & Hcreate & H).
  pose proof (generateVariableCreation_allocas _ _ _ _ _ Hcreate) as Hdata.
  apply gen_bind_ok in H as (init & n3 & Hinit & H).
  apply gen_bind_ok in H as ([call_ops sigs] & n4 & Hcalls & H).
  apply gen_bind_ok in H as (ret & n5 & Hret & H).
  apply gen_bind_ok in H as (tys & n6 & Htys & H).
  gen_unfold H. injection H as <- _ _.
  apply scheme_calls_shape in Hcalls as (blocks & -> & Hblocks); [|done].
  destruct (allocas_values _ Hdata) as [slots Hslots].
  rewrite Hslots in *.
  apply lift_ok in Htys as [Htys _]. rewrite return_types_of_slots in Htys.
  injection Htys as <-.
  apply lift_ok in Hret as [Hret _]. unfold ReturnOp_new in Hret.
  rewrite mapM_get_slots in Hret. injection Hret as <-.
  unfold generateVariableInitialisations in Hinit.
  apply gen_bind_ok in Hinit as (zero & n7 & Hzero & Hinit).
  apply gen_bind_ok in Hinit as (err & n8 & Herr & Hinit).
  apply gen_bind_ok in Hinit as (store & n9 & Hstore & Hinit).
  gen_unfold Hinit. injection Hinit as <- _.
  gen_unfold Hzero. injection Hzero as <- _.
  apply lift_ok in Herr as [Herr%item_ok _].
  pose proof (get_values _ _ _ Herr) as Hin. rewrite Hslots in Hin.
  apply list_elem_of_fmap in Hin as (errflg & -> & Hin).
  apply lift_ok in Hstore as [Hstore _]. injection Hstore as <-.
  eexists tables, data_ops, n2, slots, errflg, _, blocks.
  split_and!; [done..|].
  eapply Forall2_impl; [done|]. intros s b (ev & Hev & Hg).
  by assert (ev = errflg) as -> by congruence.
Qed.

(** *** Nesting depth and the run of a body *)

Lemma block_if_depth_app a b :
  block_if_depth (a ++ b) = Nat.max (block_if_depth a) (block_if_depth b).
Proof.
  induction a as [|o a IH]; [done|]. simpl. rewrite IH. lia.
Qed.

Lemma block_if_depth_zero b :
  Forall (λ o, if_depth o = 0) b → block_if_depth b = 0.
Proof. induction 1 as [|o b Ho _ IH]; [done|]. simpl. rewrite Ho, IH. done. Qed.

Lemma if_depth_function name ty body :
  if_depth (FuncOp name ty [body]) = block_if_depth body.
Proof. simpl. unfold block_if_depth. lia. Qed.

Lemma if_depth_conditional cond body :
  if_depth (IfOp cond [body] []) = S (block_if_depth body).
Proof. simpl. unfold block_if_depth. lia. Qed.

Lemma guarded_call_depth slots errflg callee ops :
  guarded_call slots errflg callee ops →
  (∃ head cond args res rest,
     ops = head ++ [IfOp cond [CallOp callee args res :: rest] []]
     ∧ block_if_depth head = 0
     ∧ block_if_depth (CallOp callee args res :: rest) = 0)
  ∧ block_if_depth ops = 1.
Proof.
  intros (zv & lv & cv & args & res & copies & Hargs & Hcopies & ->).
  assert (block_if_depth (CallOp callee (slot <$> args) res
                            :: copies ++ [YieldOp []]) = 0) as Hbody.
  { apply block_if_depth_zero. constructor; [done|].
    apply Forall_app. split; [|by repeat constructor].
    eapply Forall_impl; [done|]. by intros ? (?&?&?&?&->). }
  split.
  - by eexists [_; _; _], _, _, _, _.
  - change (block_if_depth [?a; ?b; ?c; ?d])
      with (Nat.max (if_depth a) (Nat.max (if_depth b)
              (Nat.max (if_depth c) (Nat.max (if_depth d) 0)))).
    rewrite if_depth_conditional, Hbody. done.
Qed.

Lemma blocks_depth slots errflg post names blocks :
  Forall2 (λ s b, guarded_call slots errflg (s +:+ post) b) names blocks →
  block_if_depth (concat blocks) = Nat.min 1 (length names).
Proof.
  induction 1 as [|s b names blocks Hb _ IH]; [done|].
  simpl. rewrite block_if_depth_app, IH.
  destruct (guarded_call_depth _ _ _ _ Hb) as [_ ->].
  destruct (length names); done.
Qed.



(** *** Two runs of the generator *)

Lemma shifts_add φ n m d : shifts φ n m → shifts φ (n + d) (m + d).
Proof. intros H k. rewrite <-!Nat.add_assoc. apply H. Qed.

Lemma same_run_bind {A B} (RA : A → A → Prop) (RB : B → B → Prop)
    (m1 m2 : Gen A) (k1 k2 : A → Gen B) n m :
  same_run RA n m (m1 n) (m2 m) →
  (∀ a1 a2 d, RA a1 a2 →
     same_run RB (n + d) (m + d) (k1 a1 (n + d)) (k2 a2 (m + d))) →
  same_run RB n m ((m1 ≫= k1) n) ((m2 ≫= k2) m).
Proof.
  intros Hm Hk. unfold mbind, gen_bind, same_run in *.
  destruct (m1 n) as [[a1 n1]|e]; [|by rewrite Hm].
  destruct Hm as (a2 & d & -> & -> & HR).
  specialize (Hk a1 a2 d HR).
  destruct (k1 a1 (n + d)) as [[b1 n2]|e]; [|done].
  destruct Hk as (b2 & d' & -> & -> & HRB).
  exists b2, (d + d'). by rewrite !Nat.add_assoc.
Qed.

Lemma same_run_lift {A} (R : A → A → Prop) (r1 r2 : Py.result A) n m :
  same_result R r1 r2 → same_run R n m (lift r1 n) (lift r2 m).
Proof.
  unfold same_result, same_run, lift. destruct r1 as [a1|e]; [|by intros ->].
  intros (a2 & -> & HR). exists a2, 0. by rewrite !Nat.add_0_r.
Qed.

Lemma same_run_ret {A} (R : A → A → Prop) (a1 a2 : A) n m :
  R a1 a2 → same_run R n m ((mret a1 : Gen A) n) ((mret a2 : Gen A) m).
Proof. intros HR. exists a2, 0. by rewrite !Nat.add_0_r. Qed.

Lemma same_run_new_value φ ty n m :
  shifts φ n m →
  same_run (λ a b, b = rename_value φ a) n m (new_value ty n) (new_value ty m).
Proof.
  intros Hφ. exists (mkSSA m ty None), 1. rewrite !Nat.add_1_r.
  split_and!; [done..|]. unfold rename_value. simpl.
  by rewrite <-(Nat.add_0_r n), Hφ, Nat.add_0_r.
Qed.

Lemma same_result_bind {A B} (RA : A → A → Prop) (RB : B → B → Prop)
    (m1 m2 : Py.result A) (k1 k2 : A → Py.result B) :
  same_result RA m1 m2 →
  (∀ a1 a2, RA a1 a2 → same_result RB (k1 a1) (k2 a2)) →
  same_result RB (m1 ≫= k1) (m2 ≫= k2).
Proof.
  intros Hm Hk. unfold same_result in Hm. destruct m1 as [a1|e]; [|by rewrite Hm].
  destruct Hm as (a2 & -> & HR). by apply Hk.
Qed.

Lemma same_result_refl {A} (r : Py.result A) : same_result (=) r r.
Proof. destruct r; simpl; eauto. Qed.

(** Pure host functions commute with renaming. *)
Lemma results_rename φ op :
  results (rename φ op) = rename_value φ <$> results op.
Proof. by destruct op. Qed.

Lemma SSAValue_get_rename φ op :
  same_result (λ a b, b = rename_operand φ a)
    (SSAValue_get op) (SSAValue_get (rename φ op)).
Proof.
  unfold SSAValue_get. rewrite results_rename.
  destruct (results op) as [|v [|??]]; simpl; eauto.
Qed.

Lemma result_at_rename φ op i :
  same_result (λ a b, b = rename_operand φ a)
    (result_at op i) (result_at (rename φ op) i).
Proof.
  unfold result_at. rewrite results_rename, list_lookup_fmap.
  destruct (results op !! i); simpl; eauto.
Qed.

Lemma mapM_rename φ ops :
  same_result (λ a b : list Operand, b = rename_operand φ <$> a)
    (mapM SSAValue_get ops) (mapM SSAValue_get (rename φ <$> ops)).
Proof.
  induction ops as [|op ops IH]; [simpl; eauto|].
  rewrite fmap_cons, !mapM_result_cons.
  eapply same_result_bind; [apply SSAValue_get_rename|].
  intros ?? ->. eapply same_result_bind; [apply IH|].
  intros ?? ->. simpl. eauto.
Qed.

Lemma get_rename_dict φ d k :
  Py.get (rename_dict φ d) k = rename φ <$> Py.get d k.
Proof.
  induction d as [|[k' v] d IH]; [done|]. simpl. by case_decide.
Qed.

Lemma item_rename_dict φ d k :
  same_result (renamed φ) (Py.item d k) (Py.item (rename_dict φ d) k).
Proof.
  unfold Py.item. rewrite get_rename_dict.
  destruct (Py.get d k); simpl; eauto. by eexists.
Qed.

Lemma set_rename_dict φ d k v :
  rename_dict φ (Py.set d k v) = Py.set (rename_dict φ d) k (rename φ v).
Proof.
  induction d as [|[k' v'] d IH]; [done|]. simpl.
  case_decide; simpl; [done|]. by rewrite <-IH.
Qed.

Lemma values_rename_dict φ d :
  Py.values (rename_dict φ d) = rename φ <$> Py.values d.
Proof. unfold Py.values, rename_dict. by rewrite <-!list_fmap_compose. Qed.

Lemma StoreOp_get_rename φ v r i :
  same_result (renamed φ) (StoreOp_get v r i)
    (StoreOp_get (rename φ v) (rename φ r) (rename φ <$> i)).
Proof.
  unfold StoreOp_get.
  eapply same_result_bind; [apply SSAValue_get_rename|]. intros ?? ->.
  eapply same_result_bind; [apply SSAValue_get_rename|]. intros ?? ->.
  eapply same_result_bind; [apply mapM_rename|]. intros ?? ->.
  simpl. by eexists.
Qed.

Lemma CopyOp_new_rename φ src dst :
  same_result (renamed φ) (CopyOp_new src dst)
    (CopyOp_new (rename_operand φ src) (rename φ dst)).
Proof.
  unfold CopyOp_new.
  eapply same_result_bind; [apply SSAValue_get_rename|]. intros ?? ->.
  simpl. by eexists.
Qed.

Lemma IfOp_new_rename φ cond body :
  same_result (renamed φ) (IfOp_new cond body)
    (IfOp_new (rename φ cond) (rename φ <$> body)).
Proof.
  unfold IfOp_new.
  eapply same_result_bind; [apply SSAValue_get_rename|]. intros ?? ->.
  simpl. by eexists.
Qed.

Lemma ReturnOp_new_rename φ ops :
  same_result (renamed φ) (ReturnOp_new ops) (ReturnOp_new (rename φ <$> ops)).
Proof.
  unfold ReturnOp_new.
  eapply same_result_bind; [apply mapM_rename|]. intros ?? ->.
  simpl. by eexists.
Qed.

Lemma return_types_rename φ ops :
  mapM (λ o, r ← result_at o 0; Ok (ssa_type (value_of r))) (rename φ <$> ops)
  = mapM (λ o, r ← result_at o 0; Ok (ssa_type (value_of r))) ops.
Proof.
  induction ops as [|op ops IH]; [done|].
  rewrite fmap_cons, !mapM_result_cons, IH. f_equal.
  pose proof (result_at_rename φ op 0) as H. unfold same_result in H.
  destruct (result_at op 0) as [r|e]; [|by rewrite H].
  destruct H as (? & -> & ->). by destruct r.
Qed.

(** The generator's own functions. *)
Section two_runs.
Context (φ : nat → nat).

Lemma AllocaOp_get_rename ty shape n m :
  shifts φ n m →
  same_run (renamed φ) n m (AllocaOp_get ty shape n) (AllocaOp_get ty shape m).
Proof.
  intros Hφ. unfold AllocaOp_get.
  eapply same_run_bind; [by apply same_run_new_value|].
  intros ?? d ->. by apply same_run_ret.
Qed.

Lemma ConstantOp_rename value width n m :
  shifts φ n m →
  same_run (renamed φ) n m (ConstantOp_from_int_and_width value width n)
    (ConstantOp_from_int_and_width value width m).
Proof.
  intros Hφ. unfold ConstantOp_from_int_and_width.
  eapply same_run_bind; [by apply same_run_new_value|].
  intros ?? d ->. by apply same_run_ret.
Qed.

Lemma LoadOp_get_rename ref idxs n m :
  shifts φ n m →
  same_run (renamed φ) n m (LoadOp_get ref idxs n)
    (LoadOp_get (rename φ ref) (rename φ <$> idxs) m).
Proof.
  intros Hφ. unfold LoadOp_get.
  eapply same_run_bind; [apply same_run_lift, SSAValue_get_rename|].
  intros r ? d ->.
  eapply same_run_bind; [apply same_run_lift, mapM_rename|].
  intros i ? d' ->.
  replace (ssa_type (value_of (rename_operand φ r)))
    with (ssa_type (value_of r)) by by destruct r.
  destruct (ssa_type (value_of r)); try (by apply same_run_lift).
  eapply same_run_bind;
    [by apply same_run_new_value, shifts_add, shifts_add|].
  intros ?? d'' ->. by apply same_run_ret.
Qed.

Lemma CmpiOp_new_rename a b arg n m :
  shifts φ n m →
  same_run (renamed φ) n m (CmpiOp_new a b arg n)
    (CmpiOp_new (rename φ a) (rename φ b) arg m).
Proof.
  intros Hφ. unfold CmpiOp_new.
  eapply same_run_bind; [apply same_run_lift, SSAValue_get_rename|].
  intros ?? d ->.
  eapply same_run_bind; [apply same_run_lift, SSAValue_get_rename|].
  intros ?? d' ->.
  eapply same_run_bind;
    [by apply same_run_new_value, shifts_add, shifts_add|].
  intros ?? d'' ->. by apply same_run_ret.
Qed.

Lemma new_values_rename tys : ∀ n m,
  shifts φ n m →
  same_run (λ a b : list SSAValue, b = rename_value φ <$> a) n m
    (mapM new_value tys n) (mapM new_value tys m).
Proof.
  induction tys as [|ty tys IH]; intros n m Hφ.
  { by apply (same_run_ret (λ a b : list SSAValue, b = rename_value φ <$> a)). }
  change (mapM new_value (ty :: tys))
    with (y ← new_value ty; k ← mapM new_value tys; mret (y :: k) : Gen _).
  eapply same_run_bind; [by apply same_run_new_value|].
  intros ?? d ->.
  eapply same_run_bind; [by apply IH, shifts_add|].
  intros ?? d' ->.
  by apply (same_run_ret (λ a b : list SSAValue, b = rename_value φ <$> a)).
Qed.

Lemma CallOp_new_rename callee args tys n m :
  shifts φ n m →
  same_run (renamed φ) n m (CallOp_new callee args tys n)
    (CallOp_new callee (rename φ <$> args) tys m).
Proof.
  intros Hφ. unfold CallOp_new.
  eapply same_run_bind; [apply same_run_lift, mapM_rename|].
  intros ?? d ->.
  eapply same_run_bind; [by apply new_values_rename, shifts_add|].
  intros ?? d' ->. by apply same_run_ret.
Qed.

Lemma allocate_rename args : ∀ d n m,
  shifts φ n m →
  same_run (renamed_dict φ) n m (allocate args d n)
    (allocate args (rename_dict φ d) m).
Proof.
  induction args as [|arg args IH]; intros d n m Hφ; simpl.
  { by apply same_run_ret. }
  eapply same_run_bind; [apply same_run_lift, same_result_refl|].
  intros ty ? d1 <-.
  eapply same_run_bind; [apply same_run_lift, same_result_refl|].
  intros shape ? d2 <-.
  eapply same_run_bind; [apply same_run_lift, same_result_refl|].
  intros base ? d3 <-.
  eapply same_run_bind; [by apply AllocaOp_get_rename; repeat apply shifts_add|].
  intros op ? d4 ->. rewrite <-set_rename_dict.
  by apply IH; repeat apply shifts_add.
Qed.

Lemma generateVariableCreation_rename names tables n m :
  shifts φ n m →
  same_run (renamed_dict φ) n m (generateVariableCreation names tables n)
    (generateVariableCreation names tables m).
Proof.
  intros Hφ. unfold generateVariableCreation.
  eapply same_run_bind; [apply same_run_lift, same_result_refl|].
  intros req ? d <-. by apply (allocate_rename _ []), shifts_add.
Qed.

Lemma generateVariableInitialisations_rename d n m :
  shifts φ n m →
  same_run (renamed_list φ) n m (generateVariableInitialisations d n)
    (generateVariableInitialisations (rename_dict φ d) m).
Proof.
  intros Hφ. unfold generateVariableInitialisations.
  eapply same_run_bind; [by apply ConstantOp_rename|]. intros ?? d1 ->.
  eapply same_run_bind; [apply same_run_lift, item_rename_dict|].
  intros ?? d2 ->.
  eapply same_run_bind; [apply same_run_lift, (StoreOp_get_rename _ _ _ [])|].
  intros ?? d3 ->. by apply same_run_ret.
Qed.

Lemma call_arguments_rename args d : ∀ ins tys outs,
  same_result (λ a b, b = (rename φ <$> a.1.1, a.1.2, rename φ <$> a.2))
    (call_arguments args d ins tys outs)
    (call_arguments args (rename_dict φ d) (rename φ <$> ins) tys
       (rename φ <$> outs)).
Proof.
  induction args as [|arg args IH]; intros ins tys outs; simpl.
  { by eexists. }
  eapply same_result_bind; [apply same_result_refl|]. intros intent ? <-.
  destruct (_ || _).
  - eapply same_result_bind; [apply item_rename_dict|]. intros op ? ->.
    specialize (IH (ins ++ [op]) tys outs). by rewrite fmap_app in IH.
  - case_bool_decide; [|apply IH].
    eapply same_result_bind; [apply item_rename_dict|]. intros op ? ->.
    eapply same_result_bind; [apply result_at_rename|]. intros r ? ->.
    specialize (IH ins (tys ++ [ssa_type (value_of r)]) (outs ++ [op])).
    rewrite fmap_app in IH. by destruct r.
Qed.

Lemma copy_back_rename call outs : ∀ idx,
  same_result (renamed_list φ) (copy_back call idx outs)
    (copy_back (rename φ call) idx (rename φ <$> outs)).
Proof.
  induction outs as [|out outs IH]; intros idx; simpl.
  { by eexists. }
  eapply same_result_bind; [apply result_at_rename|]. intros ?? ->.
  eapply same_result_bind; [apply CopyOp_new_rename|]. intros ?? ->.
  eapply same_result_bind; [apply IH|]. intros ?? ->.
  by eexists.
Qed.

Lemma generateSchemeSubroutineCallOps_rename callee tbl d n m :
  shifts φ n m →
  same_run (renamed_list φ) n m
    (generateSchemeSubroutineCallOps callee tbl d n)
    (generateSchemeSubroutineCallOps callee tbl (rename_dict φ d) m).
Proof.
  intros Hφ. unfold generateSchemeSubroutineCallOps.
  eapply same_run_bind.
  { apply same_run_lift.
    apply (call_arguments_rename (getFunctionArguments tbl) d [] [] []). }
  intros [[ins tys] outs] ? d0 ->. simpl.
  eapply same_run_bind.
  { apply same_run_lift. rewrite length_fmap. apply same_result_refl. }
  intros [] ? d1 _.
  eapply same_run_bind; [by apply CallOp_new_rename; repeat apply shifts_add|].
  intros call ? d2 ->.
  eapply same_run_bind; [apply same_run_lift, copy_back_rename|].
  intros copies ? d3 ->.
  eapply same_run_bind; [by apply ConstantOp_rename; repeat apply shifts_add|].
  intros zero ? d4 ->.
  eapply same_run_bind; [apply same_run_lift, item_rename_dict|].
  intros errflg ? d5 ->.
  eapply same_run_bind;
    [by apply (LoadOp_get_rename _ []); repeat apply shifts_add|].
  intros load ? d6 ->.
  eapply same_run_bind; [by apply CmpiOp_new_rename; repeat apply shifts_add|].
  intros cmp ? d7 ->.
  eapply same_run_bind.
  { apply same_run_lift.
    pose proof (IfOp_new_rename φ cmp (call :: copies ++ [YieldOp []])) as H.
    by rewrite fmap_cons, fmap_app in H. }
  intros cond ? d8 ->. by apply same_run_ret.
Qed.

Lemma scheme_calls_rename self names post tables d : ∀ call_ops sigs n m,
  shifts φ n m →
  same_run (renamed_calls φ) n m
    (scheme_calls self names post tables d call_ops sigs n)
    (scheme_calls self names post tables (rename_dict φ d)
       (rename φ <$> call_ops) sigs m).
Proof.
  induction names as [|s names IH]; intros call_ops sigs n m Hφ; simpl.
  { by apply (same_run_ret (renamed_calls φ)). }
  eapply same_run_bind; [apply same_run_lift, same_result_refl|].
  intros [] ? d1 _.
  eapply same_run_bind; [apply same_run_lift, same_result_refl|].
  intros tbl ? d2 <-.
  eapply same_run_bind;
    [by apply generateSchemeSubroutineCallOps_rename; repeat apply shifts_add|].
  intros ops ? d3 ->.
  eapply same_run_bind; [apply same_run_lift, same_result_refl|].
  intros sigs' ? d4 <-. rewrite <-fmap_app.
  by apply IH; repeat apply shifts_add.
Qed.

Lemma generateSubroutineCall_rename self suite post gpost n m :
  shifts φ n m →
  same_run (renamed_output φ) n m
    (generateSubroutineCall self suite post gpost n)
    (generateSubroutineCall self suite post gpost m).
Proof.
  intros Hφ. unfold generateSubroutineCall.
  eapply same_run_bind; [apply same_run_lift, same_result_refl|].
  intros tables ? d1 <-.
  eapply same_run_bind;
    [by apply generateVariableCreation_rename; repeat apply shifts_add|].
  intros data ? d2 ->.
  eapply same_run_bind;
    [by apply generateVariableInitialisations_rename; repeat apply shifts_add|].
  intros init ? d3 ->.
  eapply same_run_bind.
  { by apply (scheme_calls_rename _ _ _ _ _ []); repeat apply shifts_add. }
  intros [calls sigs] ? d4 ->. simpl.
  rewrite values_rename_dict.
  eapply same_run_bind; [apply same_run_lift, ReturnOp_new_rename|].
  intros ret ? d5 ->.
  eapply same_run_bind.
  { apply same_run_lift. rewrite return_types_rename. apply same_result_refl. }
  intros tys ? d6 <-.
  apply (same_run_ret (renamed_output φ)). unfold renamed_output. simpl.
  by rewrite !fmap_app.
Qed.
End two_runs.

(** C9. Determinism: two runs of the generator on the same suite and
    metadata differ only in the identities of the values they create.  A run
    from allocator state [n2] raises what the run from state [n1] raises, or
    returns the same declarations and the same subroutine with every value
    identity moved from [n1 + k] to [n2 + k], after creating as many
    values: same slots, same order, same nesting. *)
Theorem generate_phase_deterministic self suite post gpost n1 n2 :
  match generateSubroutineCall self suite post gpost n1 with
  | Ok ((fn, decls), n1') =>
      generateSubroutineCall self suite post gpost n2
      = Ok ((rename (λ i, i - n1 + n2) fn, decls), n2 + (n1' - n1))
  | Raise e => generateSubroutineCall self suite post gpost n2 = Raise e
  end.
Proof.
  assert (shifts (λ i, i - n1 + n2) n1 n2) as Hφ by (intros k; lia).
  pose proof (generateSubroutineCall_rename _ self suite post gpost n1 n2 Hφ)
    as H.
  unfold same_run in H.
  destruct (generateSubroutineCall self suite post gpost n1)
    as [[[fn decls] n1']|e]; [|done].
  destruct H as ([fn2 decls2] & d & -> & -> & Hout).
  unfold renamed_output in Hout. simpl in Hout. injection Hout as -> ->.
  do 3 f_equal. lia.
Qed.

Example two_runs_of_the_scenario :
  generateSubroutineCall pass_S suite_S "_init" (Some "_initialize") 7
  = match generateSubroutineCall pass_S suite_S "_init"
            (Some "_initialize") 0 with
    | Ok ((fn, decls), n') => Ok ((rename (λ i, i + 7) fn, decls), n' + 7)
    | Raise e => Raise e
    end.
Proof. vm_compute. reflexivity. Qed.

(** C2 (the code departs from the claim).  For [U_init(x inout, errflg
    out)] the claim expects the operand [x] and the results [x] and
    [errflg], and [generate_function_signature] declares exactly that; the
    call the generator emits has the operand slot of [x] (identity 0) but
    only the result of [errflg].  For [V_init], whose [x] has no intent, the
    claim and the declared signature again take [x] as [inout], while the
    generator fails the assertion of [getAttr]. *)
Theorem inout_argument_is_not_a_call_result :
  spec_call_operands U_init = ["x"] ∧
  spec_call_results U_init = ["x"; "errflg"] ∧
  suite_meta.generate_function_signature U_init
  = Ok (FuncOp_external "U_init" [memref f64] [memref f64; memref i32]) ∧
  match generateSchemeSubroutineCallOps "U_init" U_init slots_x_errflg 2 with
  | Ok (ops, _) =>
      call_signature <$> call_of_block ops = Some ([0], [memref i32])
  | Raise _ => False
  end ∧
  spec_call_results V_init = ["x"; "errflg"] ∧
  suite_meta.generate_function_signature V_init
  = Ok (FuncOp_external "V_init" [memref f64] [memref f64; memref i32]) ∧
  generateSchemeSubroutineCallOps "V_init" V_init slots_x_errflg 2
  = Raise Py.AssertionError.
Proof. vm_compute. done. Qed.

End generator_facts.

(** ** Metadata units *)
Section metadata_facts.
Import ccpp_descriptors ccpp_xml metadata.

Lemma traverse_argument_op_ok md tbl arg_op :
  op_optional arg_op = false →
  traverse_argument_op (mkBMDD md tbl None) arg_op
  = Ok (mkBMDD md tbl (Some (argument_of arg_op))).
Proof.
  intros Hopt. unfold traverse_argument_op, argument_of. rewrite Hopt. simpl.
  unfold setAttr_argument, setAttr. simpl.
  destruct (op_property arg_op "standard_name"),
    (op_property arg_op "long_name"), (op_property arg_op "kind"),
    (op_property arg_op "intent"), (op_property arg_op "units"),
    (op_property arg_op "type"); reflexivity.
Qed.

Lemma traverse_arguments_ok md tbl ops : ∀ args,
  Forall (λ a, op_optional a = false) ops →
  traverse_arguments (mkBMDD md tbl None) ops args
  = Ok (mkBMDD md tbl None,
        foldl (λ d a, Py.set d (op_arg_name a) (argument_of a)) args ops).
Proof.
  induction ops as [|op ops IH]; intros args Hops; [done|].
  apply Forall_cons in Hops as [Hop Hops]. simpl.
  rewrite traverse_argument_op_ok by done. simpl. by rewrite IH.
Qed.

Lemma traverse_argument_table_op_ok md tok t :
  no_optional t →
  traverse_argument_table_op (mkBMDD md None tok) t
  = Ok (mkBMDD md (Some (op_table_name t, table_of t)) None).
Proof.
  intros Ht. unfold traverse_argument_table_op. simpl.
  rewrite traverse_arguments_ok by done. simpl.
  unfold setAttr_table, setAttr, getAttr. simpl.
  repeat (case_decide; simplify_eq; simpl); try done.
Qed.

Lemma traverse_tables_ok md ops : ∀ tables,
  Forall no_optional ops →
  traverse_tables (mkBMDD md None None) ops tables
  = Ok (mkBMDD md None None,
        foldl (λ d t, Py.set d (op_table_name t) (table_of t)) tables ops).
Proof.
  induction ops as [|op ops IH]; intros tables Hops; [done|].
  apply Forall_cons in Hops as [Hop Hops]. simpl.
  rewrite traverse_argument_table_op_ok by done. simpl. by rewrite IH.
Qed.

Lemma traverse_table_properties_op_ok md tbl op :
  Forall no_optional (op_prop_body op) →
  CCPPType (op_prop_type op) = Ok (op_prop_type op) →
  traverse_table_properties_op (mkBMDD md tbl None) op
  = Ok (mkBMDD
          (Py.set md (op_prop_name op)
             (mkTableProperties
                [("name", op_prop_name op); ("type", op_prop_type op)]
                (foldl (λ d t, Py.set d (op_table_name t) (table_of t)) []
                       (op_prop_body op))))
          None None).
Proof.
  intros Hbody Hty. unfold traverse_table_properties_op. simpl.
  rewrite traverse_tables_ok by done. simpl.
  unfold setAttr_properties. simpl. rewrite Hty. simpl.
  unfold setAttr, getAttr. simpl.
  repeat (case_decide; simplify_eq; simpl); try done.
Qed.

(** Of the tables declared under one name, the last is the one stored. *)
Lemma last_table_wins before t after :
  Forall (λ t', op_table_name t' ≠ op_table_name t) after →
  Py.get (foldl (λ d t, Py.set d (op_table_name t) (table_of t)) []
                (before ++ t :: after))
         (op_table_name t)
  = Some (table_of t).
Proof.
  rewrite foldl_app. simpl.
  generalize (foldl (λ d t, Py.set d (op_table_name t) (table_of t)) [] before).
  intros d Hafter.
  assert (Py.get (Py.set d (op_table_name t) (table_of t)) (op_table_name t)
          = Some (table_of t)) as Hd by apply get_set_eq.
  revert Hd. generalize (Py.set d (op_table_name t) (table_of t)).
  induction Hafter as [|t' after Hne _ IH]; intros d' Hd'; [done|].
  simpl. apply IH. by rewrite get_set_ne.
Qed.

Lemma append_current_table_earlier extra t tables :
  append_current_table t (extra ++ tables)
  = extra ++ append_current_table t tables.
Proof. destruct t; simpl; [by rewrite app_assoc|done]. Qed.

(** The reader handles a line without looking at the tables collected so
    far. *)
Lemma parse_line_earlier extra l line :
  parse_line (with_earlier extra l) line
  = with_earlier extra <$> parse_line l line.
Proof.
  unfold parse_line.
  destruct (_ && _).
  - unfold store_current_arg. destruct l as [p t s tables a]; simpl.
    destruct (_ || _) eqn:Hhead.
    + destruct a as [a|], t as [t|]; simpl; try done;
        repeat (case_bool_decide; simpl; try done);
        rewrite ?append_current_table_earlier; simpl;
        try done.
      all: unfold with_earlier; simpl; rewrite <-?app_assoc; try done.
      all: try (by destruct p).
    + simpl. repeat (case_bool_decide; simpl; try done).
      destruct (Py.char_at _ 0) as [c|]; simpl; [|done].
      case_bool_decide; simpl; [|done].
      destruct (Py.char_at _ (-1)) as [c'|]; simpl; [|done].
      case_bool_decide; simpl; [|done].
      destruct a as [a|], t as [t|]; simpl; done.
  - destruct l as [p t s tables a]; simpl.
    destruct (Py.assert (bool_decide (s ≠ NONE))) as [[]|]; simpl; [|done].
    destruct (Py.assert _) as [[]|]; simpl; [|done].
    destruct (Py.index _ 0) as [k|]; simpl; [|done].
    destruct (Py.index _ 1) as [v|]; simpl; [|done].
    destruct s; simpl; try done.
    + destruct p as [p|]; simpl; [|done].
      by destruct (setAttr_properties p _ _).
    + destruct t as [t|]; simpl; [|done].
      by destruct (setAttr_table t _ _).
    + by destruct a as [a|].
Qed.

Lemma parse_lines_earlier extra file : ∀ l,
  parse_lines (with_earlier extra l) file
  = with_earlier extra <$> parse_lines l file.
Proof.
  induction file as [|line file IH]; intros l; [done|]. simpl.
  rewrite parse_line_earlier. destruct (parse_line l line); simpl; [|done].
  apply IH.
Qed.

(** C8 (as amended). Argument tables are never compared by name.  The
    reader handles every line, and so every file, in the same way whatever
    tables it has collected before (it appends each finished table to its
    list); the descriptor builder, given table operations without an
    [optional] argument and a valid table kind, raises nothing and stores
    the tables by name in order of appearance, so that of several tables
    with one name the last is the one kept. *)
Theorem argument_tables_are_not_compared :
  (∀ extra l line,
     parse_line (with_earlier extra l) line
     = with_earlier extra <$> parse_line l line) ∧
  (∀ extra l file,
     parse_lines (with_earlier extra l) file
     = with_earlier extra <$> parse_lines l file) ∧
  (∀ md tbl op,
     Forall no_optional (op_prop_body op) →
     CCPPType (op_prop_type op) = Ok (op_prop_type op) →
     traverse_table_properties_op (mkBMDD md tbl None) op
     = Ok (mkBMDD
             (Py.set md (op_prop_name op)
                (mkTableProperties
                   [("name", op_prop_name op); ("type", op_prop_type op)]
                   (foldl (λ d t, Py.set d (op_table_name t) (table_of t)) []
                          (op_prop_body op))))
             None None)) ∧
  (∀ before t after,
     Forall (λ t', op_table_name t' ≠ op_table_name t) after →
     Py.get (foldl (λ d t, Py.set d (op_table_name t) (table_of t)) []
                   (before ++ t :: after))
            (op_table_name t)
     = Some (table_of t)).
Proof.
  split_and!.
  - apply parse_line_earlier.
  - intros extra l file. apply parse_lines_earlier.
  - apply traverse_table_properties_op_ok.
  - apply last_table_wins.
Qed.

(** C8, counterexample: a unit that declares the argument table
    [hello_init] twice.  The reader returns both tables; the builder
    returns the unit with one table [hello_init], the second ([errmsg]). *)
Lemma duplicate_argument_table_is_accepted :
  match parse_metadata_file twice_file true with
  | Ok md =>
      (λ t, Py.get (table_attrs t) "name") <$> md_arg_tables md
      = [Some "hello_init"; Some "hello_init"]
  | Raise _ => False
  end ∧
  match traverse_table_properties_op (mkBMDD [] None None) twice_op with
  | Ok b =>
      (λ p, (λ kt, (kt.1, Py.keys (function_arguments kt.2)))
              <$> arg_tables p)
        <$> Py.get (meta_data b) "hello"
      = Some [("hello_init", ["errmsg"])]
  | Raise _ => False
  end.
Proof. vm_compute. done. Qed.

End metadata_facts.

(** ** Dictionaries *)
Section dict_facts.

Lemma keys_set {V} (d : Py.dict V) k v :
  Py.keys (Py.set d k v)
  = if bool_decide (k ∈ Py.keys d) then Py.keys d else Py.keys d ++ [k].
Proof.
  induction d as [|[k' v'] d IH]; simpl; [done|].
  destruct (decide (k' = k)) as [Hk|Hk]; simpl.
  - subst. rewrite bool_decide_true by apply list_elem_of_here. done.
  - unfold Py.keys in *. rewrite IH. simpl.
    destruct (decide (k ∈ d.*1)) as [Hin|Hnin].
    + rewrite !bool_decide_true; [done|by right|done].
    + rewrite !bool_decide_false; [done| |done].
      intros [?|?]%elem_of_cons; congruence.
Qed.

Lemma mem_keys {V} (d : Py.dict V) k :
  Py.mem d k = bool_decide (k ∈ Py.keys d).
Proof.
  unfold Py.mem. induction d as [|[k' v'] d IH]; simpl; [done|].
  destruct (decide (k' = k)) as [Hk|Hk].
  - subst. by rewrite bool_decide_true by apply list_elem_of_here.
  - rewrite IH. apply bool_decide_ext. unfold Py.keys. simpl.
    rewrite elem_of_cons. split; [by right|intros [?|?]; [congruence|done]].
Qed.

Lemma get_keys {V} (d : Py.dict V) k :
  is_Some (Py.get d k) ↔ k ∈ Py.keys d.
Proof. rewrite <-mem_get, mem_keys. apply bool_decide_eq_true. Qed.

Lemma set_new {V} (d : Py.dict V) k v :
  k ∉ Py.keys d → Py.set d k v = d ++ [(k, v)].
Proof.
  induction d as [|[k' v'] d IH]; simpl; [done|].
  intros [Hne Hnin]%not_elem_of_cons. simpl in *.
  rewrite decide_False by done. by rewrite IH.
Qed.

End dict_facts.

(** ** The generator: slots and declarations *)
Section generator_more.
Import ir ccpp_descriptors suite_cap generated allocation.

Ltac gen_unfold H :=
  cbv [mbind gen_bind mret gen_ret new_value lift
       ConstantOp_from_int_and_width AllocaOp_get CmpiOp_new IfOp_new
       CopyOp_new SSAValue_get results result_bind Py.bind] in H.

Lemma register_arguments_first fn_args : ∀ req req',
  register_arguments fn_args req = Ok req' →
  req' = first_declared req fn_args.
Proof.
  induction fn_args as [|a rest IH]; intros req req' H; simpl in H.
  { by injection H as ->. }
  unfold first_declared. simpl. destruct (Py.mem req (arg_name a)).
  - apply result_bind_ok in H as (ty & _ & H).
    apply result_bind_ok in H as (first & _ & H).
    apply result_bind_ok in H as (ty0 & _ & H).
    apply result_bind_ok in H as ([] & _ & H). by apply IH.
  - by apply IH.
Qed.

Lemma first_declared_app req a b :
  first_declared req (a ++ b) = first_declared (first_declared req a) b.
Proof. apply foldl_app. Qed.

Lemma required_arguments_first names tables : ∀ req req',
  required_arguments names tables req = Ok req' →
  ∃ ts, mapM (Py.item tables) names = Ok ts ∧
        req' = first_declared req (concat (getFunctionArguments <$> ts)).
Proof.
  induction names as [|s names IH]; intros req req' H; simpl in H.
  { injection H as ->. by exists []. }
  apply result_bind_ok in H as (t & Ht & H).
  apply result_bind_ok in H as (req1 & Hreq1%register_arguments_first & H).
  apply IH in H as (ts & Hts & ->). exists (t :: ts).
  rewrite mapM_result_cons, Ht, Hts. split; [done|].
  simpl. by rewrite first_declared_app, Hreq1.
Qed.

(** Every declaration kept sits under its own name, once. *)
Lemma first_declared_keys args : ∀ req,
  arg_name <$> Py.values req = Py.keys req → NoDup (Py.keys req) →
  arg_name <$> Py.values (first_declared req args)
  = Py.keys (first_declared req args) ∧
  NoDup (Py.keys (first_declared req args)).
Proof.
  induction args as [|a args IH]; intros req Hreq Hnd; [done|].
  unfold first_declared. simpl. rewrite mem_keys. case_bool_decide as Hin.
  - by apply IH.
  - apply IH.
    + rewrite set_new by done. unfold Py.values, Py.keys in *.
      rewrite !fmap_app, Hreq. done.
    + rewrite keys_set, bool_decide_false by done.
      apply NoDup_app. split_and!; [done| |apply NoDup_singleton].
      intros x Hx ->%list_elem_of_singleton. done.
Qed.

Lemma allocate_slots args : ∀ d n d' n',
  allocate args d n = Ok (d', n') →
  NoDup (arg_name <$> args) →
  Forall (λ a, arg_name a ∉ Py.keys d) args →
  ∃ slots,
    d' = d ++ zip (arg_name <$> args) (AllocaOp <$> slots) ∧
    n' = n + length args ∧
    length slots = length args ∧
    Forall2 (λ a v, declared_slot a (ssa_type v)) args slots ∧
    ssa_id <$> slots = seq n (length args) ∧
    Forall (λ v, name_hint v = None) slots.
Proof.
  induction args as [|a args IH]; intros d n d' n' H Hnd Hfresh; simpl in H.
  { injection H as <- <-. exists []. simpl. rewrite app_nil_r.
    split_and!; done. }
  apply gen_bind_ok in H as (ty & n1 & Hty & H).
  apply lift_ok in Hty as [Hty ->].
  apply gen_bind_ok in H as (shape & n1 & Hshape & H).
  apply lift_ok in Hshape as [Hshape ->].
  apply gen_bind_ok in H as (base & n1 & Hbase & H).
  apply lift_ok in Hbase as [Hbase ->].
  apply gen_bind_ok in H as (op & n1 & Hop & H).
  gen_unfold Hop. injection Hop as <- <-.
  rewrite fmap_cons in Hnd. apply NoDup_cons in Hnd as [Hna Hnd].
  apply Forall_cons in Hfresh as [Ha Hfresh].
  apply IH in H as (slots & -> & -> & Hlen & Hslots & Hids & Hhints);
    [|done|].
  - exists (mkSSA n (MemRefType base shape) None :: slots).
    rewrite set_new by done. simpl. rewrite <-app_assoc. simpl.
    split_and!; try done; try lia; [|by f_equal|by constructor].
    constructor; [|done]. exists ty, base. split_and!; [done..|].
    simpl. case_decide; [|by injection Hshape as <-].
    apply result_bind_ok in Hshape as (kind & Hkind & Hshape).
    apply result_bind_ok in Hshape as (z & Hz & Hshape).
    injection Hshape as <-. by exists kind, z.
  - rewrite keys_set, bool_decide_false by done.
    apply Forall_forall. intros b Hb. rewrite Forall_forall in Hfresh.
    intros [?|Heq%list_elem_of_singleton]%elem_of_app; [by eapply Hfresh|].
    apply Hna. rewrite <-Heq. by apply list_elem_of_fmap_2.
Qed.

(** The parts of a run of [generateSubroutineCall]. *)
Lemma generated_parts self suite post gpost n fn decls n' :
  generateSubroutineCall self suite post gpost n = Ok ((fn, decls), n') →
  ∃ tables data_ops n1 slots errflg zero_v blocks sigs n2 n3,
    resolve_tables self (getSchemeNames suite) post [] = Ok tables ∧
    generateVariableCreation (getSchemeNames suite) tables n
    = Ok (data_ops, n1) ∧
    Py.values data_ops = AllocaOp <$> slots ∧
    Py.get data_ops "errflg" = Some (AllocaOp errflg) ∧
    scheme_calls self (getSchemeNames suite) post tables data_ops [] [] n2
    = Ok ((concat blocks, sigs), n3) ∧
    decls = Py.values sigs ∧
    fn = FuncOp (suite_name suite +:+ "_suite" +:+ default post gpost)
           (FunctionType [] (ssa_type <$> slots))
           [(AllocaOp <$> slots)
            ++ [zero_i32 zero_v;
                StoreOp (OpResult zero_v (zero_i32 zero_v)) (slot errflg) []]
            ++ concat blocks
            ++ [ReturnOp (slot <$> slots)]] ∧
    Forall2 (λ s b, guarded_call (AllocaOp <$> slots) errflg (s +:+ post) b)
            (getSchemeNames suite) blocks.
Proof.
  intros H. unfold generateSubroutineCall in H.
  apply gen_bind_ok in H as (tables & n1 & Htables & H).
  apply lift_ok in Htables as [Htables ->].
  apply gen_bind_ok in H as (data_ops & n2 & Hcreate & H).
  pose proof (generateVariableCreation_allocas _ _ _ _ _ Hcreate) as Hdata.
  apply gen_bind_ok in H as (init & n3 & Hinit & H).
  apply gen_bind_ok in H as ([call_ops sigs] & n4 & Hcalls & H).
  apply gen_bind_ok in H as (ret & n5 & Hret & H).
  apply gen_bind_ok in H as (tys & n6 & Htys & H).
  gen_unfold H. injection H as <- <- _.
  pose proof Hcalls as Hshape.
  apply scheme_calls_shape in Hshape as (blocks & -> & Hblocks); [|done].
  destruct (allocas_values _ Hdata) as [slots Hslots].
  rewrite Hslots in *.
  apply lift_ok in Htys as [Htys _]. rewrite return_types_of_slots in Htys.
  injection Htys as <-.
  apply lift_ok in Hret as [Hret _]. unfold ReturnOp_new in Hret.
  rewrite mapM_get_slots in Hret. injection Hret as <-.
  unfold generateVariableInitialisations in Hinit.
  apply gen_bind_ok in Hinit as (zero & n7 & Hzero & Hinit).
  apply gen_bind_ok in Hinit as (err & n8 & Herr & Hinit).
  apply gen_bind_ok in Hinit as (store & n9 & Hstore & Hinit).
  gen_unfold Hinit. injection Hinit as <- _.
  gen_unfold Hzero. injection Hzero as <- _.
  apply lift_ok in Herr as [Herr%item_ok _].
  pose proof (get_values _ _ _ Herr) as Hin. rewrite Hslots in Hin.
  apply list_elem_of_fmap in Hin as (errflg & -> & Hin).
  apply lift_ok in Hstore as [Hstore _]. injection Hstore as <-.
  eexists tables, data_ops, n2, slots, errflg, _, blocks, sigs, _, _.
  split_and!; [done..|].
  eapply Forall2_impl; [done|]. intros s b (ev & Hev & Hg).
  by assert (ev = errflg) as -> by congruence.
Qed.

Lemma mapM_result_Forall2 {A B} (f : A → Py.result B) l : ∀ k,
  mapM f l = Ok k ↔ Forall2 (λ x y, f x = Ok y) l k.
Proof.
  induction l as [|x l IH]; intros k.
  { split; [intros [= <-]; constructor|by inversion 1]. }
  rewrite mapM_result_cons. split.
  - intros H. apply result_bind_ok in H as (y & Hy & H).
    apply result_bind_ok in H as (k' & Hk' & H). injection H as <-.
    constructor; [done|by apply IH].
  - inversion 1 as [|? y ? k' Hy Hk']; subst. rewrite Hy. simpl.
    apply IH in Hk'. by rewrite Hk'.
Qed.

Lemma mapM_result_ext {A B} (f g : A → Py.result B) l :
  (∀ x, x ∈ l → f x = g x) → mapM f l = mapM g l.
Proof.
  induction l as [|x l IH]; intros H; [done|].
  rewrite !mapM_result_cons, H, IH; [done| |by left].
  intros y Hy. apply H. by right.
Qed.

Lemma first_declared_names args : ∀ req,
  Py.keys (first_declared req args)
  = foldl (λ seen x, if bool_decide (x ∈ seen) then seen else seen ++ [x])
          (Py.keys req) (arg_name <$> args).
Proof.
  induction args as [|a args IH]; intros req; [done|].
  unfold first_declared. simpl. rewrite mem_keys.
  case_bool_decide as Hin; [apply IH|].
  etrans; [apply IH|]. by rewrite keys_set, bool_decide_false.
Qed.

Lemma seen_elem (l : list string) : ∀ seen x,
  x ∈ foldl (λ seen x, if bool_decide (x ∈ seen) then seen else seen ++ [x])
            seen l
  ↔ x ∈ seen ∨ x ∈ l.
Proof.
  induction l as [|y l IH]; intros seen x; simpl.
  { rewrite elem_of_nil. tauto. }
  rewrite IH, elem_of_cons. case_bool_decide as Hy.
  - split; [tauto|]. intros [?|[->|?]]; tauto.
  - rewrite elem_of_app, list_elem_of_singleton. tauto.
Qed.

Lemma first_seen_elem l x : x ∈ first_seen l ↔ x ∈ l.
Proof. unfold first_seen. rewrite seen_elem, elem_of_nil. tauto. Qed.

Lemma no_alloca_in_blocks slots errflg post names blocks :
  Forall2 (λ s b, guarded_call slots errflg (s +:+ post) b) names blocks →
  omap alloca_value (concat blocks) = [].
Proof.
  induction 1 as [|s b names blocks Hb _ IH]; [done|].
  simpl. rewrite omap_app, IH.
  destruct Hb as (z & l & c & args & res & copies & _ & _ & ->). done.
Qed.

Lemma omap_allocas (slots : list SSAValue) :
  omap alloca_value (AllocaOp <$> slots) = slots.
Proof.
  induction slots as [|v slots IH]; [done|]. rewrite fmap_cons.
  change (v :: omap alloca_value (AllocaOp <$> slots) = v :: slots).
  by f_equal.
Qed.

(** The slots of a generated subroutine. *)
Lemma generated_slots self suite post gpost n fn decls n' :
  generateSubroutineCall self suite post gpost n = Ok ((fn, decls), n') →
  ∃ ts firsts data_ops,
    mapM (λ s, getArgumentTable self s (s +:+ post)) (getSchemeNames suite)
    = Ok ts ∧
    firsts
    = Py.values (first_declared [] (concat (getFunctionArguments <$> ts))) ∧
    data_ops = zip (arg_name <$> firsts) (AllocaOp <$> allocated fn) ∧
    Py.get data_ops "errflg" ≠ None ∧
    length (allocated fn) = length firsts ∧
    arg_name <$> firsts
    = first_seen (arg_name <$> concat (getFunctionArguments <$> ts)) ∧
    Forall2 (λ a v, declared_slot a (ssa_type v)) firsts (allocated fn) ∧
    ssa_id <$> allocated fn = seq n (length firsts) ∧
    Forall (λ v, name_hint v = None) (allocated fn).
Proof.
  intros H.
  apply generated_parts in H
    as (tables & data_ops & n1 & slots & errflg & zv & blocks & sigs & n2 & n3
        & Htables & Hcreate & Hvalues & Herr & _ & _ & -> & Hblocks).
  assert (allocated
            (FuncOp (suite_name suite +:+ "_suite" +:+ default post gpost)
               (FunctionType [] (ssa_type <$> slots))
               [(AllocaOp <$> slots)
                ++ [zero_i32 zv;
                    StoreOp (OpResult zv (zero_i32 zv)) (slot errflg) []]
                ++ concat blocks ++ [ReturnOp (slot <$> slots)]]) = slots)
    as ->.
  { unfold allocated. rewrite !omap_app, omap_allocas.
    erewrite no_alloca_in_blocks by done. simpl. by rewrite app_nil_r. }
  apply gen_bind_ok in Hcreate as (req & n4 & Hreq & Hcreate).
  apply lift_ok in Hreq as [Hreq ->].
  apply required_arguments_first in Hreq as (ts & Hts & ->).
  destruct (first_declared_keys (concat (getFunctionArguments <$> ts)) [])
    as [Hkeys Hnd]; [done|constructor|].
  apply allocate_slots in Hcreate
    as (slots' & -> & _ & Hlen & Hslots & Hids & Hhints);
    [|by rewrite Hkeys|apply Forall_forall; intros ? _ []%elem_of_nil].
  simpl in Hvalues. unfold Py.values in Hvalues.
  rewrite snd_zip in Hvalues
    by (rewrite (length_fmap AllocaOp), (length_fmap arg_name);
        unfold Py.values in Hlen; lia).
  apply (f_equal (omap alloca_value)) in Hvalues.
  rewrite !omap_allocas in Hvalues. subst slots'.
  eexists ts, _, _. split_and!; [|done|done|..]; try done.
  - rewrite <-Hts. apply mapM_result_ext. intros s Hs.
    destruct (resolve_tables_ok _ _ _ _ _ Htables s Hs) as (t & -> & Ht).
    apply item_ok in Ht. by rewrite Ht.
  - rewrite app_nil_l in Herr. by rewrite Herr.
  - rewrite Hkeys. apply first_declared_names.
Qed.

Lemma elem_of_concat {A} (x : A) (ls : list (list A)) :
  x ∈ concat ls → ∃ l, x ∈ l ∧ l ∈ ls.
Proof.
  induction ls as [|l ls IH]; simpl; [by intros ?%elem_of_nil|].
  intros [?|(l' & ? & ?)%IH]%elem_of_app.
  - exists l. split; [done|by left].
  - exists l'. split; [done|by right].
Qed.

Lemma scheme_calls_sigs self names post tables data_ops :
  ∀ call_ops sigs n call_ops' sigs' n',
  scheme_calls self names post tables data_ops call_ops sigs n
    = Ok ((call_ops', sigs'), n') →
  Forall (λ kv, Py.get (meta_fn_sigs self) kv.1 = Some kv.2) sigs →
  Py.keys sigs'
  = foldl (λ seen x, if bool_decide (x ∈ seen) then seen else seen ++ [x])
          (Py.keys sigs) ((λ s, s +:+ post) <$> names) ∧
  Forall (λ kv, Py.get (meta_fn_sigs self) kv.1 = Some kv.2) sigs'.
Proof.
  induction names as [|s names IH];
    intros call_ops sigs n call_ops' sigs' n' H Hsigs; simpl in H.
  { gen_unfold H. by injection H as _ <- _. }
  apply gen_bind_ok in H as ([] & n1 & _ & H).
  apply gen_bind_ok in H as (tbl & n2 & _ & H).
  apply gen_bind_ok in H as (ops & n3 & _ & H).
  apply gen_bind_ok in H as (sigs1 & n4 & Hsigs1 & H).
  apply lift_ok in Hsigs1 as [Hsigs1 ->].
  rewrite mem_keys in Hsigs1. simpl.
  case_bool_decide as Hin.
  - injection Hsigs1 as <-. by eapply IH.
  - apply result_bind_ok in Hsigs1 as (sig & Hsig%item_ok & Hsigs1).
    injection Hsigs1 as <-.
    apply IH in H as [Hkeys Hall].
    + split; [|done]. by rewrite Hkeys, keys_set, bool_decide_false.
    + rewrite set_new by done. apply Forall_app. by repeat constructor.
Qed.

(** X1. The error flag is required: for a suite without schemes the
    generator raises [KeyError] (there is no [errflg] slot to initialize),
    and whenever it returns a subroutine, some scheme of the suite declares
    an argument named [errflg] for the phase. *)
Theorem errflg_slot_is_required :
  (∀ self suite post gpost n,
     getSchemeNames suite = [] →
     generateSubroutineCall self suite post gpost n = Raise Py.KeyError) ∧
  (∀ self suite post gpost n fn decls n',
     generateSubroutineCall self suite post gpost n = Ok ((fn, decls), n') →
     ∃ s t a,
       s ∈ getSchemeNames suite ∧
       getArgumentTable self s (s +:+ post) = Ok t ∧
       a ∈ getFunctionArguments t ∧
       arg_name a = "errflg").
Proof.
  split.
  - intros self suite post gpost n Hnone.
    unfold generateSubroutineCall. rewrite Hnone. done.
  - intros self suite post gpost n fn decls n' H.
    apply generated_slots in H
      as (ts & firsts & data_ops & Hts & -> & -> & Herr & Hlen & Hnames & _).
    assert ("errflg" ∈ arg_name <$> concat (getFunctionArguments <$> ts))
      as Hin.
    { apply first_seen_elem. rewrite <-Hnames.
      destruct (Py.get _ "errflg") eqn:Hget; [|done].
      assert (is_Some (Py.get (zip (arg_name <$> Py.values
                (first_declared [] (concat (getFunctionArguments <$> ts))))
                (AllocaOp <$> allocated fn)) "errflg")) as Hsome by eauto.
      apply get_keys in Hsome. unfold Py.keys in Hsome.
      rewrite fst_zip in Hsome; [done|]. rewrite !length_fmap.
      unfold Py.values. rewrite length_fmap.
      unfold Py.values in Hlen. rewrite length_fmap in Hlen. lia. }
    apply list_elem_of_fmap in Hin as (a & Ha & Hin).
    apply elem_of_concat in Hin as (args & Hin & Hargs).
    apply list_elem_of_fmap in Hargs as (t & -> & Ht).
    apply mapM_result_Forall2 in Hts.
    apply list_elem_of_lookup in Ht as [i Hi].
    destruct (Forall2_lookup_r _ _ _ _ _ Hts Hi) as (s & Hs & Hst).
    exists s, t, a. split_and!; [|done..]. by eapply list_elem_of_lookup_2.
Qed.

(** X2. Slots: a generated subroutine allocates one slot for every
    distinct argument name of its schemes, in the order in which the names
    first appear; the slot takes its type from the first declaration of
    the name (the element type of the declared type, with the extent of the
    kind for a [character]); it is the next value the generator creates and
    carries no name hint. *)
Theorem slots_follow_first_declarations self suite post gpost n fn decls n' :
  generateSubroutineCall self suite post gpost n = Ok ((fn, decls), n') →
  ∃ ts firsts,
    mapM (λ s, getArgumentTable self s (s +:+ post)) (getSchemeNames suite)
    = Ok ts ∧
    firsts
    = Py.values (first_declared [] (concat (getFunctionArguments <$> ts))) ∧
    arg_name <$> firsts
    = first_seen (arg_name <$> concat (getFunctionArguments <$> ts)) ∧
    Forall2 (λ a v, declared_slot a (ssa_type v)) firsts (allocated fn) ∧
    ssa_id <$> allocated fn = seq n (length firsts) ∧
    Forall (λ v, name_hint v = None) (allocated fn).
Proof.
  intros H.
  apply generated_slots in H
    as (ts & firsts & data_ops & Hts & -> & -> & _ & _ & Hnames & Hslots
        & Hids & Hhints).
  by eexists ts, _.
Qed.

(** X2, witness: the suite of the end-to-end scenario. *)
Lemma slots_follow_first_declarations_witness :
  ∃ fn decls n',
    generateSubroutineCall pass_S suite_S "_init" (Some "_initialize") 0
    = Ok ((fn, decls), n') ∧
    ∃ ts firsts,
      mapM (λ s, getArgumentTable pass_S s (s +:+ "_init"))
           (getSchemeNames suite_S) = Ok ts ∧
      firsts
      = Py.values (first_declared [] (concat (getFunctionArguments <$> ts))) ∧
      arg_name <$> firsts
      = first_seen (arg_name <$> concat (getFunctionArguments <$> ts)) ∧
      Forall2 (λ a v, declared_slot a (ssa_type v)) firsts (allocated fn) ∧
      ssa_id <$> allocated fn = seq 0 (length firsts) ∧
      Forall (λ v, name_hint v = None) (allocated fn).
Proof.
  eexists _, _, _. split; [vm_compute; reflexivity|].
  eapply (slots_follow_first_declarations pass_S suite_S "_init"
            (Some "_initialize") 0).
  vm_compute. reflexivity.
Defined.

Lemma generated_declarations self suite post gpost n fn decls n' :
  generateSubroutineCall self suite post gpost n = Ok ((fn, decls), n') →
  Forall2 (λ callee d, Py.get (meta_fn_sigs self) callee = Some d)
          (first_seen ((λ s, s +:+ post) <$> getSchemeNames suite)) decls.
Proof.
  intros H.
  apply generated_parts in H
    as (tables & data_ops & n1 & slots & errflg & zv & blocks & sigs & n2 & n3
        & _ & _ & _ & _ & Hcalls & -> & _ & _).
  apply scheme_calls_sigs in Hcalls as [Hkeys Hall]; [|constructor].
  change (Py.keys []) with (@nil string) in Hkeys.
  unfold first_seen. rewrite <-Hkeys. unfold Py.keys, Py.values.
  clear Hkeys. induction Hall as [|[k v] sigs Hkv _ IH]; [constructor|].
  simpl. by constructor.
Qed.

(** X3. Declarations: the external declarations returned with a
    subroutine are the gathered signatures of the callees, one for each
    distinct callee, in the order in which the callees first appear. *)
Theorem declarations_once_per_callee self suite post gpost n fn decls n' :
  generateSubroutineCall self suite post gpost n = Ok ((fn, decls), n') →
  Forall2 (λ callee d, Py.get (meta_fn_sigs self) callee = Some d)
          (first_seen ((λ s, s +:+ post) <$> getSchemeNames suite)) decls.
Proof. apply generated_declarations. Qed.

(** X3, witness: a suite that lists the scheme [A] twice; [A_init] is
    called twice and declared once. *)
Lemma declarations_once_per_callee_witness :
  ∃ fn decls n',
    generateSubroutineCall pass_S suite_AA "_init" (Some "_initialize") 0
    = Ok ((fn, decls), n') ∧
    Forall2 (λ callee d, Py.get (meta_fn_sigs pass_S) callee = Some d)
            (first_seen ((λ s, s +:+ "_init") <$> getSchemeNames suite_AA))
            decls.
Proof.
  eexists _, _, _. split; [vm_compute; reflexivity|].
  eapply (declarations_once_per_callee pass_S suite_AA "_init"
            (Some "_initialize") 0).
  vm_compute. reflexivity.
Defined.

End generator_more.

(** ** The blocks of the schemes, operation by operation *)
Section guard_facts.
Import ir ccpp_descriptors suite_cap generated allocation.

Ltac gen_unfold H :=
  cbv [mbind gen_bind mret gen_ret new_value lift
       ConstantOp_from_int_and_width AllocaOp_get CmpiOp_new IfOp_new
       CopyOp_new SSAValue_get results result_bind Py.bind] in H.

Lemma getAttr_intent (a : CCPPArgument) intent :
  getAttr (arg_attrs a) "intent" = Ok intent →
  Py.get (arg_attrs a) "intent" = Some intent.
Proof.
  unfold getAttr, hasAttr, Py.mem, Py.item.
  destruct (Py.get (arg_attrs a) "intent"); [|done]. simpl.
  by intros [= ->].
Qed.

(** The argument loop: operands and results are the slots of the
    arguments of intent [in] or [inout], and [out], in their order. *)
Lemma call_arguments_exact args data_ops :
  Forall is_alloca (Py.values data_ops) →
  ∀ ins tys outs ins' tys' outs',
  call_arguments args data_ops ins tys outs = Ok (ins', tys', outs') →
  ∃ vi vo,
    ins' = ins ++ (AllocaOp <$> vi) ∧
    outs' = outs ++ (AllocaOp <$> vo) ∧
    tys' = tys ++ (ssa_type <$> vo) ∧
    slots_of data_ops (List.filter is_operand args) vi ∧
    slots_of data_ops (List.filter is_result args) vo.
Proof.
  intros Hs. induction args as [|arg rest IH];
    intros ins tys outs ins' tys' outs' H; simpl in H.
  { injection H as <- <- <-. exists [], []. simpl.
    rewrite !app_nil_r. split_and!; (done || constructor). }
  apply result_bind_ok in H as (intent & Hintent%getAttr_intent & H).
  destruct (bool_decide (intent = "in") || bool_decide (intent = "inout"))
    eqn:Hin.
  - apply result_bind_ok in H as (op & Hop%item_ok & H).
    pose proof (get_values _ _ _ Hop) as Hv.
    rewrite Forall_forall in Hs. destruct (Hs _ Hv) as [v ->].
    rewrite <-Forall_forall in Hs.
    apply IH in H as (vi & vo & -> & -> & -> & Hvi & Hvo).
    assert (is_operand arg = true) as Hoperand.
    { unfold is_operand. rewrite Hintent. apply bool_decide_eq_true.
      apply orb_true_iff in Hin
        as [Hi%bool_decide_eq_true|Hi%bool_decide_eq_true]; subst intent;
        [by left|right; by left]. }
    assert (is_result arg = false) as Hresult.
    { unfold is_result. rewrite Hintent. apply bool_decide_eq_false.
      intros [= ->]. by vm_compute in Hin. }
    exists (v :: vi), vo. simpl. rewrite Hoperand, Hresult.
    rewrite <-app_assoc. split_and!; [done..| |done]. by constructor.
  - assert (is_operand arg = false) as Hoperand.
    { unfold is_operand. rewrite Hintent. apply bool_decide_eq_false.
      intros [[= ->]|[[= ->]|[]%elem_of_nil]%elem_of_cons]%elem_of_cons;
        by vm_compute in Hin. }
    case_bool_decide as Hout.
    + subst intent.
      apply result_bind_ok in H as (op & Hop%item_ok & H).
      pose proof (get_values _ _ _ Hop) as Hv.
      rewrite Forall_forall in Hs. destruct (Hs _ Hv) as [v ->].
      rewrite <-Forall_forall in Hs.
      apply result_bind_ok in H as (r & Hr & H).
      injection Hr as <-.
      apply IH in H as (vi & vo & -> & -> & -> & Hvi & Hvo).
      assert (is_result arg = true) as Hresult.
      { unfold is_result. rewrite Hintent. by apply bool_decide_eq_true. }
      exists vi, (v :: vo). simpl. rewrite Hoperand, Hresult.
      rewrite <-!app_assoc. split_and!; [done..|]. by constructor.
    + assert (is_result arg = false) as Hresult.
      { unfold is_result. rewrite Hintent. apply bool_decide_eq_false.
        by intros [= ->]. }
      apply IH in H as (vi & vo & -> & -> & -> & Hvi & Hvo).
      exists vi, vo. simpl. by rewrite Hoperand, Hresult.
Qed.

(** The copy-back loop pairs the results from [idx] on with the slots. *)
Lemma copy_back_exact callee args res : ∀ vo idx copies,
  copy_back (CallOp callee args res) idx (AllocaOp <$> vo) = Ok copies →
  length (drop idx res) ≥ length vo ∧
  copies = copy_backs (CallOp callee args res) (drop idx res) vo.
Proof.
  induction vo as [|v vo IH]; intros idx copies H; simpl in H.
  { injection H as <-. split; [simpl; lia|]. unfold copy_backs.
    by destruct (drop idx res). }
  apply result_bind_ok in H as (src & Hsrc & H).
  apply result_bind_ok in H as (ops & Hops & H). injection H as <-.
  unfold result_at in Hsrc. simpl in Hsrc.
  destruct (res !! idx) as [r|] eqn:Hr; [|done]. injection Hsrc as <-.
  apply IH in Hops as [Hlen ->].
  rewrite (drop_S _ _ _ Hr). split; [simpl; lia|done].
Qed.

Lemma new_values tys : ∀ k res k',
  mapM new_value tys k = Ok (res, k') →
  ssa_type <$> res = tys ∧ ssa_id <$> res = seq k (length tys).
Proof.
  induction tys as [|ty tys IH]; intros k res k' H.
  { gen_unfold H. injection H as <- _. done. }
  change (mapM new_value (ty :: tys))
    with (y ← new_value ty; k ← mapM new_value tys; mret (y :: k) : Gen _)
    in H.
  apply gen_bind_ok in H as (y & k1 & Hy & H).
  apply gen_bind_ok in H as (ys & k2 & Hys & H).
  gen_unfold Hy. injection Hy as <- <-. gen_unfold H. injection H as <- _.
  apply IH in Hys as [Hty Hid]. by rewrite !fmap_cons, Hty, Hid.
Qed.

Lemma scheme_block_exact callee arg_table data_ops n ops n' :
  Forall is_alloca (Py.values data_ops) →
  generateSchemeSubroutineCallOps callee arg_table data_ops n = Ok (ops, n') →
  ∃ errflg ins outs res,
    Py.get data_ops "errflg" = Some (AllocaOp errflg) ∧
    call_block data_ops errflg callee arg_table ins outs res ops.
Proof.
  intros Hs H. unfold generateSchemeSubroutineCallOps in H.
  apply gen_bind_ok in H as ([[ins tys] outs] & n1 & Hargs & H).
  apply lift_ok in Hargs as [Hargs ->].
  apply call_arguments_exact in Hargs
    as (vi & vo & -> & -> & -> & Hvi & Hvo); [|done].
  simpl in H.
  apply gen_bind_ok in H as ([] & n1 & _ & H).
  apply gen_bind_ok in H as (call & n2 & Hcall & H).
  apply gen_bind_ok in H as (copies & n3 & Hcopies & H).
  apply lift_ok in Hcopies as [Hcopies ->].
  apply gen_bind_ok in H as (zero & n3 & Hzero & H).
  apply gen_bind_ok in H as (errflg & n4 & Herr & H).
  apply lift_ok in Herr as [Herr%item_ok ->].
  apply gen_bind_ok in H as (load & n4 & Hload & H).
  apply gen_bind_ok in H as (cmp & n5 & Hcmp & H).
  apply gen_bind_ok in H as (cond & n6 & Hcond & H).
  apply lift_ok in Hcond as [Hcond ->]. injection H as <- _.
  (* the call *)
  unfold CallOp_new in Hcall. rewrite mapM_get_slots in Hcall.
  erewrite gen_bind_step in Hcall by done.
  apply gen_bind_ok in Hcall as (res & n7 & Hres & Hcall).
  gen_unfold Hcall. injection Hcall as <- _.
  apply new_values in Hres as [Htys Hids].
  apply copy_back_exact in Hcopies as [_ ->].
  change (drop 0 res) with res in Hcond.
  (* the guard *)
  pose proof (get_values _ _ _ Herr) as Hin.
  rewrite Forall_forall in Hs. destruct (Hs _ Hin) as [ev ->].
  gen_unfold Hzero. injection Hzero as <- <-.
  unfold LoadOp_get in Hload. gen_unfold Hload. simpl in Hload.
  destruct (ssa_type ev) as [| | | |elem shape| | | | |] eqn:Hty; try done.
  injection Hload as <- <-. gen_unfold Hcmp. injection Hcmp as <- _.
  gen_unfold Hcond. injection Hcond as <-.
  exists ev, vi, vo, res. split; [done|].
  eexists _, _, _. split_and!; [done..| |done].
  rewrite Hids. apply NoDup_seq.
Qed.

Lemma scheme_calls_exact self names post tables data_ops :
  ∀ call_ops sigs n call_ops' sigs' n',
  Forall is_alloca (Py.values data_ops) →
  (∀ s, s ∈ names →
        ∃ t, getArgumentTable self s (s +:+ post) = Ok t ∧
             Py.get tables s = Some t) →
  scheme_calls self names post tables data_ops call_ops sigs n
    = Ok ((call_ops', sigs'), n') →
  ∃ blocks,
    call_ops' = call_ops ++ concat blocks ∧
    Forall2 (λ s b, ∃ t errflg ins outs res,
               getArgumentTable self s (s +:+ post) = Ok t ∧
               Py.get data_ops "errflg" = Some (AllocaOp errflg) ∧
               call_block data_ops errflg (s +:+ post) t ins outs res b)
            names blocks.
Proof.
  induction names as [|s names IH];
    intros call_ops sigs n call_ops' sigs' n' Hs Htables H; simpl in H.
  { gen_unfold H. injection H as <- _ _. exists []. simpl.
    by rewrite app_nil_r. }
  apply gen_bind_ok in H as ([] & n1 & _ & H).
  apply gen_bind_ok in H as (tbl & n2 & Htbl & H).
  apply lift_ok in Htbl as [Htbl%item_ok ->].
  apply gen_bind_ok in H as (ops & n3 & Hops & H).
  apply gen_bind_ok in H as (sigs1 & n4 & _ & H).
  apply IH in H as (blocks & -> & Hblocks); [|done|].
  - apply scheme_block_exact in Hops as (e & ins & outs & res & He & Hb);
      [|done].
    exists (ops :: blocks). split; [by rewrite <-app_assoc|].
    constructor; [|done].
    destruct (Htables s) as (t & Ht & Hget); [by left|].
    assert (t = tbl) as -> by congruence.
    by exists tbl, e, ins, outs, res.
  - intros s' Hs'. apply Htables. by right.
Qed.

(** The subroutine generated, block by block. *)
Lemma generated_exact self suite post gpost n fn decls n' :
  generateSubroutineCall self suite post gpost n = Ok ((fn, decls), n') →
  ∃ data_ops errflg blocks,
    phase_parts self suite post gpost n fn data_ops errflg blocks ∧
    Forall2 (λ s b, ∃ t ins outs res,
               getArgumentTable self s (s +:+ post) = Ok t ∧
               call_block data_ops errflg (s +:+ post) t ins outs res b)
            (getSchemeNames suite) blocks ∧
    getSchemeNames suite ≠ [] ∧
    if_depth fn = 1.
Proof.
  intros H.
  apply generated_parts in H
    as (tables & data_ops & n1 & slots & errflg & zv & blocks0 & sigs & n2
        & n3 & Htables & Hcreate & Hslots & Herr & Hcalls & _ & -> & Hold).
  assert (getSchemeNames suite ≠ []) as Hne.
  { intros Hnil. rewrite Hnil in Hcreate.
    unfold generateVariableCreation in Hcreate. simpl in Hcreate.
    gen_unfold Hcreate. injection Hcreate as <- _. done. }
  assert (block_if_depth (AllocaOp <$> slots) = 0) as Hdepth.
  { apply block_if_depth_zero, Forall_fmap, Forall_true. done. }
  assert (block_if_depth (concat blocks0) = 1) as Hblocks0.
  { erewrite blocks_depth by done.
    destruct (getSchemeNames suite); done. }
  apply scheme_calls_exact in Hcalls as (blocks & Hconcat & Hblocks).
  - simpl in Hconcat. rewrite Hconcat in *.
    exists data_ops, errflg, blocks. split_and!.
    + by exists tables, n1, slots, zv.
    + eapply Forall2_impl; [done|].
      intros s b (t & e & ins & outs & res & Ht & He & Hb).
      assert (e = errflg) as -> by congruence.
      by exists t, ins, outs, res.
    + done.
    + rewrite if_depth_function, !block_if_depth_app, Hdepth, Hblocks0.
      done.
  - rewrite Hslots. apply Forall_fmap, Forall_true. intros v. by exists v.
  - exact (resolve_tables_ok _ _ _ _ _ Htables).
Qed.

(** *** The run of a block *)









(** C6. Body layout: in every generated subroutine the allocation nodes
    are followed at once by the constant zero (32 bits) and its store into
    the slot registered as [errflg]; then comes, for each scheme in order,
    the block of [call_block]: a conditional on the comparison, by
    predicate 0 (which is [eq]), of a load of the [errflg] slot with a
    constant zero.  Its true region is the call of the scheme's
    subroutine, on the slots of the arguments its table declares [in] or
    [inout], in their order, with one new result of the slot's type for
    each argument it declares [out]; then the copy-back nodes, the [i]-th
    copying the [i]-th result into the slot of the [i]-th such argument;
    then the region terminator.  Its false region has no block. *)
Theorem error_flag_guard_layout self suite post gpost n fn decls n' :
  generateSubroutineCall self suite post gpost n = Ok ((fn, decls), n') →
  Py.index print_ftn.CMPI_COMPARISON_OPERATIONS 0 = Ok "eq" ∧
  phase_layout self suite post gpost n fn.
Proof.
  intros H. split; [done|].
  apply generated_exact in H
    as (data_ops & errflg & blocks & Hparts & Hblocks & _ & _).
  by exists data_ops, errflg, blocks.
Qed.

(** C6, witness: the suite of the end-to-end scenario. *)
Lemma error_flag_guard_layout_witness :
  ∃ fn decls n',
    generateSubroutineCall pass_S suite_S "_init" (Some "_initialize") 0
    = Ok ((fn, decls), n') ∧
    Py.index print_ftn.CMPI_COMPARISON_OPERATIONS 0 = Ok "eq" ∧
    phase_layout pass_S suite_S "_init" (Some "_initialize") 0 fn.
Proof.
  eexists _, _, _. split; [vm_compute; reflexivity|].
  eapply (error_flag_guard_layout pass_S suite_S "_init"
            (Some "_initialize") 0).
  vm_compute. reflexivity.
Defined.



End guard_facts.

(** ** The generator and the emitter *)
Section generator_emitter.
Import ir ccpp_descriptors suite_cap generated allocation print_ftn emitting printing.

Variable uses : SSAValue → list Operation.
Variable attr_str : Attribute → string.
Variable DYNAMIC_INDEX : Z.

Ltac gen_unfold H :=
  cbv [mbind gen_bind mret gen_ret new_value lift
       ConstantOp_from_int_and_width AllocaOp_get CmpiOp_new IfOp_new
       CopyOp_new SSAValue_get results result_bind Py.bind] in H.




(** *** Printing what raises *)

Lemma print_block_cons op rest self :
  print_block uses attr_str DYNAMIC_INDEX (op :: rest) self
  = (self ← print_op uses attr_str DYNAMIC_INDEX op self;
     print_block uses attr_str DYNAMIC_INDEX rest self).
Proof. reflexivity. Qed.







End generator_emitter.

Section generator_emitter_examples.
Import ir ccpp_descriptors suite_cap generated allocation print_ftn emitting printing.


End generator_emitter_examples.

(** ** Names of the slots *)
Section slot_names.
Import ir ccpp_descriptors suite_cap generated allocation print_ftn emitting returning.

Variable uses : SSAValue → list Operation.
Variable attr_str : Attribute → string.
Variable DYNAMIC_INDEX : Z.

Lemma find_ret_ssa_idx_slots (slots : list SSAValue) : ∀ i v idx,
  NoDup (ssa_id <$> slots) → slots !! i = Some v →
  find_ret_ssa_idx (slot <$> slots) v idx = Some (idx + i).
Proof.
  induction slots as [|w slots IH]; intros i v idx Hnd Hi; [done|].
  rewrite fmap_cons in Hnd. apply NoDup_cons in Hnd as [Hw Hnd].
  rewrite fmap_cons. simpl. destruct i as [|i]; simpl in Hi.
  - injection Hi as ->. rewrite decide_True by done. f_equal. lia.
  - rewrite decide_False.
    + rewrite (IH i v (S idx)) by done. f_equal. lia.
    + intros Heq. apply Hw. rewrite Heq.
      apply list_elem_of_fmap_2. by eapply list_elem_of_lookup_2.
Qed.

(** X5. Slot names: a generated subroutine returns its slots in the order
    of their allocation, and the emitter binds the slot at position [i],
    when the first user the host reports for it is that return, to the
    name [arg_i] (the name of the [i]-th dummy argument of the printed
    subroutine); the counter, the prefix and the output stay as they are. *)
Theorem slot_is_named_after_its_position
    self suite post gpost n fn decls n' i v others ctx em :
  generateSubroutineCall self suite post gpost n = Ok ((fn, decls), n') →
  allocated fn !! i = Some v →
  uses v = ReturnOp (returned fn) :: others →
  returned fn = slot <$> allocated fn ∧
  print_op uses attr_str DYNAMIC_INDEX (AllocaOp v) ctx em
  = (Ok (mkContext (_prefix ctx)
           (<[ssa_id v := "arg_" +:+ pretty i]> (variables ctx))
           (_counter ctx)), em).
Proof.
  intros H Hi Huses.
  pose proof (generated_slots _ _ _ _ _ _ _ _ H)
    as (ts & firsts & data_ops & _ & _ & _ & _ & _ & _ & _ & Hids & _).
  apply generated_body in H
    as (tables & data & n1 & slots & errflg & zv & blocks & _ & _ & _ & ->
        & Hblocks).
  assert (returned
            (FuncOp (suite_name suite +:+ "_suite" +:+ default post gpost)
               (FunctionType [] (ssa_type <$> slots))
               [(AllocaOp <$> slots)
                ++ [zero_i32 zv;
                    StoreOp (OpResult zv (zero_i32 zv)) (slot errflg) []]
                ++ concat blocks ++ [ReturnOp (slot <$> slots)]])
          = slot <$> slots) as Hret.
  { unfold returned. by rewrite !app_assoc, last_snoc. }
  rewrite Hret in *.
  assert (allocated
            (FuncOp (suite_name suite +:+ "_suite" +:+ default post gpost)
               (FunctionType [] (ssa_type <$> slots))
               [(AllocaOp <$> slots)
                ++ [zero_i32 zv;
                    StoreOp (OpResult zv (zero_i32 zv)) (slot errflg) []]
                ++ concat blocks ++ [ReturnOp (slot <$> slots)]]) = slots)
    as Hall.
  { unfold allocated. rewrite !omap_app, omap_allocas.
    erewrite no_alloca_in_blocks by done. simpl. by rewrite app_nil_r. }
  rewrite Hall in *. split; [done|].
  simpl. rewrite Huses.
  rewrite (find_ret_ssa_idx_slots slots i v 0); [done| |done].
  rewrite Hids. apply NoDup_seq.
Qed.

End slot_names.

Section slot_names_examples.
Import ir ccpp_descriptors suite_cap generated allocation print_ftn emitting returning.

(** X5, witness: the second slot ([errflg]) of the end-to-end scenario. *)
Lemma slot_is_named_after_its_position_witness :
  ∃ fn decls n' v,
    generateSubroutineCall pass_S suite_S "_init" (Some "_initialize") 0
    = Ok ((fn, decls), n') ∧
    allocated fn !! 1 = Some v ∧
    returned fn = slot <$> allocated fn ∧
    print_op (λ _, [ReturnOp (returned fn)]) no_text (-1) (AllocaOp v)
      root_context new_emitter
    = (Ok (mkContext "" (<[ssa_id v := "arg_1"]> ∅) 0), new_emitter).
Proof.
  eexists _, _, _, _. split; [vm_compute; reflexivity|].
  split; [vm_compute; reflexivity|].
  eapply (slot_is_named_after_its_position _ no_text (-1) pass_S suite_S
            "_init" (Some "_initialize") 0 _ _ _ 1 _ []).
  - vm_compute. reflexivity.
  - vm_compute. reflexivity.
  - reflexivity.
Defined.

End slot_names_examples.

(** ** What the emitter leaves in place *)
Section frame_facts.
Import ir print_ftn naming emitting framing.

Variable uses : SSAValue → list Operation.
Variable attr_str : Attribute → string.
Variable DYNAMIC_INDEX : Z.

Lemma append_assoc (a b c : string) : (a +:+ b) +:+ c = a +:+ (b +:+ c).
Proof.
  induction a as [|x a IH]; [done|].
  change (String x ((a +:+ b) +:+ c) = String x (a +:+ (b +:+ c))).
  by rewrite IH.
Qed.

Lemma extends_refl em : extends em em.
Proof.
  split_and!; [exists ""; by rewrite append_empty_r|exists [];
               by rewrite app_nil_r|done..].
Qed.

Lemma extends_trans em1 em2 em3 :
  extends em1 em2 → extends em2 em3 → extends em1 em3.
Proof.
  intros ([t1 Ho1] & [l1 Hs1] & Hb1 & Hc1) ([t2 Ho2] & [l2 Hs2] & Hb2 & Hc2).
  split_and!.
  - exists (t1 +:+ t2). by rewrite Ho2, Ho1, append_assoc.
  - exists (l1 ++ l2). by rewrite Hs2, Hs1, app_assoc.
  - congruence.
  - congruence.
Qed.

Lemma sound_ret {A} (Q : A → Prop) a : Q a → sound Q (mret a).
Proof. intros Ha em. split; [apply extends_refl|]. by intros ? [= <-]. Qed.

Lemma sound_lift {A} (Q : A → Prop) (r : Py.result A) :
  (∀ a, r = Ok a → Q a) → sound Q (print_ftn.lift r).
Proof. intros Hr em. split; [apply extends_refl|]. apply Hr. Qed.

Lemma sound_bind {A B} (Q : A → Prop) (R : B → Prop)
    (m : Emit A) (k : A → Emit B) :
  sound Q m → (∀ a, Q a → sound R (k a)) → sound R (m ≫= k).
Proof.
  intros Hm Hk em. rewrite emit_bind_eq. destruct (Hm em) as [Hext HQ].
  destruct (m em) as [[a|e] em1]; simpl in *.
  - destruct (Hk a (HQ a eq_refl) em1) as [Hext1 HR].
    split; [by eapply extends_trans|done].
  - split; [done|]. by intros ? [=].
Qed.

Lemma sound_weaken {A} (Q R : A → Prop) (m : Emit A) :
  sound Q m → (∀ a, Q a → R a) → sound R m.
Proof. intros Hm HQR em. destruct (Hm em). split; eauto. Qed.

Lemma sound_write text : sound (λ _, True) (write text).
Proof.
  intros em. split; [|done].
  split_and!; [by exists text|exists []; by rewrite app_nil_r|done..].
Qed.

Lemma sound_write_stdout text : sound (λ _, True) (write_stdout text).
Proof.
  intros em. split; [|done].
  split_and!; [exists ""; by rewrite append_empty_r|by exists [text]|done..].
Qed.

Lemma sound_print self text prefix end_ use_prefix :
  sound (λ _, True) (print self text prefix end_ use_prefix).
Proof. apply sound_write. Qed.

Lemma sound_assert_False {A} (Q : A → Prop) cls : sound Q (assert_False cls).
Proof.
  eapply sound_bind; [apply sound_write_stdout|]. intros _ _.
  by apply sound_lift.
Qed.

Lemma name_for_prefix self val hint :
  same_prefix self (_get_variable_name_for self val hint).1.
Proof.
  unfold _get_variable_name_for, same_prefix.
  destruct (variables self !! ssa_id val); [done|].
  by repeat case_match.
Qed.

Lemma print_expr_sound : ∀ op self,
  sound (same_prefix self) (print_expr attr_str op self).
Proof.
  fix IH 1. intros op self.
  assert (∀ val self0, sound (same_prefix self0)
                         (print_owner attr_str val self0)) as Howner.
  { intros [v owner|v] self0; [apply IH|apply sound_assert_False]. }
  destruct op; try apply sound_assert_False.
  - simpl. eapply sound_bind; [apply sound_print|]. intros _ _.
    by apply sound_ret.
  - simpl. pose proof (name_for_prefix self (value_of memref) None) as Hp.
    destruct (_get_variable_name_for self (value_of memref) None)
      as [self1 name].
    eapply sound_bind; [apply sound_print|]. intros _ _.
    by apply sound_ret.
  - simpl.
    eapply sound_bind; [by apply (sound_lift (λ _, True))|]. intros pred _.
    eapply sound_bind; [apply Howner|]. intros self1 Hself1.
    eapply sound_bind with (Q := λ _, True).
    { intros em. split; [apply extends_refl|done]. }
    intros table _.
    eapply sound_bind; [by apply (sound_lift (λ _, True))|]. intros symbol _.
    eapply sound_bind; [apply sound_print|]. intros _ _.
    eapply sound_weaken; [apply Howner|].
    unfold same_prefix in *. congruence.
Qed.

Lemma print_owner_sound val self :
  sound (same_prefix self) (print_owner attr_str val self).
Proof.
  destruct val as [v owner|v]; [apply print_expr_sound|
                                apply sound_assert_False].
Qed.

Lemma names_for_prefix vals : ∀ self,
  same_prefix self (names_for self vals).1.
Proof.
  induction vals as [|v vals IH]; intros self; [done|]. simpl.
  pose proof (name_for_prefix self (value_of v) None) as Hp.
  destruct (_get_variable_name_for self (value_of v) None) as [self1 name].
  specialize (IH self1). destruct (names_for self1 vals) as [self2 names].
  unfold same_prefix in *. simpl in *. congruence.
Qed.

Lemma get_call_result_var_ssa_prefix res_uses : ∀ self,
  same_prefix self (get_call_result_var_ssa self res_uses).1.
Proof.
  induction res_uses as [|u res_uses IH]; intros self; [done|].
  destruct u; simpl; try apply IH.
  pose proof (name_for_prefix self (value_of destination) None) as Hp.
  by destruct (_get_variable_name_for self (value_of destination) None).
Qed.

Lemma print_call_args_sound args : ∀ self idx,
  sound (same_prefix self) (print_call_args attr_str self idx args).
Proof.
  induction args as [|arg args IH]; intros self idx.
  { by apply sound_ret. }
  rewrite print_call_args_cons.
  eapply sound_bind with (Q := λ _, True).
  { case_decide; [apply sound_print|by apply sound_ret]. }
  intros _ _. eapply sound_bind; [apply print_owner_sound|].
  intros self1 Hself1. eapply sound_weaken; [apply IH|].
  unfold same_prefix in *. congruence.
Qed.

Lemma print_call_results_sound results : ∀ self idx,
  sound (same_prefix self) (print_call_results uses self idx results).
Proof.
  induction results as [|res results IH]; intros self idx.
  { by apply sound_ret. }
  simpl. eapply sound_bind with (Q := λ _, True).
  { case_decide; [apply sound_print|by apply sound_ret]. }
  intros _ _.
  pose proof (get_call_result_var_ssa_prefix (uses res) self) as Hp.
  destruct (get_call_result_var_ssa self (uses res)) as [self1 name].
  eapply sound_bind with (Q := λ _, True).
  { destruct name; [apply sound_print|by apply sound_lift]. }
  intros _ _. eapply sound_weaken; [apply IH|].
  unfold same_prefix in *. simpl in *. congruence.
Qed.

Lemma _print_call_sound self tgt args results :
  sound (same_prefix self) (_print_call uses attr_str self tgt args results).
Proof.
  unfold _print_call.
  eapply sound_bind; [apply sound_print|]. intros _ _.
  eapply sound_bind; [apply print_call_args_sound|]. intros self1 H1.
  eapply sound_bind; [apply print_call_results_sound|]. intros self2 H2.
  eapply sound_bind; [apply sound_print|]. intros _ _.
  apply sound_ret. unfold same_prefix in *. congruence.
Qed.

Lemma descend_sound {A} (Q : A → Prop) self block_start block_end
    (body : ftnPrintContext → Emit A) :
  sound Q (body (inner_context self)) →
  sound Q (descend self block_start block_end body).
Proof.
  intros Hbody. unfold descend.
  eapply sound_bind with (Q := λ _, True).
  { destruct block_start; [apply sound_print|by apply sound_ret]. }
  intros _ _. eapply sound_bind; [apply Hbody|]. intros r Hr.
  eapply sound_bind with (Q := λ _, True).
  { destruct block_end; [apply sound_print|by apply sound_ret]. }
  intros _ _. by apply sound_ret.
Qed.

Lemma print_intents_sound inner intent types : ∀ idx,
  sound (λ _, True) (print_intents DYNAMIC_INDEX inner intent idx types).
Proof.
  induction types as [|ty types IH]; intros idx; [by apply sound_ret|].
  simpl. eapply sound_bind; [by apply (sound_lift (λ _, True))|].
  intros t _. eapply sound_bind; [apply sound_print|]. intros _ _.
  apply IH.
Qed.

Lemma print_block_sound body :
  Forall (λ op, ∀ self, sound (same_prefix self)
                          (print_op uses attr_str DYNAMIC_INDEX op self))
         body →
  ∀ self, sound (same_prefix self)
            (print_block uses attr_str DYNAMIC_INDEX body self).
Proof.
  induction 1 as [|op body Hop _ IH]; intros self; [by apply sound_ret|].
  rewrite print_block_cons. eapply sound_bind; [apply Hop|].
  intros self1 H1. eapply sound_weaken; [apply IH|].
  unfold same_prefix in *. congruence.
Qed.

Lemma print_op_sound : ∀ op self,
  sound (same_prefix self) (print_op uses attr_str DYNAMIC_INDEX op self).
Proof.
  fix IH 1. intros op self.
  assert (∀ blk : list Operation,
            (∀ b : list Operation, b = blk →
               Forall (λ op, ∀ self, sound (same_prefix self)
                         (print_op uses attr_str DYNAMIC_INDEX op self)) b) →
            ∀ inner, sound (λ _, True)
              (print_block uses attr_str DYNAMIC_INDEX blk inner)) as Hblk.
  { intros blk Hall inner. eapply sound_weaken;
      [apply print_block_sound, (Hall blk eq_refl)|done]. }
  destruct op; try (by apply sound_ret).
  - (* alloca *)
    simpl. destruct (uses memref) as [|u us]; [by apply sound_lift|].
    destruct u; try (by apply sound_ret).
    destruct (find_ret_ssa_idx arguments memref 0);
      [by apply sound_ret|by apply sound_lift].
  - (* store *)
    rewrite print_op_store.
    pose proof (name_for_prefix self (value_of memref) None) as Hp.
    destruct (_get_variable_name_for self (value_of memref) None)
      as [self1 name].
    pose proof (names_for_prefix indices self1) as Hq.
    destruct (names_for self1 indices) as [self2 names]. cbv zeta.
    eapply sound_bind with (Q := λ _, True).
    { case_decide; apply sound_print. }
    intros _ _. eapply sound_bind; [apply print_owner_sound|].
    intros self3 H3. eapply sound_bind; [apply sound_print|]. intros _ _.
    apply sound_ret. unfold same_prefix in *. simpl in *. congruence.
  - (* call *)
    apply _print_call_sound.
  - (* conditional *)
    rewrite print_op_if.
    eapply sound_bind; [apply sound_print|]. intros _ _.
    eapply sound_bind; [apply print_owner_sound|]. intros self1 H1.
    eapply sound_bind; [apply sound_print|]. intros _ _.
    eapply sound_bind with (Q := λ _, True).
    { apply descend_sound. destruct true_region as [|b [|]];
        try (by apply sound_lift).
      apply Hblk. intros ? ->. clear -IH. revert b. fix IHb 1.
      intros [|o b]; constructor; [apply IH|apply IHb]. }
    intros _ _. eapply sound_bind with (Q := λ _, True).
    { case_decide; [|by apply sound_ret].
      eapply sound_bind; [apply sound_print|]. intros _ _.
      eapply sound_bind with (Q := λ _, True); [|by intros; apply sound_ret].
      apply descend_sound. destruct false_region as [|b [|]];
        try (by apply sound_lift).
      apply Hblk. intros ? ->. clear -IH. revert b. fix IHb 1.
      intros [|o b]; constructor; [apply IH|apply IHb]. }
    intros _ _. eapply sound_bind; [apply sound_print|]. intros _ _.
    by apply sound_ret.
  - (* function *)
    simpl. destruct (is_declaration body); [by apply sound_ret|].
    destruct function_type; try (by apply sound_lift).
    eapply sound_bind with (Q := λ _, True); [|by intros; apply sound_ret].
    apply descend_sound.
    eapply sound_bind; [apply print_intents_sound|]. intros _ _.
    eapply sound_bind; [apply print_intents_sound|]. intros _ _.
    eapply sound_bind; [apply sound_print|]. intros _ _.
    destruct body as [|b [|]]; try (by apply sound_lift).
    apply Hblk. intros ? ->. clear -IH. revert b. fix IHb 1.
    intros [|o b]; constructor; [apply IH|apply IHb].
Qed.

End frame_facts.

(** ** The emitter: operators, slot types and modules *)
Section emitter_more.
Import ir print_ftn naming emitting framing operators.

Variable uses : SSAValue → list Operation.
Variable attr_str : Attribute → string.
Variable DYNAMIC_INDEX : Z.

Lemma print_modules_sound ops : ∀ ctx divider,
  sound (λ _, True)
    (print_modules uses attr_str DYNAMIC_INDEX ctx divider ops).
Proof.
  induction ops as [|op ops IH]; intros ctx divider; [by apply sound_ret|].
  destruct op; simpl; try apply IH.
  eapply sound_bind with (Q := λ _, True).
  { destruct divider; [apply sound_print|by apply sound_ret]. }
  intros _ _. eapply sound_bind with (Q := λ _, True).
  { destruct sym_name; [apply sound_print|by apply sound_lift]. }
  intros _ _. eapply sound_bind.
  { apply print_block_sound, Forall_forall. intros o _. apply print_op_sound. }
  intros ctx1 _. apply IH.
Qed.

(** X6. The emitter only appends: whatever operation or block it prints,
    and whether it returns or raises, the output and the diagnostic stream
    afterwards are those before with text after them, and the operator
    tables are the same; the context returned has the indentation it had.
    A whole program is printed after the text and tables present when the
    operators were registered. *)
Theorem emitter_only_appends :
  (∀ op self em,
     extends em (print_op uses attr_str DYNAMIC_INDEX op self em).2 ∧
     ∀ self',
       (print_op uses attr_str DYNAMIC_INDEX op self em).1 = Ok self' →
       _prefix self' = _prefix self) ∧
  (∀ body self em,
     extends em (print_block uses attr_str DYNAMIC_INDEX body self em).2 ∧
     ∀ self',
       (print_block uses attr_str DYNAMIC_INDEX body self em).1 = Ok self' →
       _prefix self' = _prefix self) ∧
  (∀ prog,
     extends (register_binops new_emitter).2
       (print_to_ftn uses attr_str DYNAMIC_INDEX prog).2).
Proof.
  split_and!.
  - intros op self em. apply print_op_sound.
  - intros body self em. apply print_block_sound, Forall_forall.
    intros o _. apply print_op_sound.
  - intros prog. unfold print_to_ftn.
    change ((register_binops;;
             print_modules uses attr_str DYNAMIC_INDEX root_context false prog;;
             mret tt) new_emitter)
      with ((print_modules uses attr_str DYNAMIC_INDEX root_context false prog;;
             mret tt) (register_binops new_emitter).2).
    eapply (sound_bind (λ _, True) (λ _, True));
      [apply print_modules_sound|]. intros _ _. by apply sound_ret.
Qed.

Lemma registered_after em : registered (register_binops em).2.
Proof.
  unfold registered, register_binops, Py.update. simpl.
  by rewrite !get_set_ne, !get_set_eq by done.
Qed.

Lemma print_expr_cmpi v l r res self em :
  print_expr attr_str (CmpiOp v l r res) self em
  = match Py.index CMPI_COMPARISON_OPERATIONS v with
    | Ok str_pred =>
        match print_owner attr_str l self em with
        | (Ok self1, em1) =>
            match Py.item (_cmp_ops em1) "arith.cmpi"
                  ≫= λ table, Py.item table str_pred with
            | Ok symbol =>
                print_owner attr_str r self1
                  (print self1 (" " +:+ Py.str_opt symbol +:+ " ")
                     "" "" false em1).2
            | Raise e => (Raise e, em1)
            end
        | (Raise e, em1) => (Raise e, em1)
        end
    | Raise e => (Raise e, em)
    end.
Proof.
  simpl. destruct (Py.index CMPI_COMPARISON_OPERATIONS v) as [p|e]; [|done].
  rewrite emit_bind_eq. simpl. rewrite emit_bind_eq.
  destruct (print_owner attr_str l self em) as [[self1|e] em1]; [|done].
  rewrite emit_bind_eq. simpl.
  destruct (Py.item (_cmp_ops em1) "arith.cmpi") as [table|e]; [|done].
  simpl. rewrite emit_bind_eq. simpl.
  destruct (Py.item table p) as [symbol|e]; [|done]. done.
Qed.

Lemma item_get {V} (d : Py.dict V) k :
  Py.item d k = match Py.get d k with
                | Some v => Ok v
                | None => Raise Py.KeyError
                end.
Proof. done. Qed.

Lemma valid_predicate (v : Z) :
  (0 ≤ v < 10)%Z → ∃ k : nat, k < 10 ∧ v = Z.of_nat k.
Proof. intros Hv. exists (Z.to_nat v). lia. Qed.

(** X7. Integer comparisons: [register_binops] installs the table of
    integer comparisons whatever the tables held before; with that table a
    comparison by predicate 0 to 9 prints its left operand, the Fortran
    operator of the predicate between blanks (signed and unsigned
    predicates share [.lt.], [.le.], [.gt.] and [.ge.]) and its right
    operand; a predicate from 10 on raises [IndexError] and prints nothing;
    without the table the comparison raises [KeyError] after its left
    operand has been printed. *)
Theorem comparison_prints_the_registered_operator :
  (∀ em, registered (register_binops em).2) ∧
  (∀ v l r res self em,
     registered em → (0 ≤ v < 10)%Z →
     print_expr attr_str (CmpiOp v l r res) self em
     = (self ← print_owner attr_str l self;
        print self (" " +:+ fortran_operator v +:+ " ") "" "" false;;
        print_owner attr_str r self) em) ∧
  (∀ v l r res self em,
     (10 ≤ v)%Z →
     print_expr attr_str (CmpiOp v l r res) self em
     = (Raise Py.IndexError, em)) ∧
  (∀ v l r res self em self1 em1,
     (0 ≤ v < 10)%Z →
     Py.get (_cmp_ops em) "arith.cmpi" = None →
     print_owner attr_str l self em = (Ok self1, em1) →
     print_expr attr_str (CmpiOp v l r res) self em
     = (Raise Py.KeyError, em1)).
Proof.
  split_and!.
  - apply registered_after.
  - intros v l r res self em Hreg Hv. rewrite print_expr_cmpi, emit_bind_eq.
    pose proof (print_owner_sound attr_str l self em) as [Hext _].
    apply valid_predicate in Hv as (k & Hk & ->).
    destruct (print_owner attr_str l self em) as [[self1|e] em1];
      simpl in Hext.
    2:{ do 10 (destruct k as [|k]; [reflexivity|]). lia. }
    destruct Hext as (_ & _ & _ & Hcmp).
    unfold registered in Hreg. rewrite <-Hcmp in Hreg.
    rewrite (item_get (_cmp_ops em1)), Hreg.
    do 10 (destruct k as [|k]; [reflexivity|]). lia.
  - intros v l r res self em Hv. rewrite print_expr_cmpi.
    unfold Py.index. rewrite (proj2 (Z.ltb_ge v 0)) by lia.
    rewrite (proj2 (Z.ltb_ge v 0)) by lia.
    rewrite lookup_ge_None_2; [done|]. simpl. lia.
  - intros v l r res self em self1 em1 Hv Hnone Hl.
    rewrite print_expr_cmpi, Hl.
    pose proof (print_owner_sound attr_str l self em) as [Hext _].
    rewrite Hl in Hext. destruct Hext as (_ & _ & _ & Hcmp). simpl in Hcmp.
    rewrite (item_get (_cmp_ops em1)), Hcmp, Hnone.
    apply valid_predicate in Hv as (k & Hk & ->).
    do 10 (destruct k as [|k]; [reflexivity|]). lia.
Qed.

Lemma getBaseType_cases text :
  typing.getBaseType text
  = if decide (text = "character") then Ok i8
    else if decide (text = "integer") then Ok i32
    else if decide (text = "real") then Ok f64
    else Raise Py.AssertionError.
Proof.
  unfold typing.getBaseType, Py.mem, Py.item. simpl.
  repeat (case_decide; simplify_eq; try done).
Qed.

Lemma existsb_dynamic (shape : list Z) :
  existsb (λ dim, bool_decide (dim = DYNAMIC_INDEX)) shape
  = bool_decide (DYNAMIC_INDEX ∈ shape).
Proof.
  induction shape as [|d shape IH]; [done|]. simpl. rewrite IH.
  destruct (decide (d = DYNAMIC_INDEX)) as [->|Hne].
  - rewrite (bool_decide_true (DYNAMIC_INDEX = _)) by done.
    by rewrite (bool_decide_true (DYNAMIC_INDEX ∈ DYNAMIC_INDEX :: shape))
      by left.
  - rewrite (bool_decide_false (d = _)) by done. simpl.
    apply bool_decide_ext. rewrite elem_of_cons.
    split; [by right|intros [?|?]; [congruence|done]].
Qed.

(** X8. Slot types: the declared types the generator can allocate are
    [character], [integer] and [real] (any other fails the assertion of
    [getBaseType]), and a slot of such a type is printed as
    [character(len=...)], [integer(...)] or [real(kind=8)(...)] with its
    extents between the brackets (none for a scalar).  A dynamic extent
    raises [ValueError]; an integer type of a width other than 1, 8 and 32
    fails the assertion. *)
Theorem slot_types_are_printed :
  (∀ text,
     typing.getBaseType text
     = if decide (text = "character") then Ok i8
       else if decide (text = "integer") then Ok i32
       else if decide (text = "real") then Ok f64
       else Raise Py.AssertionError) ∧
  (∀ text base shape,
     typing.getBaseType text = Ok base →
     DYNAMIC_INDEX ∉ shape →
     mlir_type_to_ftn_type DYNAMIC_INDEX (MemRefType base shape)
     = Ok (Some (fortran_slot_type text shape))) ∧
  (∀ elem shape,
     DYNAMIC_INDEX ∈ shape →
     mlir_type_to_ftn_type DYNAMIC_INDEX (MemRefType elem shape)
     = Raise Py.ValueError) ∧
  (∀ width,
     width ∉ [1; 8; 32]%Z →
     mlir_type_to_ftn_type DYNAMIC_INDEX (IntegerType width)
     = Raise Py.AssertionError).
Proof.
  split_and!.
  - apply getBaseType_cases.
  - intros text base shape Hbase Hdyn. rewrite getBaseType_cases in Hbase.
    simpl. rewrite existsb_dynamic, bool_decide_false by done.
    unfold fortran_slot_type.
    repeat (case_decide; simplify_eq; try done).
  - intros elem shape Hdyn. simpl.
    by rewrite existsb_dynamic, bool_decide_true.
  - intros width Hw. simpl.
    assert (width ≠ 1 ∧ width ≠ 8 ∧ width ≠ 32)%Z as (H1 & H8 & H32).
    { split_and!; intros ->; apply Hw; set_solver. }
    by rewrite !decide_False, bool_decide_false by done.
Qed.

Lemma print_line_one self text em :
  Py.contains "010"%char text = false →
  print_line self text em
  = (Ok tt, emitted em (_prefix self +:+ text +:+ newline)).
Proof.
  intros H. unfold print_line, print, write.
  rewrite split_without_separator by done. simpl.
  change ("" +:+ (_prefix self +:+ "") +:+ text +:+ newline)
    with ((_prefix self +:+ "") +:+ text +:+ newline).
  by rewrite append_empty_r.
Qed.

Lemma print_op_silent op self em :
  is_silent op = true →
  print_op uses attr_str DYNAMIC_INDEX op self em = (Ok self, em).
Proof. destruct op; try done. simpl. by intros ->. Qed.

Lemma print_block_silent body self em :
  Forall (λ op, is_silent op = true) body →
  print_block uses attr_str DYNAMIC_INDEX body self em = (Ok self, em).
Proof.
  induction 1 as [|op body Hop _ IH]; [done|].
  by rewrite print_block_cons, emit_bind_eq, print_op_silent.
Qed.

Lemma print_modules_filter ops : ∀ ctx divider em,
  print_modules uses attr_str DYNAMIC_INDEX ctx divider ops em
  = print_modules uses attr_str DYNAMIC_INDEX ctx divider
      (List.filter is_module ops) em.
Proof.
  induction ops as [|op ops IH]; intros ctx divider em; [done|].
  destruct op; simpl; try apply IH.
  rewrite !emit_bind_eq.
  destruct ((if divider then print_line ctx "// -----" else mret tt) em)
    as [[[]|e] em1]; [|done].
  rewrite !emit_bind_eq.
  destruct (match sym_name with
            | Some name => print_line ctx ("// FILE: " +:+ name)
            | None => print_ftn.lift (Raise Py.AttributeError)
            end em1) as [[[]|e] em2]; [|done].
  rewrite !emit_bind_eq.
  destruct (print_block uses attr_str DYNAMIC_INDEX body ctx em2)
    as [[ctx1|e] em3]; [|done].
  apply IH.
Qed.

(** X9. Whole programs: [print_to_ftn] prints the modules among the
    top-level operations and skips every other operation; a program
    without a module prints nothing.  A module without a symbol name raises
    [AttributeError].  A module whose body holds only operations without a
    case in [print_op] (nested modules among them) and external
    declarations prints its [// FILE:] line alone, after the divider line
    if a module came before it. *)
Theorem only_modules_are_printed :
  (∀ ops ctx divider em,
     print_modules uses attr_str DYNAMIC_INDEX ctx divider ops em
     = print_modules uses attr_str DYNAMIC_INDEX ctx divider
         (List.filter is_module ops) em) ∧
  (∀ prog,
     Forall (λ op, is_module op = false) prog →
     print_to_ftn uses attr_str DYNAMIC_INDEX prog
     = (Ok tt, (register_binops new_emitter).2)) ∧
  (∀ ctx divider body rest em,
     (print_modules uses attr_str DYNAMIC_INDEX ctx divider
        (ModuleOp None body :: rest) em).1
     = Raise Py.AttributeError) ∧
  (∀ ctx divider name body rest em,
     Forall (λ op, is_silent op = true) body →
     Py.contains "010"%char name = false →
     print_modules uses attr_str DYNAMIC_INDEX ctx divider
       (ModuleOp (Some name) body :: rest) em
     = print_modules uses attr_str DYNAMIC_INDEX ctx true rest
         (emitted
            (if divider
             then emitted em (_prefix ctx +:+ "// -----" +:+ newline)
             else em)
            (_prefix ctx +:+ ("// FILE: " +:+ name) +:+ newline))).
Proof.
  split_and!.
  - apply print_modules_filter.
  - intros prog Hprog. unfold print_to_ftn.
    change ((register_binops;;
             print_modules uses attr_str DYNAMIC_INDEX root_context false prog;;
             mret tt) new_emitter)
      with ((print_modules uses attr_str DYNAMIC_INDEX root_context false prog;;
             mret tt) (register_binops new_emitter).2).
    rewrite emit_bind_eq, print_modules_filter.
    replace (List.filter is_module prog) with (@nil Operation); [done|].
    induction Hprog as [|op prog Hop _ IH]; [done|]. simpl.
    by rewrite Hop.
  - intros ctx divider body rest em. simpl. rewrite emit_bind_eq.
    by destruct divider.
  - intros ctx divider name body rest em Hbody Hname. simpl.
    rewrite emit_bind_eq.
    assert (Py.contains "010"%char ("// FILE: " +:+ name) = false) as Hfile.
    { by vm_compute; vm_compute in Hname; rewrite Hname. }
    destruct divider.
    + rewrite print_line_one by done. rewrite emit_bind_eq.
      rewrite print_line_one by done. rewrite emit_bind_eq.
      by rewrite print_block_silent.
    + simpl. rewrite emit_bind_eq.
      rewrite print_line_one by done. rewrite emit_bind_eq.
      by rewrite print_block_silent.
Qed.

End emitter_more.

(** ** The reader of metadata files *)
Section reader_facts.
Import ccpp_descriptors ccpp_xml metadata reading.

Lemma parse_lines_app pre post : ∀ l,
  parse_lines l (pre ++ post) = l1 ← parse_lines l pre; parse_lines l1 post.
Proof.
  induction pre as [|line pre IH]; intros l; [done|]. simpl.
  destruct (parse_line l line) as [l1|e]; [apply IH|done].
Qed.

Lemma parse_line_no_equals l line :
  is_header line = false →
  Py.contains "="%char (Py.strip line) = false →
  parse_line l line = Raise Py.AssertionError.
Proof.
  unfold is_header, parse_line. intros -> ->.
  by destruct (Py.assert _) as [[]|[]] eqn:H; [|destruct (parse_state l)..].
Qed.

Ltac parse_line_cases H :=
  unfold parse_line, store_current_arg, append_current_table, Py.assert,
    is_properties_header, is_arg_table_header, is_header, header_token,
    tables_held in *;
  cbv [mbind result_bind Py.bind fmap result_fmap] in H;
  repeat (simplify_eq/=; case_match); simplify_eq/=.

Lemma parse_line_properties_kept l line l' :
  parse_line l line = Ok l' →
  is_Some (current_table_properties l) →
  is_Some (current_table_properties l').
Proof.
  intros H [p Hp]. destruct l as [p0 t s tables a]. simpl in Hp. subst p0.
  parse_line_cases H; eauto.
Qed.

Lemma parse_line_second_properties l line :
  is_properties_header line = true →
  is_Some (current_table_properties l) →
  ∃ e, parse_line l line = Raise e.
Proof.
  intros Hline [p Hp]. destruct l as [p0 t s tables a]. simpl in Hp. subst p0.
  destruct (parse_line _ line) as [l'|e] eqn:H; [|by exists e].
  apply andb_prop in Hline as [Hhead Htoken%bool_decide_eq_true].
  parse_line_cases H; try done.
  all: match goal with
       | H : bool_decide (?x = ?y) = false, E : ?x = ?y |- _ =>
           by apply bool_decide_eq_false in H
       end.
Qed.

Lemma parse_line_properties_opened l line l' :
  is_properties_header line = true →
  parse_line l line = Ok l' →
  is_Some (current_table_properties l').
Proof.
  intros Hline H. destruct l as [p0 t s tables a].
  apply andb_prop in Hline as [Hhead Htoken%bool_decide_eq_true].
  parse_line_cases H; eauto.
  all: match goal with
       | H : bool_decide (?x = ?y) = false, E : ?x = ?y |- _ =>
           by apply bool_decide_eq_false in H
       end.
Qed.

Lemma parse_line_properties_unopened l line l' :
  is_properties_header line = false →
  parse_line l line = Ok l' →
  current_table_properties l = None →
  current_table_properties l' = None.
Proof.
  intros Hline H Hp. destruct l as [p0 t s tables a]. simpl in Hp. subst p0.
  parse_line_cases H; try done.
  all: by rewrite ?andb_true_l, ?bool_decide_eq_false in Hline.
Qed.

Lemma parse_line_tables l line l' :
  parse_line l line = Ok l' →
  tables_held l'
  = tables_held l + (if is_arg_table_header line then 1 else 0).
Proof.
  intros H. destruct l as [p0 t s tables a].
  parse_line_cases H; rewrite ?length_app; simpl; try lia.
  all: match goal with
       | H1 : bool_decide (?x = _) = true, H2 : bool_decide (?x = _) = true
         |- _ =>
           apply bool_decide_eq_true in H1; apply bool_decide_eq_true in H2;
           congruence
       end.
Qed.

Lemma parse_lines_properties file : ∀ l l',
  parse_lines l file = Ok l' →
  (is_Some (current_table_properties l) →
     length (List.filter is_properties_header file) = 0 ∧
     is_Some (current_table_properties l')) ∧
  (current_table_properties l = None →
     (is_Some (current_table_properties l') ∧
      length (List.filter is_properties_header file) = 1) ∨
     (current_table_properties l' = None ∧
      length (List.filter is_properties_header file) = 0)).
Proof.
  induction file as [|line file IH]; intros l l' H; simpl in H.
  { injection H as <-. split; [done|]. intros Hp. by right. }
  apply result_bind_ok in H as (l1 & Hline & H).
  destruct (IH _ _ H) as [IHsome IHnone]. simpl.
  destruct (is_properties_header line) eqn:Hhead; simpl.
  - pose proof (parse_line_properties_opened _ _ _ Hhead Hline) as Hopened.
    destruct (IHsome Hopened) as [Hcount Hl']. split.
    + intros Hl.
      destruct (parse_line_second_properties l line Hhead Hl) as [e He].
      congruence.
    + intros _. left. split; [done|]. by rewrite Hcount.
  - split.
    + intros Hl. apply IHsome. by eapply parse_line_properties_kept.
    + intros Hl. apply IHnone. by eapply parse_line_properties_unopened.
Qed.

Lemma parse_lines_tables file : ∀ l l',
  parse_lines l file = Ok l' →
  tables_held l'
  = tables_held l + length (List.filter is_arg_table_header file).
Proof.
  induction file as [|line file IH]; intros l l' H; simpl in H.
  { injection H as <-. simpl. lia. }
  apply result_bind_ok in H as (l1 & Hline & H).
  rewrite (IH _ _ H), (parse_line_tables _ _ _ Hline). simpl.
  destruct (is_arg_table_header line); simpl; lia.
Qed.

(** X10. Lines: a line that is not a header (its text does not hold both
    brackets) must hold an [=]; a blank line, a comment or any other such
    line fails the reader's assertion whatever was read before, and so does
    every attribute line that comes before the first header.  A file with
    such a line is not read. *)
Theorem line_without_equals_is_fatal :
  (∀ l line,
     is_header line = false →
     Py.contains "="%char (Py.strip line) = false →
     parse_line l line = Raise Py.AssertionError) ∧
  (∀ line,
     is_header line = false →
     parse_line initial line = Raise Py.AssertionError) ∧
  (∀ pre line post isScheme,
     is_header line = false →
     Py.contains "="%char (Py.strip line) = false →
     ∃ e, parse_metadata_file (pre ++ line :: post) isScheme = Raise e).
Proof.
  split_and!.
  - apply parse_line_no_equals.
  - intros line Hline. unfold is_header in Hline. unfold parse_line.
    by rewrite Hline.
  - intros pre line post isScheme Hline Heq. unfold parse_metadata_file.
    rewrite parse_lines_app.
    destruct (parse_lines initial pre) as [l1|e]; [|by exists e]. simpl.
    rewrite parse_line_no_equals by done. by eexists.
Qed.

(** X11. Headers: a file that the reader accepts has exactly one
    [ccpp-table-properties] header, and the unit returned has one argument
    table for each [ccpp-arg-table] header of the file and is a scheme unit
    or a host unit as asked. *)
Theorem accepted_file_has_one_properties_header file isScheme md :
  parse_metadata_file file isScheme = Ok md →
  length (List.filter is_properties_header file) = 1 ∧
  length (md_arg_tables md)
  = length (List.filter is_arg_table_header file) ∧
  is_scheme md = isScheme.
Proof.
  unfold parse_metadata_file. intros H.
  apply result_bind_ok in H as (l & Hl & H).
  apply result_bind_ok in H as (t & Ht & H).
  destruct (current_table_properties l) as [p|] eqn:Hp; [|done].
  injection H as <-. simpl.
  destruct (parse_lines_properties _ _ _ Hl) as [_ Hnone].
  destruct (Hnone eq_refl) as [[_ Hone]|[Hnot _]]; [|congruence].
  split; [done|]. split; [|done].
  apply parse_lines_tables in Hl. simpl in Hl. rewrite <-Hl.
  unfold tables_held, store_current_arg, append_current_table in *.
  destruct (current_arg l), (current_arg_table l); simplify_eq/=;
    rewrite ?length_app; simpl; lia.
Qed.

(** X11, witness: the unit with two argument tables. *)
Lemma accepted_file_has_one_properties_header_witness :
  ∃ md,
    parse_metadata_file twice_file true = Ok md ∧
    length (List.filter is_properties_header twice_file) = 1 ∧
    length (md_arg_tables md)
    = length (List.filter is_arg_table_header twice_file) ∧
    is_scheme md = true.
Proof.
  eexists. split; [vm_compute; reflexivity|].
  apply (accepted_file_has_one_properties_header twice_file true).
  vm_compute. reflexivity.
Defined.

Lemma split_at_separator sep k r :
  Py.contains sep k = false →
  Py.split sep (k +:+ String sep r) = k :: Py.split sep r.
Proof.
  induction k as [|c k IH].
  { intros _. change ("" +:+ String sep r) with (String sep r). simpl.
    by rewrite decide_True. }
  intros Hk. simpl in Hk. destruct (decide (c = sep)) as [|Hc]; [done|].
  change (String c k +:+ String sep r) with (String c (k +:+ String sep r)).
  simpl. rewrite decide_False by done. by rewrite IH.
Qed.

Lemma contains_separator sep k r :
  Py.contains sep (k +:+ String sep r) = true.
Proof.
  induction k as [|c k IH]; simpl.
  - change ("" +:+ String sep r) with (String sep r). simpl.
    by rewrite decide_True.
  - change (String c k +:+ String sep r) with (String c (k +:+ String sep r)).
    simpl. by case_decide.
Qed.

(** X12. Values: in an argument block, an attribute line [k = v] of ASCII
    characters stores under the key [k] the text between the first [=] and
    the next [=] (or the end of the line), without the blanks around
    either; what follows a second [=] is dropped, so that
    [kind = len=512] stores the kind [len]. *)
Theorem attribute_value_ends_at_second_equals l line k v rest a :
  is_ascii line = true →
  Py.strip line = k +:+ "=" +:+ v +:+ rest →
  Py.contains "="%char k = false →
  Py.contains "="%char v = false →
  rest = "" ∨ (∃ w, rest = "=" +:+ w) →
  is_header line = false →
  parse_state l = ARG →
  current_arg l = Some a →
  parse_line l line
  = Ok (mkLocals (current_table_properties l) (current_arg_table l) ARG
          (table_arg_tables l)
          (Some (mkArgument (arg_name a)
                   (Py.set (arg_attrs a) (Py.strip k) (Py.strip v))))).
Proof.
  intros _ Hline Hk Hv Hrest Hhead Hstate Ha.
  unfold is_header in Hhead. unfold parse_line. rewrite Hhead, Hline.
  rewrite Hstate, Ha.
  change (k +:+ "=" +:+ v +:+ rest) with (k +:+ String "=" (v +:+ rest)).
  rewrite contains_separator, split_at_separator by done.
  assert (∃ tail, Py.split "=" (v +:+ rest) = v :: tail) as [tail ->].
  { destruct Hrest as [->|[w ->]].
    - rewrite append_empty_r, split_without_separator by done. by eexists.
    - change (v +:+ "=" +:+ w) with (v +:+ String "=" w).
      rewrite split_at_separator by done. by eexists. }
  done.
Qed.

(** X12, witness: the line [kind = len=512] in the block of an argument. *)
Lemma attribute_value_ends_at_second_equals_witness :
  parse_line (in_argument (mkArgument "errmsg" [("type", "character")]))
    "  kind = len=512"
  = Ok (in_argument
          (mkArgument "errmsg" [("type", "character"); ("kind", "len")])).
Proof.
  apply (attribute_value_ends_at_second_equals
           (in_argument (mkArgument "errmsg" [("type", "character")]))
           "  kind = len=512" "kind " " len" "=512"
           (mkArgument "errmsg" [("type", "character")]));
    try reflexivity.
  right. by exists "512".
Defined.

End reader_facts.

(** ** Decimal numerals *)
Section numeral_facts.
Import numerals.

Lemma digit_of_char (x : N) :
  (x < 10)%N → Py.digit_value (pretty_N_char x) = Some (Z.of_N x).
Proof.
  intros Hx.
  assert (x = 0 ∨ x = 1 ∨ x = 2 ∨ x = 3 ∨ x = 4 ∨ x = 5 ∨ x = 6 ∨ x = 7
          ∨ x = 8 ∨ x = 9)%N as Hcases by lia.
  repeat (destruct Hcases as [->|Hcases]; [done|]). by subst.
Qed.

Lemma digits_of_go (x : N) :
  (0 < x)%N →
  ∃ k : nat, ∀ s acc f,
    Py.digits (pretty_N_go x s) acc f
    = Py.digits s (acc * 10 ^ Z.of_nat k + Z.of_N x)%Z true.
Proof.
  induction (N.lt_wf_0 x) as [x _ IH]. intros Hx.
  assert (x `mod` 10 < 10)%N as Hmod by (apply N.mod_lt; lia).
  pose proof (N.div_mod x 10 ltac:(lia)) as Hdiv.
  destruct (decide (x `div` 10 = 0)%N) as [Hz|Hnz].
  - exists 1. intros s acc f. rewrite pretty_N_go_step, Hz by done.
    rewrite pretty_N_go_0. simpl. rewrite digit_of_char by done.
    f_equal. lia.
  - destruct (IH (x `div` 10)%N) as [k Hk]; [apply N.div_lt; lia|lia|].
    exists (S k). intros s acc f. rewrite pretty_N_go_step, Hk by done.
    simpl. rewrite digit_of_char by done. f_equal.
    rewrite Nat2Z.inj_succ, Z.pow_succ_r by lia. lia.
Qed.

Lemma all_chars_go (P : ascii → bool) (x : N) :
  (∀ d, (d < 10)%N → P (pretty_N_char d) = true) →
  ∀ s, all_chars P s = true → all_chars P (pretty_N_go x s) = true.
Proof.
  intros HP. induction (N.lt_wf_0 x) as [x _ IH]. intros s Hs.
  destruct (decide (x = 0)%N) as [->|Hx]; [done|].
  rewrite pretty_N_go_step by lia. apply IH; [apply N.div_lt; lia|].
  simpl. rewrite HP, Hs; [done|]. apply N.mod_lt. lia.
Qed.

Lemma head_of_go (x : N) :
  (0 < x)%N → ∀ s, ∃ c t, pretty_N_go x s = String c t ∧ is_digit c = true.
Proof.
  induction (N.lt_wf_0 x) as [x _ IH]. intros Hx s.
  rewrite pretty_N_go_step by done.
  destruct (decide (x `div` 10 = 0)%N) as [Hz|Hnz].
  - rewrite Hz, pretty_N_go_0. eexists _, _. split; [done|].
    unfold is_digit. rewrite digit_of_char; [done|]. apply N.mod_lt. lia.
  - apply IH; [apply N.div_lt; lia|by apply N.neq_0_lt_0].
Qed.

Lemma char_is_digit (d : N) :
  (d < 10)%N → is_digit (pretty_N_char d) = true.
Proof. intros Hd. unfold is_digit. by rewrite digit_of_char. Qed.

Lemma all_chars_impl (P Q : ascii → bool) s :
  (∀ c, P c = true → Q c = true) →
  all_chars P s = true → all_chars Q s = true.
Proof.
  intros HPQ. induction s as [|c s IH]; [done|]. simpl.
  intros [Hc Hs]%andb_prop. by rewrite HPQ, IH.
Qed.

Lemma lstrip_no_space s :
  all_chars (λ c, negb (Py.isspace c)) s = true → Py.lstrip s = s.
Proof.
  destruct s as [|c s]; [done|]. simpl. intros [Hc _]%andb_prop.
  by destruct (Py.isspace c).
Qed.

Lemma rstrip_no_space s :
  all_chars (λ c, negb (Py.isspace c)) s = true → Py.rstrip s = s.
Proof.
  induction s as [|c s IH]; [done|]. simpl. intros [Hc Hs]%andb_prop.
  rewrite IH by done. destruct s; [|done]. by destruct (Py.isspace c).
Qed.

Lemma strip_no_space s :
  all_chars (λ c, negb (Py.isspace c)) s = true → Py.strip s = s.
Proof.
  intros Hs. unfold Py.strip. by rewrite lstrip_no_space, rstrip_no_space.
Qed.

Lemma digit_no_space c : is_digit c = true → negb (Py.isspace c) = true.
Proof. destruct c as [[] [] [] [] [] [] [] []]; done. Qed.

Lemma digit_no_equals c :
  is_digit c = true → negb (bool_decide (c = "="%char)) = true.
Proof. destruct c as [[] [] [] [] [] [] [] []]; done. Qed.

Lemma count_digits_all s :
  all_chars is_digit s = true →
  Py.count_digits s = Z.of_nat (String.length s).
Proof.
  induction s as [|c s IH]; [done|]. intros [Hc Hs]%andb_prop.
  change (Py.count_digits (String c s))
    with (match Py.digit_value c with
          | Some _ => 1 + Py.count_digits s
          | None => Py.count_digits s
          end)%Z.
  unfold is_digit in Hc. destruct (Py.digit_value c); [|done].
  rewrite IH by done. simpl String.length. lia.
Qed.

Lemma int_of_digits c t :
  is_digit c = true →
  all_chars is_digit t = true →
  Py.int (String c t)
  = match Py.digits (String c t) 0 false with
    | Some z =>
        if (Py.int_max_str_digits <? Py.count_digits (String c t))%Z
        then Raise Py.ValueError else Ok (1 * z)%Z
    | None => Raise Py.ValueError
    end.
Proof.
  intros Hc Ht. unfold Py.int. rewrite strip_no_space.
  - destruct c as [[] [] [] [] [] [] [] []]; done.
  - simpl. rewrite digit_no_space by done.
    eapply all_chars_impl; [apply digit_no_space|done].
Qed.

Lemma pretty_positive_digits (p : positive) :
  ∃ c t, pretty (Z.pos p) = String c t ∧ is_digit c = true ∧
         all_chars is_digit t = true ∧
         Py.digits (String c t) 0 false = Some (Z.pos p).
Proof.
  change (pretty (Z.pos p)) with (pretty_N_go (N.pos p) "").
  destruct (head_of_go (N.pos p) ltac:(lia) "") as (c & t & Heq & Hc).
  exists c, t. split; [done|]. split; [done|].
  pose proof (all_chars_go is_digit (N.pos p) char_is_digit "" eq_refl) as Hall.
  rewrite Heq in Hall. simpl in Hall. apply andb_prop in Hall as [_ Hall].
  split; [done|]. rewrite <-Heq.
  destruct (digits_of_go (N.pos p) ltac:(lia)) as [k Hk]. rewrite Hk.
  simpl. f_equal.
Qed.

(** [int(str(n))] is [n] within the limit of the conversion, and is
    refused beyond it. *)
Lemma int_str (n : Z) :
  Py.int (Py.str_int n)
  = if (Py.int_max_str_digits <? decimal_digits n)%Z
    then Raise Py.ValueError else Ok n.
Proof.
  unfold decimal_digits, Py.str_int. destruct n as [|p|p]; [done| |].
  - change (Z.abs (Z.pos p)) with (Z.pos p).
    destruct (pretty_positive_digits p) as (c & t & Heq & Hc & Ht & Hd).
    rewrite Heq, int_of_digits, Hd by done.
    rewrite count_digits_all by (simpl; by rewrite Hc, Ht).
    by destruct (_ <? _)%Z.
  - change (Z.abs (Z.neg p)) with (Z.pos p).
    change (pretty (Z.neg p)) with ("-" +:+ pretty (Z.pos p)).
    destruct (pretty_positive_digits p) as (c & t & Heq & Hc & Ht & Hd).
    rewrite Heq.
    change ("-" +:+ String c t) with (String "-" (String c t)).
    unfold Py.int. rewrite strip_no_space.
    + rewrite Hd.
      rewrite count_digits_all by (simpl; by rewrite Hc, Ht).
      by destruct (_ <? _)%Z.
    + simpl. rewrite digit_no_space by done.
      eapply all_chars_impl; [apply digit_no_space|done].
Qed.

Lemma contains_none sep s :
  all_chars (λ c, negb (bool_decide (c = sep))) s = true →
  Py.contains sep s = false.
Proof.
  induction s as [|c s IH]; [done|]. simpl. intros [Hc Hs]%andb_prop.
  apply negb_true_iff, bool_decide_eq_false in Hc.
  rewrite decide_False by done. by apply IH.
Qed.

Lemma str_int_no_equals (n : Z) :
  Py.contains "="%char (Py.str_int n) = false.
Proof.
  apply contains_none. unfold Py.str_int. destruct n as [|p|p]; [done| |].
  - destruct (pretty_positive_digits p) as (c & t & -> & Hc & Ht & _).
    simpl. rewrite digit_no_equals by done.
    eapply all_chars_impl; [apply digit_no_equals|done].
  - change (pretty (Z.neg p)) with ("-" +:+ pretty (Z.pos p)).
    destruct (pretty_positive_digits p) as (c & t & -> & Hc & Ht & _).
    change ("-" +:+ String c t) with (String "-" (String c t)).
    simpl. rewrite digit_no_equals by done.
    eapply all_chars_impl; [apply digit_no_equals|done].
Qed.

Lemma length_of_kind (n : Z) :
  Py.index (Py.split "=" ("len=" +:+ Py.str_int n)) 1 ≫= Py.int
  = if (Py.int_max_str_digits <? decimal_digits n)%Z
    then Raise Py.ValueError else Ok n.
Proof.
  change ("len=" +:+ Py.str_int n) with ("len" +:+ String "=" (Py.str_int n)).
  rewrite split_at_separator by done.
  rewrite split_without_separator by apply str_int_no_equals.
  change (Py.int (Py.str_int n)
          = if (Py.int_max_str_digits <? decimal_digits n)%Z
            then Raise Py.ValueError else Ok n).
  apply int_str.
Qed.

End numeral_facts.

(** ** Character lengths *)
Section kind_facts.
Import ir ccpp_descriptors suite_cap numerals.

(** X13. Character lengths: the signature type of an argument has no
    extent when the argument has no kind or a kind without [len=], and the
    extent [n] for the kind [len=n] when [n] has at most 4300 digits (the
    limit of [int]; beyond it the conversion raises [ValueError]); the slot
    the generator allocates for a [character] argument of such a kind is a
    buffer of [n] bytes, the next value created.  A [character] argument
    without kind fails the assertion of [getAttr], and one whose kind holds
    no [=] (which is what the reader makes of [kind = len=n]) raises
    [IndexError]; the signature of the latter has no extent. *)
Theorem character_length_is_read_from_the_kind :
  (∀ text base,
     typing.getBaseType text = Ok base →
     typing.convert text None = Ok (MemRefType base [])) ∧
  (∀ text base kind,
     typing.getBaseType text = Ok base →
     Py.is_substring "len=" kind = false →
     typing.convert text (Some kind) = Ok (MemRefType base [])) ∧
  (∀ text base n,
     typing.getBaseType text = Ok base →
     (decimal_digits n ≤ 4300)%Z →
     typing.convert text (Some ("len=" +:+ Py.str_int n))
     = Ok (MemRefType base [n])) ∧
  (∀ text base n,
     typing.getBaseType text = Ok base →
     (4300 < decimal_digits n)%Z →
     typing.convert text (Some ("len=" +:+ Py.str_int n))
     = Raise Py.ValueError) ∧
  (∀ arg n rest alloc_ops k,
     getAttr (arg_attrs arg) "type" = Ok "character" →
     getAttr (arg_attrs arg) "kind" = Ok ("len=" +:+ Py.str_int n) →
     (decimal_digits n ≤ 4300)%Z →
     allocate (arg :: rest) alloc_ops k
     = allocate rest
         (Py.set alloc_ops (arg_name arg)
            (AllocaOp (mkSSA k (MemRefType i8 [n]) None)))
         (S k)) ∧
  (∀ arg rest alloc_ops k,
     getAttr (arg_attrs arg) "type" = Ok "character" →
     hasAttr (arg_attrs arg) "kind" = false →
     allocate (arg :: rest) alloc_ops k = Raise Py.AssertionError) ∧
  (∀ arg kind rest alloc_ops k,
     getAttr (arg_attrs arg) "type" = Ok "character" →
     getAttr (arg_attrs arg) "kind" = Ok kind →
     Py.contains "="%char kind = false →
     allocate (arg :: rest) alloc_ops k = Raise Py.IndexError).
Proof.
  split_and!.
  - intros text base Hbase. unfold typing.convert. by rewrite Hbase.
  - intros text base kind Hbase Hkind. unfold typing.convert.
    by rewrite Hbase, Hkind.
  - intros text base n Hbase Hn. unfold typing.convert. rewrite Hbase.
    change (Py.is_substring "len=" ("len=" +:+ Py.str_int n))
      with (Py.is_substring "len="
              (String "l" (String "e" (String "n"
                 (String "=" (Py.str_int n)))))).
    replace (Py.is_substring "len="
               (String "l" (String "e" (String "n"
                  (String "=" (Py.str_int n)))))) with true
      by (simpl; by destruct (Py.str_int n)).
    rewrite length_of_kind.
    by replace (Py.int_max_str_digits <? decimal_digits n)%Z with false
      by (symmetry; apply Z.ltb_ge; exact Hn).
  - intros text base n Hbase Hn. unfold typing.convert. rewrite Hbase.
    change (Py.is_substring "len=" ("len=" +:+ Py.str_int n))
      with (Py.is_substring "len="
              (String "l" (String "e" (String "n"
                 (String "=" (Py.str_int n)))))).
    replace (Py.is_substring "len="
               (String "l" (String "e" (String "n"
                  (String "=" (Py.str_int n)))))) with true
      by (simpl; by destruct (Py.str_int n)).
    rewrite length_of_kind.
    by replace (Py.int_max_str_digits <? decimal_digits n)%Z with true
      by (symmetry; apply Z.ltb_lt; exact Hn).
  - intros arg n rest alloc_ops k Hty Hkind Hn.
    change (allocate (arg :: rest) alloc_ops k)
      with ((arg_type ← suite_cap.lift (getAttr (arg_attrs arg) "type");
             data_shape ← suite_cap.lift (
               if decide (arg_type = "character") then
                 kind ← getAttr (arg_attrs arg) "kind";
                 n ← Py.index (Py.split "=" kind) 1 ≫= Py.int;
                 Ok [n]
               else Ok []);
             base ← suite_cap.lift (typing.getBaseType arg_type);
             op ← AllocaOp_get base data_shape;
             allocate rest (Py.set alloc_ops (arg_name arg) op)) k).
    erewrite gen_bind_step by (rewrite Hty; reflexivity).
    erewrite gen_bind_step; [reflexivity|].
    rewrite decide_True by done. rewrite Hkind.
    pose proof (length_of_kind n) as Hlen.
    replace (Py.int_max_str_digits <? decimal_digits n)%Z with false in Hlen
      by (symmetry; apply Z.ltb_ge; exact Hn).
    cbv [mbind result_bind Py.bind] in *. by rewrite Hlen.
  - intros arg rest alloc_ops k Hty Hkind. simpl. rewrite Hty. simpl.
    unfold getAttr, hasAttr in *. by rewrite Hkind.
  - intros arg kind rest alloc_ops k Hty Hkind Hno. simpl.
    rewrite Hty, Hkind. simpl.
    by rewrite split_without_separator by done.
Qed.

End kind_facts.

(** ** Attributes and signatures *)
Section descriptor_facts.
Import ir ccpp_descriptors signatures.

Lemma getAttr_get attrs key :
  getAttr attrs key = match Py.get attrs key with
                      | Some v => Ok v
                      | None => Raise Py.AssertionError
                      end.
Proof. unfold getAttr, Py.mem, Py.item. by destruct (Py.get attrs key). Qed.

Lemma hasAttr_get attrs key :
  hasAttr attrs key = bool_decide (is_Some (Py.get attrs key)).
Proof.
  unfold hasAttr, Py.mem. destruct (Py.get attrs key).
  - by rewrite bool_decide_true.
  - rewrite bool_decide_false; [done|]. by intros [? ?].
Qed.

(** X14. Attributes: a value stored under a key is the value read back
    under it, and no other key is affected; reading a key that is not there
    fails the assertion.  A table-properties item takes only the keys
    [name], [type], [dependencies] and [relative_path], and as [type] only
    [scheme], [module] or [ddt] ([ValueError] otherwise); an argument table
    takes only [name] and [type]; an argument takes any key. *)
Theorem attributes_are_stored_by_key :
  (∀ attrs key value allowed attrs',
     setAttr attrs key value allowed = Ok attrs' →
     getAttr attrs' key = Ok value ∧
     ∀ key', key' ≠ key →
       getAttr attrs' key' = getAttr attrs key' ∧
       hasAttr attrs' key' = hasAttr attrs key') ∧
  (∀ attrs key,
     hasAttr attrs key = false →
     getAttr attrs key = Raise Py.AssertionError) ∧
  (∀ p key value p',
     setAttr_properties p key value = Ok p' →
     key ∈ ["name"; "type"; "dependencies"; "relative_path"] ∧
     (key = "type" → value ∈ ["scheme"; "module"; "ddt"]) ∧
     arg_tables p' = arg_tables p ∧
     getAttr (prop_attrs p') key = Ok value) ∧
  (∀ p value,
     value ∉ ["scheme"; "module"; "ddt"] →
     setAttr_properties p "type" value = Raise Py.ValueError) ∧
  (∀ t key value t',
     setAttr_table t key value = Ok t' →
     key ∈ ["name"; "type"] ∧
     function_arguments t' = function_arguments t ∧
     getAttr (table_attrs t') key = Ok value) ∧
  (∀ a key value,
     ∃ a', setAttr_argument a key value = Ok a' ∧
           arg_name a' = arg_name a ∧
           getAttr (arg_attrs a') key = Ok value).
Proof.
  assert (∀ attrs key value allowed attrs',
            setAttr attrs key value allowed = Ok attrs' →
            attrs' = Py.set attrs key value ∧
            ∀ ks, allowed = Some ks → key ∈ ks) as Hset.
  { intros attrs key value allowed attrs' H. unfold setAttr in H.
    destruct allowed as [ks|]; simpl in H.
    - unfold Py.assert in H. case_bool_decide; [|done].
      injection H as <-. split; [done|]. by intros ? [= <-].
    - injection H as <-. split; [done|]. by intros ? [=]. }
  split_and!.
  - intros attrs key value allowed attrs' [-> _]%Hset.
    rewrite getAttr_get, get_set_eq. split; [done|]. intros key' Hne.
    by rewrite !getAttr_get, !hasAttr_get, get_set_ne.
  - intros attrs key H. rewrite getAttr_get. unfold hasAttr, Py.mem in H.
    by destruct (Py.get attrs key).
  - intros p key value p' H. unfold setAttr_properties in H.
    apply result_bind_ok in H as (v & Hv & H).
    apply result_bind_ok in H as (attrs & [-> Hkeys]%Hset & H).
    injection H as <-. simpl. rewrite getAttr_get, get_set_eq.
    assert (v = value ∧ (key = "type" → value ∈ ["scheme"; "module"; "ddt"]))
      as [-> Htype].
    { destruct (decide (key = "type")); [|by injection Hv as <-].
      unfold CCPPType in Hv. case_bool_decide; [|done].
      by injection Hv as <-. }
    split_and!; [by apply Hkeys|done..].
  - intros p value Hvalue. unfold setAttr_properties, CCPPType. simpl.
    by rewrite bool_decide_false.
  - intros t key value t' H. unfold setAttr_table in H.
    apply result_bind_ok in H as (attrs & [-> Hkeys]%Hset & H).
    injection H as <-. simpl. rewrite getAttr_get, get_set_eq.
    split_and!; [by apply Hkeys|done..].
  - intros a key value. eexists. split; [reflexivity|]. simpl.
    by rewrite getAttr_get, get_set_eq.
Qed.

Lemma optional_kind attrs :
  (if hasAttr attrs "kind" then Some <$> getAttr attrs "kind" else Ok None)
  = Ok (Py.get attrs "kind").
Proof.
  rewrite getAttr_get. unfold hasAttr, Py.mem.
  by destruct (Py.get attrs "kind").
Qed.

Lemma signature_args_cons fn_arg rest in_args out_args :
  suite_meta.signature_args (fn_arg :: rest) in_args out_args
  = (arg_type ← declared_type fn_arg;
     match Py.get (arg_attrs fn_arg) "intent" with
     | None =>
         suite_meta.signature_args rest (in_args ++ [arg_type])
           (out_args ++ [arg_type])
     | Some intent =>
         if decide (intent = "in") then
           suite_meta.signature_args rest (in_args ++ [arg_type]) out_args
         else if decide (intent = "out") then
           suite_meta.signature_args rest in_args (out_args ++ [arg_type])
         else if decide (intent = "inout") then
           suite_meta.signature_args rest (in_args ++ [arg_type])
             (out_args ++ [arg_type])
         else Raise Py.AssertionError
     end).
Proof.
  simpl. unfold declared_type. rewrite optional_kind.
  destruct (getAttr (arg_attrs fn_arg) "type") as [ty|e]; [|done]. simpl.
  destruct (typing.convert ty _) as [arg_type|e]; [|done]. simpl.
  rewrite getAttr_get. unfold hasAttr, Py.mem.
  by destruct (Py.get (arg_attrs fn_arg) "intent").
Qed.

Lemma types_of_cons keep a args ty tys :
  types_of keep (a :: args) (ty :: tys)
  = (if keep a then [ty] else []) ++ types_of keep args tys.
Proof. unfold types_of. simpl. by destruct (keep a). Qed.

Lemma signature_args_ok args : ∀ ins outs ins' outs',
  suite_meta.signature_args args ins outs = Ok (ins', outs') →
  ∃ tys,
    mapM declared_type args = Ok tys ∧
    Forall known_intent args ∧
    ins' = ins ++ types_of passed_in args tys ∧
    outs' = outs ++ types_of passed_out args tys.
Proof.
  induction args as [|a args IH]; intros ins outs ins' outs' H.
  { injection H as <- <-. exists []. by rewrite !app_nil_r. }
  rewrite signature_args_cons in H.
  apply result_bind_ok in H as (ty & Hty & H).
  rewrite mapM_result_cons, Hty. simpl.
  assert (∀ (keep_in keep_out : bool) known,
            passed_in a = keep_in → passed_out a = keep_out →
            (known : Prop) → (known → known_intent a) →
            suite_meta.signature_args args
              (ins ++ if keep_in then [ty] else [])
              (outs ++ if keep_out then [ty] else []) = Ok (ins', outs') →
            ∃ tys, (k ← mapM declared_type args; Ok (ty :: k)) = Ok tys ∧
                   Forall known_intent (a :: args) ∧
                   ins' = ins ++ types_of passed_in (a :: args) tys ∧
                   outs' = outs ++ types_of passed_out (a :: args) tys)
    as Hstep.
  { intros keep_in keep_out known Hin Hout Hk Hknown Hrest.
    apply IH in Hrest as (tys & Htys & Hall & -> & ->).
    exists (ty :: tys). rewrite Htys. split; [done|].
    split; [constructor; auto|].
    by rewrite !types_of_cons, Hin, Hout, <-!app_assoc. }
  unfold passed_in, passed_out, known_intent in Hstep.
  destruct (Py.get (arg_attrs a) "intent") as [intent|] eqn:Hintent.
  - repeat case_decide; subst; try done.
    + apply (Hstep true false True); rewrite ?app_nil_r; try done.
      intros _. set_solver.
    + apply (Hstep false true True); rewrite ?app_nil_r; try done.
      intros _. set_solver.
    + apply (Hstep true true True); try done. intros _. set_solver.
  - apply (Hstep true true True); try done. intros _. set_solver.
Qed.

Lemma signature_args_total args : ∀ tys ins outs,
  mapM declared_type args = Ok tys →
  Forall known_intent args →
  suite_meta.signature_args args ins outs
  = Ok (ins ++ types_of passed_in args tys,
        outs ++ types_of passed_out args tys).
Proof.
  induction args as [|a args IH]; intros tys ins outs Htys Hall.
  { injection Htys as <-. simpl. by rewrite !app_nil_r. }
  rewrite mapM_result_cons in Htys.
  apply result_bind_ok in Htys as (ty & Hty & Htys).
  apply result_bind_ok in Htys as (tys' & Htys' & Htys).
  injection Htys as <-. apply Forall_cons in Hall as [Ha Hall].
  rewrite signature_args_cons, Hty. simpl.
  rewrite !types_of_cons. unfold passed_in, passed_out, known_intent in *.
  destruct (Py.get (arg_attrs a) "intent") as [intent|] eqn:Hintent.
  - assert (intent = "in" ∨ intent = "out" ∨ intent = "inout") as Hcases.
    { apply elem_of_cons in Ha as [?|Ha]; [done|].
      apply elem_of_cons in Ha as [[= ->]|Ha]; [by left|].
      apply elem_of_cons in Ha as [[= ->]|Ha]; [by right; left|].
      apply list_elem_of_singleton in Ha as [= ->]. by right; right. }
    destruct Hcases as [Hi|[Hi|Hi]]; subst intent; simpl;
      rewrite (IH tys') by done; by rewrite ?app_nil_r, <-?app_assoc.
  - rewrite (IH tys') by done. by rewrite <-!app_assoc.
Qed.

(** X15. Signatures: the declaration generated for an argument table is
    external, named by the table, and takes its inputs and outputs from the
    arguments in their order: an argument is an input unless its intent is
    [out] and an output unless its intent is [in] (so [inout] and a missing
    intent give both), its type being the converted declared type and
    kind.  It is generated exactly when the table has a name, every
    argument has a convertible type and every intent present is one of
    [in], [out] and [inout]. *)
Theorem signature_follows_the_intents :
  (∀ t fn,
     suite_meta.generate_function_signature t = Ok fn →
     ∃ name tys,
       getAttr (table_attrs t) "name" = Ok name ∧
       mapM declared_type (getFunctionArguments t) = Ok tys ∧
       Forall known_intent (getFunctionArguments t) ∧
       fn = FuncOp_external name
              (types_of passed_in (getFunctionArguments t) tys)
              (types_of passed_out (getFunctionArguments t) tys)) ∧
  (∀ t name tys,
     getAttr (table_attrs t) "name" = Ok name →
     mapM declared_type (getFunctionArguments t) = Ok tys →
     Forall known_intent (getFunctionArguments t) →
     suite_meta.generate_function_signature t
     = Ok (FuncOp_external name
             (types_of passed_in (getFunctionArguments t) tys)
             (types_of passed_out (getFunctionArguments t) tys))).
Proof.
  split.
  - intros t fn H. unfold suite_meta.generate_function_signature in H.
    apply result_bind_ok in H as ([ins outs] & Hargs & H).
    apply result_bind_ok in H as (name & Hname & H). injection H as <-.
    apply signature_args_ok in Hargs as (tys & Htys & Hall & -> & ->).
    by exists name, tys.
  - intros t name tys Hname Htys Hall.
    unfold suite_meta.generate_function_signature.
    rewrite (signature_args_total _ tys) by done. simpl.
    by rewrite Hname.
Qed.

End descriptor_facts.

(** ** Gathered signatures and the rewrite of a suite *)
Section rewrite_facts.
Import ir ccpp_descriptors suite_cap suite_cap_rewrite generated allocation rewriting.

Lemma traverse_func_op_get op d k :
  Py.get (traverse_func_op d op) k
  = if declares k op then Some op else Py.get d k.
Proof.
  destruct op; try done. simpl.
  destruct (is_declaration body); [|by rewrite andb_false_r].
  rewrite andb_true_r. case_bool_decide as Hk.
  - subst. apply get_set_eq.
  - by apply get_set_ne.
Qed.

(** X16. Gathering: the signature gathered under a name is the last
    external declaration of that name among the function operations
    visited; a function with a body is not gathered, and a name without
    declaration keeps what was there. *)
Theorem gathered_signature_is_the_last_declaration :
  ∀ ops d k,
    Py.get (foldl traverse_func_op d ops) k
    = match last (List.filter (declares k) ops) with
      | Some op => Some op
      | None => Py.get d k
      end.
Proof.
  induction ops as [|op ops IH]; intros d k; [done|]. simpl.
  rewrite IH, traverse_func_op_get.
  destruct (declares k op) eqn:Hop; [|done].
  destruct (List.filter (declares k) ops) as [|o l] eqn:Hf; [done|].
  rewrite !last_cons. by destruct (last l).
Qed.

Lemma mapM_result_app {A B} (f : A → Py.result B) l1 l2 k :
  mapM f (l1 ++ l2) = Ok k →
  ∃ k1 k2, mapM f l1 = Ok k1 ∧ mapM f l2 = Ok k2 ∧ k = k1 ++ k2.
Proof.
  intros H. apply mapM_result_Forall2 in H.
  apply Forall2_app_inv_l in H as (k1 & k2 & H1 & H2 & ->).
  exists k1, k2. split_and!; [by apply mapM_result_Forall2..|done].
Qed.

(** X17. The CAP module: the rewrite of a suite operation puts one new
    module, named after the suite with [_cap], in front of the operations
    of the top-level module and leaves those as they are.  The module
    holds the initialization subroutine (generated for the callees
    [<scheme>_init], named [<suite>_suite_initialize]), the finalization
    subroutine (callees [<scheme>_finalize], named
    [<suite>_suite_finalize]), then one external declaration for every
    distinct callee of the first and of the second, cloned from the
    gathered signature.  A suite name without description raises
    [KeyError]. *)
Theorem cap_module_is_prepended :
  (∀ self top name n,
     Py.get (suite_descriptions self) name = None →
     match_and_rewrite self top name n = Raise Py.KeyError) ∧
  (∀ self top name n top' n',
     match_and_rewrite self top name n = Ok (top', n') →
     ∃ suite init_fn finalise_fn clones n1,
       Py.get (suite_descriptions self) name = Some suite ∧
       top' = ModuleOp (Some (name +:+ "_cap"))
                (init_fn :: finalise_fn :: clones) :: top ∧
       body_layout suite "_init" (Some "_initialize") n init_fn ∧
       body_layout suite "_finalize" None n1 finalise_fn ∧
       Forall2 (λ callee clone,
                  ∃ sig, Py.get (meta_fn_sigs self) callee = Some sig ∧
                         clone_func_def sig = Ok clone)
         (first_seen ((λ s, s +:+ "_init") <$> getSchemeNames suite)
          ++ first_seen ((λ s, s +:+ "_finalize") <$> getSchemeNames suite))
         clones).
Proof.
  split.
  - intros self top name n Hnone. unfold match_and_rewrite.
    apply gen_bind_raise_l. unfold suite_cap.lift, Py.item.
    by rewrite Hnone.
  - intros self top name n top' n' H. unfold match_and_rewrite in H.
    apply gen_bind_ok in H as (suite & n0 & Hsuite & H).
    apply lift_ok in Hsuite as [Hsuite%item_ok ->].
    apply gen_bind_ok in H as ([init_fn sigs_i] & n1 & Hinit & H).
    apply gen_bind_ok in H as ([finalise_fn sigs_f] & n2 & Hfin & H).
    apply gen_bind_ok in H as (clones & n3 & Hclones & H).
    apply lift_ok in Hclones as [Hclones ->]. injection H as <- <-.
    unfold clone_func_defs in Hclones. simpl in Hclones.
    rewrite app_nil_r in Hclones.
    apply mapM_result_app in Hclones as (c1 & c2 & Hc1 & Hc2 & ->).
    apply mapM_result_Forall2 in Hc1, Hc2.
    pose proof (generated_declarations _ _ _ _ _ _ _ _ Hinit) as Hd1.
    pose proof (generated_declarations _ _ _ _ _ _ _ _ Hfin) as Hd2.
    exists suite, init_fn, finalise_fn, (c1 ++ c2), n1.
    split_and!; [done|done|by eapply generated_body|by eapply generated_body|].
    apply Forall2_app.
    + clear -Hd1 Hc1. revert c1 Hc1.
      induction Hd1 as [|k d ks ds Hk _ IH]; intros c1 Hc1.
      { apply Forall2_nil_inv_l in Hc1 as ->. constructor. }
      apply Forall2_cons_inv_l in Hc1 as (c & c1' & Hc & Hc1' & ->).
      constructor; [by exists d|by apply IH].
    + clear -Hd2 Hc2. revert c2 Hc2.
      induction Hd2 as [|k d ks ds Hk _ IH]; intros c2 Hc2.
      { apply Forall2_nil_inv_l in Hc2 as ->. constructor. }
      apply Forall2_cons_inv_l in Hc2 as (c & c2' & Hc & Hc2' & ->).
      constructor; [by exists d|by apply IH].
Qed.

End rewrite_facts.

Section rewrite_examples.
Import ir ccpp_descriptors suite_cap suite_cap_rewrite generated allocation rewriting.

(** X17, witness: the suite of the scheme [H]. *)
Lemma cap_module_is_prepended_witness :
  ∃ top' n',
    match_and_rewrite pass_H [] "H" 0 = Ok (top', n') ∧
    ∃ suite init_fn finalise_fn clones n1,
      Py.get (suite_descriptions pass_H) "H" = Some suite ∧
      top' = ModuleOp (Some ("H" +:+ "_cap"))
               (init_fn :: finalise_fn :: clones) :: [] ∧
      body_layout suite "_init" (Some "_initialize") 0 init_fn ∧
      body_layout suite "_finalize" None n1 finalise_fn ∧
      Forall2 (λ callee clone,
                 ∃ sig, Py.get (meta_fn_sigs pass_H) callee = Some sig ∧
                        clone_func_def sig = Ok clone)
        (first_seen ((λ s, s +:+ "_init") <$> getSchemeNames suite)
         ++ first_seen ((λ s, s +:+ "_finalize") <$> getSchemeNames suite))
        clones.
Proof.
  eexists _, _. split; [vm_compute; reflexivity|].
  eapply (proj2 cap_module_is_prepended pass_H [] "H" 0).
  vm_compute. reflexivity.
Defined.

End rewrite_examples.

(** ** Suites from the frontend to the descriptors *)
Section suite_facts.
Import suite_ir suites.

Lemma traverse_schemes_ok ops : ∀ sch name children cur,
  traverse_schemes
    (mkBSD sch (Some (ccpp_descriptors.mkGroup name children)) cur) ops
  = Ok (mkBSD sch
          (Some (ccpp_descriptors.mkGroup name
                   (children
                    ++ ((λ op, ccpp_descriptors.mkScheme (op_scheme_name op))
                          <$> ops))))
          (match ops with [] => cur | _ => None end)).
Proof.
  induction ops as [|op ops IH]; intros sch name children cur; simpl.
  { by rewrite app_nil_r. }
  rewrite IH, <-app_assoc. by destruct ops.
Qed.

Lemma traverse_groups_ok ops : ∀ sch grp cur name version children,
  ∃ grp' cur',
    traverse_groups (mkBSD sch grp cur)
      (ccpp_descriptors.mkSuite name version children) ops
    = Ok (mkBSD sch grp' cur',
          ccpp_descriptors.mkSuite name version
            (children
             ++ ((λ op, ccpp_descriptors.mkGroup (op_group_name op)
                          ((λ s, ccpp_descriptors.mkScheme (op_scheme_name s))
                             <$> op_group_body op))
                   <$> ops))).
Proof.
  induction ops as [|op ops IH]; intros sch grp cur name version children.
  { eexists _, _. simpl. by rewrite app_nil_r. }
  simpl. unfold traverse_group_op. simpl. rewrite traverse_schemes_ok.
  simpl.
  edestruct IH as (grp' & cur' & ->). eexists _, _.
  by rewrite <-app_assoc.
Qed.

(** X18. Suites: a frontend suite is built into an operation when the
    suite and each of its groups have a [name] attribute ([KeyError]
    otherwise).  From that operation the descriptor builder recovers, under
    the suite's name, a suite with the same name, version, group names and,
    group after group, scheme names, which are the names the generator
    iterates over; a suite without [version] attribute is built by the
    frontend and makes the descriptor builder raise [AttributeError]. *)
Theorem suite_description_round_trip suite op self :
  build_suite_ir suite = Ok op →
  Py.get (suite_attributes suite) "name" = Some (op_suite_name op) ∧
  op_version op = Py.get (suite_attributes suite) "version" ∧
  match op_version op with
  | None => traverse_suite_op self op = Raise Py.AttributeError
  | Some version =>
      ∃ self' d,
        traverse_suite_op self op = Ok self' ∧
        schemes self' = Py.set (schemes self) (op_suite_name op) d ∧
        ccpp_descriptors.suite_name d = op_suite_name op ∧
        ccpp_descriptors.suite_version d = version ∧
        Forall2 (λ g grp,
                   Py.get (group_attributes grp) "name"
                   = Some (ccpp_descriptors.group_name g))
                (ccpp_descriptors.suite_children d) (suite_groups suite) ∧
        suite_cap.getSchemeNames d = scheme_texts suite
  end.
Proof.
  intros H. unfold build_suite_ir in H.
  apply result_bind_ok in H as (groups & Hgroups & H).
  apply result_bind_ok in H as (name & Hname%item_ok & H).
  injection H as <-. simpl. split; [done|].
  assert ((if Py.mem (suite_attributes suite) "version"
           then Py.get (suite_attributes suite) "version" else None)
          = Py.get (suite_attributes suite) "version") as ->.
  { unfold Py.mem. by destruct (Py.get (suite_attributes suite) "version"). }
  split; [done|].
  destruct (Py.get (suite_attributes suite) "version") as [version|];
    [|done].
  unfold traverse_suite_op. simpl. destruct self as [sch grp cur].
  destruct (traverse_groups_ok groups sch grp cur name version [])
    as (grp' & cur' & ->).
  simpl. eexists _, _. split; [done|]. simpl. split_and!; [done..| |].
  - apply mapM_result_Forall2 in Hgroups. clear -Hgroups.
    induction Hgroups as [|g gop gs gops Hg _ IH]; [constructor|].
    apply result_bind_ok in Hg as (nm & Hnm%item_ok & Hg).
    injection Hg as <-. rewrite fmap_cons. by constructor.
  - unfold suite_cap.getSchemeNames, scheme_texts. simpl. f_equal.
    apply mapM_result_Forall2 in Hgroups. clear -Hgroups.
    induction Hgroups as [|g gop gs gops Hg _ IH]; [done|].
    apply result_bind_ok in Hg as (nm & _ & Hg). injection Hg as <-.
    rewrite !fmap_cons, IH. f_equal. simpl.
    rewrite <-!list_fmap_compose. done.
Qed.

End suite_facts.

Section suite_examples.
Import suite_ir suites.

(** X18, witness: a suite of two groups. *)
Lemma suite_description_round_trip_witness :
  ∃ op,
    build_suite_ir suite_x = Ok op ∧
    Py.get (suite_attributes suite_x) "name" = Some (op_suite_name op) ∧
    op_version op = Py.get (suite_attributes suite_x) "version" ∧
    match op_version op with
    | None => traverse_suite_op (mkBSD [] None None) op
              = Raise Py.AttributeError
    | Some version =>
        ∃ self' d,
          traverse_suite_op (mkBSD [] None None) op = Ok self' ∧
          schemes self'
          = Py.set (schemes (mkBSD [] None None)) (op_suite_name op) d ∧
          ccpp_descriptors.suite_name d = op_suite_name op ∧
          ccpp_descriptors.suite_version d = version ∧
          Forall2 (λ g grp,
                     Py.get (group_attributes grp) "name"
                     = Some (ccpp_descriptors.group_name g))
                  (ccpp_descriptors.suite_children d)
                  (suite_groups suite_x) ∧
          suite_cap.getSchemeNames d = scheme_texts suite_x
    end.
Proof.
  eexists. split; [vm_compute; reflexivity|].
  apply (suite_description_round_trip suite_x _ (mkBSD [] None None)).
  vm_compute. reflexivity.
Defined.

End suite_examples.

(** ** Metadata units from the frontend to the descriptors *)
Section meta_ir_facts.
Import ccpp_descriptors ccpp_xml metadata meta_ir meta_round_trip.

Lemma without_cons xs y l :
  without xs (y :: l)
  = if bool_decide (y ∈ xs) then without xs l else y :: without xs l.
Proof. unfold without. simpl. by case_bool_decide. Qed.

Lemma without_none xs l : (∀ k, k ∈ l → k ∉ xs) → without xs l = l.
Proof.
  induction l as [|y l IH]; intros H; [done|].
  rewrite without_cons, bool_decide_false by (apply H; left).
  rewrite IH; [done|]. intros k Hk. apply H. by right.
Qed.

Lemma elem_of_without xs l k : k ∈ without xs l ↔ k ∈ l ∧ k ∉ xs.
Proof.
  induction l as [|y l IH].
  { unfold without. simpl. rewrite elem_of_nil. tauto. }
  rewrite without_cons. case_bool_decide as Hy.
  - rewrite IH, elem_of_cons. split; [tauto|].
    intros [[->|?] ?]; [done|tauto].
  - rewrite !elem_of_cons, IH. split; [|tauto].
    intros [->|[? ?]]; tauto.
Qed.

Lemma NoDup_without xs l : NoDup l → NoDup (without xs l).
Proof.
  induction 1 as [|y l Hy _ IH]; [constructor|].
  rewrite without_cons. case_bool_decide; [done|].
  constructor; [|done]. rewrite elem_of_without. tauto.
Qed.

Lemma without_without xs ys l :
  without ys (without xs l) = without (xs ++ ys) l.
Proof.
  induction l as [|y l IH]; [done|].
  rewrite (without_cons xs), (without_cons (xs ++ ys)).
  destruct (bool_decide (y ∈ xs)) eqn:Hx.
  - apply bool_decide_eq_true in Hx.
    by rewrite bool_decide_true by (apply elem_of_app; by left).
  - apply bool_decide_eq_false in Hx. rewrite without_cons, IH.
    destruct (bool_decide (y ∈ ys)) eqn:Hy.
    + apply bool_decide_eq_true in Hy.
      by rewrite bool_decide_true by (apply elem_of_app; by right).
    + apply bool_decide_eq_false in Hy.
      rewrite bool_decide_false; [done|]. rewrite elem_of_app. tauto.
Qed.

Lemma list_remove_without x l :
  NoDup l → x ∈ l → list_remove x l = Ok (without [x] l).
Proof.
  induction l as [|y l IH]; intros Hnd Hx; [by apply elem_of_nil in Hx|].
  apply NoDup_cons in Hnd as [Hy Hnd]. rewrite without_cons.
  destruct (decide (y = x)) as [->|Hne].
  - rewrite bool_decide_true by apply list_elem_of_here. simpl.
    rewrite decide_True by done. f_equal.
    symmetry. apply without_none.
    intros k Hk ->%list_elem_of_singleton. done.
  - apply elem_of_cons in Hx as [->|Hx]; [done|].
    rewrite bool_decide_false by (by intros ?%list_elem_of_singleton).
    simpl. rewrite decide_False by done. by rewrite IH.
Qed.

Lemma list_remove_missing x l : x ∉ l → list_remove x l = Raise Py.ValueError.
Proof.
  induction l as [|y l IH]; [done|].
  intros [Hne Hx]%not_elem_of_cons. simpl.
  rewrite decide_False by done. by rewrite IH.
Qed.

Lemma take_known_without attributes known : ∀ prop_keys,
  NoDup known → NoDup prop_keys →
  (∀ prop, prop ∈ known →
     Py.mem attributes prop = bool_decide (prop ∈ prop_keys)) →
  take_known known attributes prop_keys = Ok (without known prop_keys).
Proof.
  induction known as [|prop known IH]; intros prop_keys Hk Hnd Hmem.
  { simpl. f_equal. symmetry. apply without_none.
    intros k _. apply not_elem_of_nil. }
  apply NoDup_cons in Hk as [Hprop Hk]. simpl.
  rewrite (Hmem prop) by left. case_bool_decide as Hin.
  - rewrite list_remove_without by done. simpl. rewrite IH; [|done| |].
    + by rewrite without_without.
    + by apply NoDup_without.
    + intros p Hp. rewrite (Hmem p) by (by right).
      apply bool_decide_ext. rewrite elem_of_without.
      split; [|tauto]. intros Hpk. split; [done|].
      intros ->%list_elem_of_singleton. done.
  - rewrite IH; [|done..|].
    + f_equal. rewrite <-(without_without [prop] known).
      f_equal. symmetry. apply without_none.
      intros k Hk' ->%list_elem_of_singleton. done.
    + intros p Hp. apply Hmem. by right.
Qed.

Lemma none_left xs l :
  bool_decide (length (without xs l) = 0)
  = forallb (λ k, bool_decide (k ∈ xs)) l.
Proof.
  induction l as [|y l IH]; [done|]. rewrite without_cons.
  change (forallb (λ k, bool_decide (k ∈ xs)) (y :: l))
    with (bool_decide (y ∈ xs) && forallb (λ k, bool_decide (k ∈ xs)) l).
  destruct (bool_decide (y ∈ xs)); [done|].
  by apply bool_decide_eq_false.
Qed.

Lemma built_bind {A B} (a : A) (k : A → outcome B) : Built a ≫= k = k a.
Proof. done. Qed.

Lemma of_result_ok {A} (a : A) : of_result (Ok a) = Built a.
Proof. done. Qed.

Lemma ArgumentOp_new_cases arg_name arg_type attributes :
  NoDup (Py.keys attributes) →
  ArgumentOp_new arg_name arg_type attributes
  = if bool_decide ("type" ∈ Py.keys attributes) then
      if bool_decide ("optional" ∈ Py.keys attributes) then Failed NameError
      else if accepted_keys attributes then
        Built (mkArgumentOp arg_name arg_type
                 (Py.get attributes "standard_name")
                 (Py.get attributes "long_name")
                 (Py.get attributes "kind")
                 (Py.get attributes "intent")
                 (Py.get attributes "units")
                 false)
      else Failed (Builtin Py.AssertionError)
    else Failed (Builtin Py.ValueError).
Proof.
  intros Hnd. unfold ArgumentOp_new. case_bool_decide as Htype.
  2:{ by rewrite list_remove_missing. }
  rewrite list_remove_without, of_result_ok, built_bind by done.
  assert ((if bool_decide ("dimensions" ∈ without ["type"] (Py.keys attributes))
           then of_result (list_remove "dimensions"
                             (without ["type"] (Py.keys attributes)))
           else Built (without ["type"] (Py.keys attributes)))
          = Built (without ["type"; "dimensions"] (Py.keys attributes))) as ->.
  { change ["type"; "dimensions"] with (["type"] ++ ["dimensions"]).
    rewrite <-without_without. case_bool_decide as Hdim.
    - rewrite list_remove_without; [done|by apply NoDup_without|done].
    - f_equal. symmetry. apply without_none.
      intros k Hk ->%list_elem_of_singleton. done. }
  rewrite built_bind, take_known_without.
  - rewrite of_result_ok, built_bind, without_without, mem_keys.
    destruct (bool_decide ("optional" ∈ Py.keys attributes)); [done|].
    rewrite built_bind. unfold accepted_keys. rewrite <-none_left.
    change (["type"] ++ ["dimensions"] ++ carried)
      with ("type" :: "dimensions"  :: carried).
    by destruct (bool_decide (length _ = 0)).
  - apply (bool_decide_unpack _). by vm_compute.
  - by apply NoDup_without.
  - intros prop Hprop. rewrite mem_keys. apply bool_decide_ext.
    rewrite elem_of_without. split; [|tauto]. intros Hin. split; [done|].
    intros Hbad. unfold carried in *.
    repeat (apply elem_of_cons in Hprop as [->|Hprop];
            [revert Hbad; apply (bool_decide_unpack _); by vm_compute|]).
    by apply elem_of_nil in Hprop.
Qed.

Lemma outcome_bind_built {A B} (m : outcome A) (k : A → outcome B) b :
  m ≫= k = Built b → ∃ a, m = Built a ∧ k a = Built b.
Proof. destruct m; [eauto|done]. Qed.

Lemma of_result_built {A} (r : Py.result A) a :
  of_result r = Built a → r = Ok a.
Proof. destruct r; [by intros [= ->]|done]. Qed.

Lemma ArgumentOp_new_built arg_name arg_type attributes op :
  ArgumentOp_new arg_name arg_type attributes = Built op →
  op = mkArgumentOp arg_name arg_type
         (Py.get attributes "standard_name")
         (Py.get attributes "long_name")
         (Py.get attributes "kind")
         (Py.get attributes "intent")
         (Py.get attributes "units")
         false.
Proof.
  intros H. unfold ArgumentOp_new in H.
  apply outcome_bind_built in H as (k1 & _ & H).
  apply outcome_bind_built in H as (k2 & _ & H).
  apply outcome_bind_built in H as (k3 & _ & H).
  apply outcome_bind_built in H as ([] & _ & H).
  apply outcome_bind_built in H as ([] & _ & H).
  by injection H as <-.
Qed.

Lemma argument_of_get op k :
  Py.get (arg_attrs (argument_of op)) k
  = if bool_decide (k ∈ "type" :: carried) then op_property op k else None.
Proof.
  unfold argument_of, op_property, carried.
  destruct op as [name ty sn ln kd it un opt]. simpl.
  destruct (decide (k = "standard_name")) as [->|H1];
    [by destruct sn, ln, kd, it, un|].
  destruct (decide (k = "long_name")) as [->|H2];
    [by destruct sn, ln, kd, it, un|].
  destruct (decide (k = "kind")) as [->|H3];
    [by destruct sn, ln, kd, it, un|].
  destruct (decide (k = "intent")) as [->|H4];
    [by destruct sn, ln, kd, it, un|].
  destruct (decide (k = "units")) as [->|H5];
    [by destruct sn, ln, kd, it, un|].
  destruct (decide (k = "type")) as [->|H6];
    [by destruct sn, ln, kd, it, un|].
  rewrite bool_decide_false.
  - destruct sn, ln, kd, it, un; simpl;
      by rewrite ?decide_False by done.
  - intros Hk. repeat (apply elem_of_cons in Hk as [?|Hk]; [done|]).
    by apply elem_of_nil in Hk.
Qed.

(** X19. Arguments in the ir: for a dictionary of attributes the
    constructor of the argument operation raises [ValueError] without the
    key [type], [NameError] with the key [optional], and fails its
    assertion for a key other than [type], [dimensions], [standard_name],
    [long_name], [kind], [intent] and [units]; otherwise it builds the
    operation.  From a built operation the descriptor builder recovers an
    argument with the same name and, for [type] and those last five keys,
    the same values; [dimensions] is not carried. *)
Theorem argument_operation_carries_the_known_keys :
  (∀ arg_name arg_type attributes,
     NoDup (Py.keys attributes) →
     ArgumentOp_new arg_name arg_type attributes
     = if bool_decide ("type" ∈ Py.keys attributes) then
         if bool_decide ("optional" ∈ Py.keys attributes)
         then Failed NameError
         else if accepted_keys attributes then
           Built (mkArgumentOp arg_name arg_type
                    (Py.get attributes "standard_name")
                    (Py.get attributes "long_name")
                    (Py.get attributes "kind")
                    (Py.get attributes "intent")
                    (Py.get attributes "units")
                    false)
         else Failed (Builtin Py.AssertionError)
       else Failed (Builtin Py.ValueError)) ∧
  (∀ name ty attributes op md tbl,
     ArgumentOp_new name ty attributes = Built op →
     ∃ a,
       traverse_argument_op (mkBMDD md tbl None) op
       = Ok (mkBMDD md tbl (Some a)) ∧
       arg_name a = name ∧
       Py.get (arg_attrs a) "type" = Some ty ∧
       (∀ k, k ∈ carried → Py.get (arg_attrs a) k = Py.get attributes k) ∧
       (∀ k, k ∉ "type" :: carried → Py.get (arg_attrs a) k = None)).
Proof.
  split; [apply ArgumentOp_new_cases|].
  intros name ty attributes op md tbl ->%ArgumentOp_new_built.
  eexists. split; [by apply traverse_argument_op_ok|].
  split; [done|]. split_and!.
  - by rewrite argument_of_get.
  - intros k Hk. rewrite argument_of_get, bool_decide_true by (by right).
    unfold carried in Hk.
    repeat (apply elem_of_cons in Hk as [->|Hk]; [done|]).
    by apply elem_of_nil in Hk.
  - intros k Hk. by rewrite argument_of_get, bool_decide_false.
Qed.

Lemma build_arguments_built fn_args : ∀ ops,
  build_arguments fn_args = Built ops →
  length ops = length fn_args ∧
  Forall (λ op, op_optional op = false) ops.
Proof.
  induction fn_args as [|a fn_args IH]; intros ops H; simpl in H.
  { by injection H as <-. }
  apply outcome_bind_built in H as (ty & _ & H).
  apply outcome_bind_built in H as (op & ->%ArgumentOp_new_built & H).
  apply outcome_bind_built in H as (ops' & [Hlen Hall]%IH & H).
  injection H as <-. simpl. split; [by rewrite Hlen|by constructor].
Qed.

Lemma build_tables_built tables : ∀ ops,
  build_tables tables = Built ops →
  Forall2 (λ t op,
             getAttr (table_attrs t) "name" = Ok (op_table_name op) ∧
             getAttr (table_attrs t) "type" = Ok (op_table_type op) ∧
             length (op_table_body op) = length (getFunctionArguments t) ∧
             no_optional op)
          tables ops.
Proof.
  induction tables as [|t tables IH]; intros ops H; simpl in H.
  { injection H as <-. constructor. }
  apply outcome_bind_built in H as (args & [Hlen Hall]%build_arguments_built & H).
  apply outcome_bind_built in H as (name & Hname%of_result_built & H).
  apply outcome_bind_built in H as (ty & Hty%of_result_built & H).
  apply outcome_bind_built in H as (op & Hop%of_result_built & H).
  apply outcome_bind_built in H as (ops' & Hops%IH & H).
  injection H as <-. constructor; [|done].
  unfold ArgumentTableOp_new in Hop.
  apply result_bind_ok in Hop as (ty' & Hty' & Hop). injection Hop as <-.
  unfold TableTypeKind in Hty'. case_bool_decide; [|done].
  injection Hty' as <-. done.
Qed.

(** X20. Metadata units in the ir: the table-properties operation built
    for a unit takes its name and kind from the last argument table of the
    unit, never from the unit's own properties, and holds one argument
    table operation for each table, with the table's name, kind and as many
    arguments; a unit without argument table raises [UnboundLocalError].
    The descriptor builder stores what it recovers from the operation under
    that name, the name of the last table. *)
Theorem unit_is_named_after_its_last_table :
  (∀ isScheme properties,
     build_meta_ir (mkMetaData isScheme properties [])
     = Failed UnboundLocalError) ∧
  (∀ isScheme isScheme' properties properties' tables,
     build_meta_ir (mkMetaData isScheme properties tables)
     = build_meta_ir (mkMetaData isScheme' properties' tables)) ∧
  (∀ meta op md tbl,
     build_meta_ir meta = Built op →
     ∃ t props,
       last (md_arg_tables meta) = Some t ∧
       getAttr (table_attrs t) "name" = Ok (op_prop_name op) ∧
       getAttr (table_attrs t) "type" = Ok (op_prop_type op) ∧
       Forall2 (λ t op,
                  getAttr (table_attrs t) "name" = Ok (op_table_name op) ∧
                  getAttr (table_attrs t) "type" = Ok (op_table_type op) ∧
                  length (op_table_body op)
                  = length (getFunctionArguments t) ∧
                  no_optional op)
               (md_arg_tables meta) (op_prop_body op) ∧
       traverse_table_properties_op (mkBMDD md tbl None) op
       = Ok (mkBMDD (Py.set md (op_prop_name op) props) None None) ∧
       prop_attrs props
       = [("name", op_prop_name op); ("type", op_prop_type op)]).
Proof.
  split_and!; [done..|].
  intros meta op md tbl H. unfold build_meta_ir in H.
  apply outcome_bind_built in H as (tables & Htables%build_tables_built & H).
  destruct (last (md_arg_tables meta)) as [t|]; [|done].
  apply outcome_bind_built in H as (name & Hname%of_result_built & H).
  apply outcome_bind_built in H as (ty & Hty%of_result_built & H).
  apply of_result_built in H. unfold TablePropertiesOp_new in H.
  apply result_bind_ok in H as (ty' & Hty' & H). injection H as <-.
  unfold TableTypeKind in Hty'. case_bool_decide as Hkind; [|done].
  injection Hty' as <-. simpl.
  eexists t, _. split_and!; [done..| |].
  - rewrite traverse_table_properties_op_ok; [reflexivity| |].
    + simpl. clear -Htables.
      induction Htables as [|t' top ts tops (_ & _ & _ & Hno) _ IH];
        by constructor.
    + simpl. unfold CCPPType. by rewrite bool_decide_true.
  - done.
Qed.

End meta_ir_facts.

(** ** Command line options *)
Section options_facts.
Import options.

Lemma split_nonempty sep text : Py.split sep text ≠ [].
Proof.
  destruct text as [|c text]; [done|]. simpl.
  case_decide; [done|]. by destruct (Py.split sep text).
Qed.

Lemma split_join (files : list string) :
  files ≠ [] →
  Forall (λ f, Py.contains "," f = false) files →
  Py.split "," (Py.join "," files) = files.
Proof.
  intros Hne Hall. induction Hall as [|f files Hf Hall IH]; [done|].
  destruct files as [|g files].
  { simpl. by apply split_without_separator. }
  change (Py.join "," (f :: g :: files))
    with (f +:+ String "," (Py.join "," (g :: files))).
  rewrite split_at_separator by done. by rewrite IH.
Qed.

Lemma split_one text :
  length (Py.split "," text) = 1 ↔ Py.contains "," text = false.
Proof.
  induction text as [|c text IH]; [done|]. simpl.
  destruct (decide (c = ","%char)) as [->|Hc].
  - pose proof (split_nonempty "," text).
    destruct (Py.split "," text); [done|]. simpl. split; [lia|done].
  - rewrite <-IH. pose proof (split_nonempty "," text).
    by destruct (Py.split "," text).
Qed.

Lemma split_option_get args key :
  split_option args key
  = match Py.get args key with
    | Some (Some text) => Py.split "," text
    | _ => []
    end.
Proof. unfold split_option, Py.mem. by destruct (Py.get args key). Qed.

(** X21. Options: an option that is absent or [None] becomes the empty
    list, an option with a text becomes the list of the texts between its
    commas (never empty: the empty text gives one empty name); a list of
    names without commas, joined by commas, is given back as it was.  The
    option [suites] yields exactly one suite, as [run] asserts, exactly
    when it has a text without comma. *)
Theorem options_are_comma_separated :
  (∀ args,
     Py.get args "scheme_files" ∈ [None; Some None] →
     scheme_files (build_options_db_from_args args) = []) ∧
  (∀ args text,
     Py.get args "suites" = Some (Some text) →
     suites (build_options_db_from_args args) = Py.split "," text ∧
     suites (build_options_db_from_args args) ≠ []) ∧
  (∀ args files,
     files ≠ [] →
     Forall (λ f, Py.contains "," f = false) files →
     Py.get args "host_files" = Some (Some (Py.join "," files)) →
     host_files (build_options_db_from_args args) = files) ∧
  (∀ args,
     length (suites (build_options_db_from_args args)) = 1
     ↔ ∃ text, Py.get args "suites" = Some (Some text) ∧
               Py.contains "," text = false).
Proof.
  split_and!.
  - intros args Hin. simpl. rewrite split_option_get.
    apply elem_of_cons in Hin as [->|Hin]; [done|].
    by apply list_elem_of_singleton in Hin as ->.
  - intros args text Htext. simpl. rewrite split_option_get, Htext.
    split; [done|apply split_nonempty].
  - intros args files Hne Hall Hget. simpl.
    rewrite split_option_get, Hget. by apply split_join.
  - intros args. simpl. rewrite split_option_get.
    destruct (Py.get args "suites") as [[text|]|]; simpl.
    + rewrite split_one. split; [by exists text|by intros (? & [= <-] & ?)].
    + split; [done|by intros (? & ? & ?)].
    + split; [done|by intros (? & ? & ?)].
Qed.

End options_facts.

(** ** Instances *)
Section generator_witnesses.
Import ir ccpp_descriptors suite_cap generated allocation.

(** X1, witness: the suite of the end-to-end scenario, whose scheme [A]
    declares [errflg]. *)
Lemma errflg_slot_is_required_witness :
  ∃ s t a,
    s ∈ getSchemeNames suite_S ∧
    getArgumentTable pass_S s (s +:+ "_init") = Ok t ∧
    a ∈ getFunctionArguments t ∧
    arg_name a = "errflg".
Proof.
  eapply (proj2 errflg_slot_is_required pass_S suite_S "_init"
            (Some "_initialize") 0).
  vm_compute. reflexivity.
Defined.

(** X13, witness: the argument [errmsg] of kind [len=512] is given a
    buffer of 512 bytes. *)
Lemma character_length_is_read_from_the_kind_witness :
  allocate
    [mkArgument "errmsg" [("type", "character"); ("kind", "len=512")]] [] 0
  = allocate []
      (Py.set [] "errmsg" (AllocaOp (mkSSA 0 (MemRefType i8 [512%Z]) None)))
      1.
Proof.
  apply (proj1 (proj2 (proj2 (proj2 (proj2
                 character_length_is_read_from_the_kind))))
           (mkArgument "errmsg" [("type", "character"); ("kind", "len=512")])
           512%Z [] [] 0);
    [reflexivity|reflexivity|by vm_compute].
Defined.

End generator_witnesses.

Section emitter_witnesses.
Import ir print_ftn naming emitting framing operators.

(** X7, witness: a signed less-than between the load of a buffer and the
    constant 7 prints [v0 .lt. 7]. *)
Lemma comparison_prints_the_registered_operator_witness :
  print_expr no_text ex_less root_context (register_binops new_emitter).2
  = (Ok (mkContext "" {[11 := "v0"]} 1),
     emitted (register_binops new_emitter).2 "v0 .lt. 7").
Proof.
  unfold ex_less.
  rewrite (proj1 (proj2 (comparison_prints_the_registered_operator no_text)))
    by (reflexivity || lia).
  vm_compute. reflexivity.
Defined.

(** X8, witness: a vector of three integers. *)
Lemma slot_types_are_printed_witness :
  mlir_type_to_ftn_type (-1) (MemRefType i32 [3%Z])
  = Ok (Some (fortran_slot_type "integer" [3%Z])).
Proof.
  apply (proj1 (proj2 (slot_types_are_printed (-1)))); [reflexivity|].
  apply (bool_decide_unpack _). by vm_compute.
Defined.

(** X9, witness: a module that holds one external declaration, printed
    after another module. *)
Lemma only_modules_are_printed_witness :
  print_modules no_uses no_text (-1) root_context true
    [ModuleOp (Some "A_cap") [FuncOp_external "A_init" [] []]] new_emitter
  = print_modules no_uses no_text (-1) root_context true []
      (emitted (emitted new_emitter ("" +:+ "// -----" +:+ newline))
         ("" +:+ ("// FILE: " +:+ "A_cap") +:+ newline)).
Proof.
  apply (proj2 (proj2 (proj2 (only_modules_are_printed no_uses no_text (-1))))
           root_context true "A_cap" [FuncOp_external "A_init" [] []] []
           new_emitter).
  - by repeat constructor.
  - reflexivity.
Defined.

End emitter_witnesses.

Section reader_witnesses.
Import ccpp_descriptors ccpp_xml metadata reading.

(** X10, witness: a blank line between two headers. *)
Lemma line_without_equals_is_fatal_witness :
  ∃ e, parse_metadata_file
         (["[ccpp-table-properties]"] ++ "" :: ["[ccpp-arg-table]"]) true
       = Raise e.
Proof.
  apply (proj2 (proj2 line_without_equals_is_fatal)
           ["[ccpp-table-properties]"] "" ["[ccpp-arg-table]"] true);
    reflexivity.
Defined.

End reader_witnesses.

Section descriptor_witnesses.
Import ir ccpp_descriptors signatures generated.

(** X14, witness: the key [kind] stored for an argument. *)
Lemma attributes_are_stored_by_key_witness :
  getAttr [("type", "character"); ("kind", "len=512")] "kind" = Ok "len=512" ∧
  ∀ key', key' ≠ "kind" →
    getAttr [("type", "character"); ("kind", "len=512")] key'
    = getAttr [("type", "character")] key' ∧
    hasAttr [("type", "character"); ("kind", "len=512")] key'
    = hasAttr [("type", "character")] key'.
Proof.
  apply (proj1 attributes_are_stored_by_key [("type", "character")]
           "kind" "len=512" None).
  reflexivity.
Defined.

(** X15, witness: the table [H_init], whose only argument is an output. *)
Lemma signature_follows_the_intents_witness :
  ∃ fn name tys,
    suite_meta.generate_function_signature rewriting.H_init = Ok fn ∧
    getAttr (table_attrs rewriting.H_init) "name" = Ok name ∧
    mapM declared_type (getFunctionArguments rewriting.H_init) = Ok tys ∧
    Forall known_intent (getFunctionArguments rewriting.H_init) ∧
    fn = FuncOp_external name
           (types_of passed_in (getFunctionArguments rewriting.H_init) tys)
           (types_of passed_out (getFunctionArguments rewriting.H_init) tys).
Proof.
  eexists.
  assert (suite_meta.generate_function_signature rewriting.H_init
          = Ok (FuncOp_external "H_init" [] [MemRefType i32 []])) as H
    by (vm_compute; reflexivity).
  destruct (proj1 signature_follows_the_intents _ _ H)
    as (name & tys & Hname & Htys & Hall & Hfn).
  exists name, tys. by split_and!.
Defined.

End descriptor_witnesses.

Section frontend_witnesses.
Import ccpp_descriptors ccpp_xml metadata meta_ir meta_round_trip options.

(** X19, witness: the attributes the reader leaves for [errmsg]. *)
Lemma argument_operation_carries_the_known_keys_witness :
  ∃ op a,
    ArgumentOp_new "errmsg" "character" errmsg_attributes = Built op ∧
    traverse_argument_op (mkBMDD [] None None) op
    = Ok (mkBMDD [] None (Some a)) ∧
    arg_name a = "errmsg" ∧
    Py.get (arg_attrs a) "type" = Some "character" ∧
    (∀ k, k ∈ carried →
          Py.get (arg_attrs a) k = Py.get errmsg_attributes k) ∧
    (∀ k, k ∉ "type" :: carried → Py.get (arg_attrs a) k = None).
Proof.
  eexists.
  assert (ArgumentOp_new "errmsg" "character" errmsg_attributes
          = Built (mkArgumentOp "errmsg" "character"
                     (Some "ccpp_error_message") None (Some "len")
                     (Some "out") (Some "none") false)) as H
    by (vm_compute; reflexivity).
  destruct (proj2 argument_operation_carries_the_known_keys
              _ _ _ _ [] None H) as (a & Ha).
  exists a. by split.
Defined.

(** X20, witness: the unit read from the file with two tables
    [hello_init], whose properties name it [hello]. *)
Lemma unit_is_named_after_its_last_table_witness :
  ∃ meta op t props,
    parse_metadata_file twice_file true = Ok meta ∧
    getAttr (prop_attrs (table_properties meta)) "name" = Ok "hello" ∧
    build_meta_ir meta = Built op ∧
    op_prop_name op = "hello_init" ∧
    last (md_arg_tables meta) = Some t ∧
    getAttr (table_attrs t) "name" = Ok (op_prop_name op) ∧
    traverse_table_properties_op (mkBMDD [] None None) op
    = Ok (mkBMDD (Py.set [] (op_prop_name op) props) None None) ∧
    prop_attrs props
    = [("name", op_prop_name op); ("type", op_prop_type op)].
Proof.
  destruct (parse_metadata_file twice_file true) as [meta|e] eqn:Hmeta;
    [|by vm_compute in Hmeta].
  assert (Hm := Hmeta). vm_compute in Hm. injection Hm as Hm.
  destruct (build_meta_ir meta) as [op|e] eqn:Hop;
    [|rewrite <-Hm in Hop; by vm_compute in Hop].
  assert (Ho := Hop). rewrite <-Hm in Ho. vm_compute in Ho.
  injection Ho as Ho.
  destruct (proj2 (proj2 unit_is_named_after_its_last_table)
              meta op [] None Hop)
    as (t & props & Hlast & Hname & _ & _ & Htraverse & Hprops).
  exists meta, op, t, props.
  split; [reflexivity|].
  split; [rewrite <-Hm; vm_compute; reflexivity|].
  split; [exact Hop|].
  split; [rewrite <-Ho; reflexivity|].
  split; [exact Hlast|].
  split; [exact Hname|].
  split; [exact Htraverse|exact Hprops].
Defined.

(** X21, witness: two host files. *)
Lemma options_are_comma_separated_witness :
  host_files
    (build_options_db_from_args [("host_files", Some "a.meta,b.meta")])
  = ["a.meta"; "b.meta"].
Proof.
  apply (proj1 (proj2 (proj2 options_are_comma_separated))
           [("host_files", Some "a.meta,b.meta")] ["a.meta"; "b.meta"]).
  - done.
  - by repeat constructor.
  - reflexivity.
Defined.

End frontend_witnesses.
